(** * Bot/app.py: news-to-heatmap pipeline, shallow embedding

    The development follows the source file top-down: Python values and
    exceptions, the keyword scorer, the feed filter, language detection,
    place extraction and geocoding, the MinHash near-duplicate index, the
    SQLite table with its aggregation query, and the run loop. *)

From Stdlib Require Import QArith Qminmax Qround Lqa.
From stdpp Require Import gmap strings list.

Open Scope Z_scope.

(** ** Python values *)

(** A Python [str] is a sequence of Unicode code points; [len] counts code
    points, not bytes. *)
Abbreviation str := (list N) (only parsing).

(** Source literals are written as Rocq strings, which hold the UTF-8 bytes
    of the literal; [py] decodes them to code points. *)
Fixpoint utf8_decode (bs : list N) : str :=
  match bs with
  | [] => []
  | b0 :: r0 =>
    if (b0 <? 128)%N then b0 :: utf8_decode r0
    else match r0 with
    | [] => [b0]
    | b1 :: r1 =>
      if (b0 <? 224)%N then ((b0 - 192) * 64 + (b1 - 128))%N :: utf8_decode r1
      else match r1 with
      | [] => [b0; b1]
      | b2 :: r2 =>
        if (b0 <? 240)%N
        then ((b0 - 224) * 4096 + (b1 - 128) * 64 + (b2 - 128))%N :: utf8_decode r2
        else match r2 with
        | [] => [b0; b1; b2]
        | b3 :: r3 =>
          ((b0 - 240) * 262144 + (b1 - 128) * 4096 + (b2 - 128) * 64 + (b3 - 128))%N
            :: utf8_decode r3
        end
      end
    end
  end.

Definition py (s : string) : str :=
  utf8_decode (map Ascii.N_of_ascii (String.list_ascii_of_string s)).

(** [len(s)] as the integer Python returns. *)
Definition len (s : str) : Z := Z.of_nat (length s).

(** [s.startswith(p)] *)
Fixpoint startswith (s p : str) : bool :=
  match p, s with
  | [], _ => true
  | _ :: _, [] => false
  | c :: p', d :: s' => (c =? d)%N && startswith s' p'
  end.

(** [k in t] on strings: [k] occurs in [t] as a contiguous run. *)
Fixpoint contains (t k : str) : bool :=
  startswith t k ||
  match t with
  | [] => false
  | _ :: t' => contains t' k
  end.

(** Truthiness of the values the source tests with [if x] / [not x]. *)
Definition truthy_str (s : str) : bool :=
  match s with [] => false | _ => true end.

(** ** Exceptions and outcomes

    [except Exception] catches the instances of [Exception]; a bare
    [except:] also catches what derives from [BaseException] only
    (KeyboardInterrupt, SystemExit). *)
Inductive exn : Type :=
  | Exception (name : string)
  | BaseException (name : string).

Inductive outcome (A : Type) : Type :=
  | Val (a : A)
  | Raise (e : exn).
Arguments Val {A} a.
Arguments Raise {A} e.

Definition is_Val {A} (o : outcome A) : bool :=
  match o with Val _ => true | Raise _ => false end.

(** A surrogate, U+D800 to U+DFFF: a code point that a [str] can hold but
    that stands for no character. *)
Definition is_surrogate (c : N) : bool := ((55296 <=? c) && (c <=? 57343))%N.

(** ** Tables of the Python runtime

    [str.lower], [str.strip] and the regular expression class [\w] are
    driven by the Unicode character database, which is outside the
    repository: they are parameters of the development. [\w] matches what
    [str.isalnum] accepts and the underscore; no surrogate is
    alphanumeric. *)
Class Unicode := {
  lower : str -> str;
  isspace : N -> bool;
  isword : N -> bool;
  isword_surrogate : forall c, is_surrogate c = true -> isword c = false
}.

(** The Basic Latin and Latin-1 part of those tables. *)
Definition latin1_lower_cp (c : N) : N :=
  if ((65 <=? c) && (c <=? 90))%N then (c + 32)%N
  else if ((192 <=? c) && (c <=? 222) && negb (c =? 215))%N then (c + 32)%N
  else c.

Definition latin1_isspace (c : N) : bool :=
  ((9 <=? c) && (c <=? 13) || (28 <=? c) && (c <=? 32) || (c =? 133) || (c =? 160))%N.

Definition latin1_isword (c : N) : bool :=
  ((48 <=? c) && (c <=? 57) || (65 <=? c) && (c <=? 90) || (c =? 95)
   || (97 <=? c) && (c <=? 122) || (c =? 170) || (c =? 178) || (c =? 179)
   || (c =? 181) || (c =? 185) || (c =? 186) || (188 <=? c) && (c <=? 190)
   || (192 <=? c) && (c <=? 255) && negb (c =? 215) && negb (c =? 247))%N.

Definition latin1 : Unicode := {|
  lower := map latin1_lower_cp;
  isspace := latin1_isspace;
  isword := latin1_isword;
  isword_surrogate := ltac:(
    intros c Hc; unfold is_surrogate in Hc;
    apply andb_true_iff in Hc as [Hc _]; apply N.leb_le in Hc;
    assert (Hle : forall b, (b < 55296)%N -> (c <=? b)%N = false)
      by (intros b Hb; apply N.leb_gt; lia);
    assert (Hne : forall b, (b < 55296)%N -> (c =? b)%N = false)
      by (intros b Hb; apply N.eqb_neq; lia);
    unfold latin1_isword;
    rewrite !Hle, !Hne by reflexivity;
    rewrite ?andb_false_r; reflexivity)
|}.

(** [s.strip()]: leading and trailing whitespace removed. *)
Fixpoint lstrip {U : Unicode} (s : str) : str :=
  match s with
  | [] => []
  | c :: s' => if isspace c then lstrip s' else s
  end.

Definition strip {U : Unicode} (s : str) : str :=
  rev (lstrip (rev (lstrip s))).

(** ** Relevance scorer

    Python floats are taken as exact rationals: [0.6] is 6/10, [2000.0] is
    2000, and the operations are those of the rationals. *)

Definition CRIME_KEYWORDS : gmap (list N) (list (list N)) :=
  list_to_map [
    (py "pt",
      map py ["homicídio"; "assassinato"; "roubo"; "furto"; "tráfico"; "agressão";
              "sequestro"; "extorsão"; "estupro"; "latrocínio"; "corrupção"; "fraude";
              "crime organizado"; "milícia"; "tiroteio"]);
    (py "en",
      map py ["homicide"; "murder"; "robbery"; "theft"; "trafficking"; "assault";
              "kidnapping"; "extortion"; "rape"; "felony"; "corruption"; "fraud";
              "organized crime"; "shooting"; "arson"])
  ].

Section WithUnicode.
Context {U : Unicode}.

(** [sum(1 for k in CRIME_KEYWORDS[lang] if k in t)] *)
Definition hits_of (kws : list str) (t : str) : nat :=
  sum_list_with (fun k => if contains t k then 1%nat else 0%nat) kws.

Definition score_of (hits : nat) (length : Z) : Q :=
  let length_norm := Qmin (inject_Z length / 2000) 1 in
  (Qmin (inject_Z (Z.of_nat hits) / 5) 1 * (6 # 10) + length_norm * (4 # 10))%Q.

(** A dictionary lookup with a missing key raises [KeyError]. *)
Definition crime_score (text : str) (lang : str) : outcome Q :=
  let t := lower text in
  match CRIME_KEYWORDS !! lang with
  | None => Raise (Exception "KeyError")
  | Some kws =>
    let hits := hits_of kws t in
    Val (score_of hits (len text))
  end.

End WithUnicode.

(** ** Signature builder *)

(** The UTF-8 bytes of a code point, and of a sequence of code points. *)
Definition utf8_encode_cp (c : N) : list N :=
  if (c <? 128)%N then [c]
  else if (c <? 2048)%N then [192 + c / 64; 128 + c mod 64]%N
  else if (c <? 65536)%N then [224 + c / 4096; 128 + (c / 64) mod 64; 128 + c mod 64]%N
  else [240 + c / 262144; 128 + (c / 4096) mod 64; 128 + (c / 64) mod 64; 128 + c mod 64]%N.

Definition encode (s : str) : list N := flat_map utf8_encode_cp s.

(** [s.encode()]: the UTF-8 bytes of [s]; a string that holds a surrogate
    cannot be encoded. *)
Definition str_encode (s : str) : outcome (list N) :=
  if existsb is_surrogate s then Raise (Exception "UnicodeEncodeError")
  else Val (encode s).

Section Tokens.
Context {U : Unicode}.

(** The maximal runs of [\w] characters of [s], left to right; [cur] holds
    the run being read, last character first. *)
Fixpoint word_runs (cur : str) (s : str) : list str :=
  match s with
  | [] => [rev cur]
  | c :: s' => if isword c then word_runs (c :: cur) s' else rev cur :: word_runs [] s'
  end.

(** [re.findall(r"\w{5,}", s)]: the quantifier is greedy, so a match is a
    whole maximal run, and a run shorter than five gives no match. *)
Definition findall_w5 (s : str) : list str :=
  List.filter (fun w => (5 <=? length w)%nat) (word_runs [] s).

(** [set(re.findall(r"\w{5,}", text.lower()))] *)
Definition tokens (text : str) : gset (list N) :=
  list_to_set (findall_w5 (lower text)).

End Tokens.

(** Modelled from the spec: the MinHash class of the datasketch package is
    not part of the repository. Following sections 4.2 and 4.3, a signature
    holds [num_perm] hashed-minimum slots; slot [i] keeps the least value
    that the [i]-th hash function of a fixed, seeded family takes on the
    items fed to [update], starting from the greatest hash value
    [max_hash]. *)
Class HashFamily := {
  max_hash : Z;
  slot_hash : nat -> list N -> Z;
  slot_hash_le : forall i b, slot_hash i b <= max_hash
}.

Record MinHash := mkMinHash { hashvalues : list Z }.

Section MinHashOps.
Context {HF : HashFamily}.

Definition MinHash_new (num_perm : nat) : MinHash :=
  mkMinHash (replicate num_perm max_hash).

Definition update (m : MinHash) (b : list N) : MinHash :=
  mkMinHash (imap (fun i hv => Z.min hv (slot_hash i b)) (hashvalues m)).

End MinHashOps.

Section Signature.
Context {U : Unicode} {HF : HashFamily}.

(** [for t in tokens: m.update(t.encode())]. A token is a run of word
    characters, none of which is a surrogate ([isword_surrogate]), so
    [t.encode()] returns, and returns [encode t]. *)
Definition text_signature_with (num_perm : nat) (text : str) : MinHash :=
  foldl (fun m t => update m (encode t)) (MinHash_new num_perm) (elements (tokens text)).

Definition text_signature (text : str) : MinHash := text_signature_with 128 text.

End Signature.

(** ** Near-duplicate index *)

(** Modelled from the spec: the MinHashLSH class of the datasketch package
    is not part of the repository. Following section 4.3, the signature is
    cut into [bands] groups of [rows] slots; an inserted signature that agrees
    with the queried one on a whole band is a candidate, and a candidate whose
    estimated Jaccard similarity (the share of equal slots) reaches the
    threshold is a match. The library derives [bands] and [rows] from the
    threshold and the signature size. *)
Class Banding := {
  bands : nat;
  rows : nat
}.

Record MinHashLSH := mkLSH {
  threshold : Q;
  lsh_num_perm : nat;
  inserted : list (list N * MinHash)
}.

Section LSH.
Context {B : Banding}.

Definition build_lsh_with (threshold : Q) (num_perm : nat) : MinHashLSH :=
  mkLSH threshold num_perm [].

Definition build_lsh : MinHashLSH := build_lsh_with (85 # 100) 128.

Definition band (i : nat) (m : MinHash) : list Z :=
  take rows (drop (i * rows) (hashvalues m)).

Definition shares_band (m1 m2 : MinHash) : bool :=
  existsb (fun i => bool_decide (band i m1 = band i m2)) (seq 0 bands).

Definition equal_slots (m1 m2 : MinHash) : nat :=
  sum_list_with (fun p => if (fst p =? snd p) then 1%nat else 0%nat)
    (zip (hashvalues m1) (hashvalues m2)).

Definition jaccard (num_perm : nat) (m1 m2 : MinHash) : Q :=
  inject_Z (Z.of_nat (equal_slots m1 m2)) / inject_Z (Z.of_nat num_perm).

Definition lsh_candidates (lsh : MinHashLSH) (m : MinHash) : list (list N) :=
  map fst (List.filter (fun e => shares_band (snd e) m) (inserted lsh)).

Definition lsh_query (lsh : MinHashLSH) (m : MinHash) : list (list N) :=
  map fst (List.filter
    (fun e => shares_band (snd e) m
              && Qle_bool (threshold lsh) (jaccard (lsh_num_perm lsh) (snd e) m))
    (inserted lsh)).

Definition lsh_insert (lsh : MinHashLSH) (key : list N) (m : MinHash) : MinHashLSH :=
  mkLSH (threshold lsh) (lsh_num_perm lsh) (inserted lsh ++ [(key, m)]).

End LSH.

(** [if lsh.query(sig)]: a list is true when it is not empty. *)
Definition truthy_list {A} (l : list A) : bool :=
  match l with [] => false | _ => true end.

(** ** Event store

    Python floats and SQLite REAL values are taken as exact rationals; SQL
    NULL in the [link] column is [None]. *)
Record Event := mkEvent {
  ev_link : option (list N);
  ev_title : list N;
  ev_published_at : list N;
  ev_lang : list N;
  ev_score : Q;
  ev_lat : Q;
  ev_lon : Q;
  ev_place : list N;
  ev_created_at : list N
}.

(** A stored row: the event and its [id INTEGER PRIMARY KEY]. *)
Record StoredEvent := mkStored { id : Z; event : Event }.

(** The database file: [None] before the table [news_events] exists. *)
Definition Database := option (list StoredEvent).

(** [CREATE TABLE IF NOT EXISTS news_events(...)] *)
Definition ensure_db (db : Database) : Database :=
  match db with
  | None => Some []
  | Some t => Some t
  end.

(** An omitted INTEGER PRIMARY KEY is one more than the largest in use. *)
Definition next_rowid (t : list StoredEvent) : Z :=
  1 + foldr Z.max 0 (map id t).

(** [link TEXT UNIQUE]: a non-NULL link conflicts with an equal stored one;
    NULLs never conflict. *)
Definition link_conflict (l : option (list N)) (t : list StoredEvent) : bool :=
  match l with
  | None => false
  | Some s => existsb (fun r => bool_decide (ev_link (event r) = Some s)) t
  end.

(** [INSERT OR IGNORE INTO news_events (...) VALUES (...)] for one row. *)
Definition insert_or_ignore (t : list StoredEvent) (e : Event) : list StoredEvent :=
  if link_conflict (ev_link e) t then t
  else t ++ [mkStored (next_rowid t) e].

(** [cur.executemany(...)]; without the table the statement fails. *)
Definition save_events (rows : list Event) (db : Database) : outcome unit * Database :=
  match db with
  | None => (Raise (Exception "sqlite3.OperationalError"), db)
  | Some t => (Val tt, Some (foldl insert_or_ignore t rows))
  end.

(** ** Spatial aggregator *)

(** SQLite's [round(X, Y)]: to [Y] decimals, halves away from zero, on the
    rationals that stand for REAL values. SQLite itself computes on binary
    floating point, and there a value within a few units in the last place
    of a tie may go to the other neighbour; the statements
    that use [sql_round] do not depend on which neighbour is taken, are
    about values away from a tie, or leave room for the difference. *)
Definition round_half_away (x : Q) : Z :=
  if Qle_bool 0 x then Qfloor (x + (1 # 2)) else Qceiling (x - (1 # 2)).

Definition sql_round (x : Q) (digits : nat) : Q :=
  Qmake (round_half_away (x * inject_Z (10 ^ Z.of_nat digits)))
        (Z.to_pos (10 ^ Z.of_nat digits)).

Definition bucket (e : Event) : Q * Q :=
  (sql_round (ev_lat e) 3, sql_round (ev_lon e) 3).

Definition same_bucket (k1 k2 : Q * Q) : bool :=
  Qeq_bool (fst k1) (fst k2) && Qeq_bool (snd k1) (snd k2).

(** One more member for group [k]; a new group goes last. *)
Fixpoint count_into (k : Q * Q) (groups : list (Q * Q * Z)) : list (Q * Q * Z) :=
  match groups with
  | [] => [(k, 1)]
  | (k', n) :: rest =>
    if same_bucket k k' then (k', n + 1) :: rest else (k', n) :: count_into k rest
  end.

(** [SELECT round(lat,3), round(lon,3), COUNT( * ) ... GROUP BY round(lat,3),
    round(lon,3)]. SQL leaves the order of the groups open; they are listed
    here by first member. *)
Definition group_count (t : list StoredEvent) : list (Q * Q * Z) :=
  foldl (fun groups r => count_into (bucket (event r)) groups) [] t.

Definition aggregate (db : Database) : outcome (list (Q * Q * Z)) * Database :=
  match db with
  | None => (Raise (Exception "sqlite3.OperationalError"), db)
  | Some t => (Val (group_count t), db)
  end.

(** ** Effects

    A computation reads and updates a state and either returns a value or
    raises. State changes made before a [Raise] stay: Python does not undo
    the mutations of a [try] block. *)
Definition M (S A : Type) : Type := S -> outcome A * S.

Definition ret {S A} (a : A) : M S A := fun s => (Val a, s).

Definition raise {S A} (e : exn) : M S A := fun s => (Raise e, s).

Definition bind {S A B} (m : M S A) (k : A -> M S B) : M S B :=
  fun s =>
    match m s with
    | (Val a, s') => k a s'
    | (Raise e, s') => (Raise e, s')
    end.

Notation "'let*' x ':=' c 'in' k" := (bind c (fun x => k))
  (at level 10, x name, c at level 100, k at level 200).

(** [try: m  except Exception: h] *)
Definition try_except_Exception {S A} (m : M S A) (h : M S A) : M S A :=
  fun s =>
    match m s with
    | (Raise (Exception _), s') => h s'
    | r => r
    end.

(** [try: m  except: h] *)
Definition try_except {S A} (m : M S A) (h : M S A) : M S A :=
  fun s =>
    match m s with
    | (Raise _, s') => h s'
    | r => r
    end.

Definition lift_outcome {S A} (o : outcome A) : M S A := fun s => (o, s).

(** [for x in l: body(x)] *)
Fixpoint for_each {S A} (l : list A) (body : A -> M S unit) : M S unit :=
  match l with
  | [] => ret tt
  | x :: l' => let* _ := body x in for_each l' body
  end.

(** ** Collaborators *)

(** A feed entry as [e.get] sees it: an absent key reads as [None];
    [published_parsed] and [updated_parsed] are time tuples. *)
Record Entry := mkEntry {
  entry_link : option (list N);
  entry_title : option (list N);
  published_parsed : option (list Z);
  updated_parsed : option (list Z)
}.

(** The dictionaries [fetch_rss_items] returns. *)
Record Item := mkItem {
  item_title : list N;
  item_link : list N;
  item_published_at : list N
}.

(** A spaCy entity: [ent.text] and [ent.label_]. *)
Record Ent := mkEnt { ent_text : list N; label_ : list N }.

(** A geocoder answer: [g.latitude] and [g.longitude], either of which a
    geocoder may leave as [None]. *)
Record Location := mkLocation {
  latitude : option Q;
  longitude : option Q
}.

(** ** Dates

    A [datetime] either knows its UTC offset, and then denotes an instant
    (here in microseconds since 0001-01-01T00:00:00 UTC), or is naive and
    only holds a wall-clock reading. *)
Inductive datetime : Type :=
  | aware (instant : Z)
  | naive (wall : Z).

Definition is_leap (y : Z) : bool :=
  (y mod 4 =? 0) && (negb (y mod 100 =? 0) || (y mod 400 =? 0)).

Definition days_in_month (y m : Z) : Z :=
  if m =? 2 then (if is_leap y then 29 else 28)
  else if (m =? 4) || (m =? 6) || (m =? 9) || (m =? 11) then 30
  else 31.

Definition days_before_year (y : Z) : Z :=
  let p := y - 1 in p * 365 + p / 4 - p / 100 + p / 400.

Definition days_before_month (y m : Z) : Z :=
  foldr Z.add 0 (map (days_in_month y) (seqZ 1 (m - 1))).

(** An integer that fits the C [int] the constructor converts its
    arguments to. *)
Definition is_c_int (x : Z) : bool := (-2147483648 <=? x) && (x <=? 2147483647).

(** [datetime( *args, tzinfo=timezone.utc)] for up to six positional
    integer arguments: year, month, day and, defaulting to 0, hour, minute,
    second. An argument that does not fit a C [int] is an [OverflowError],
    fewer than three arguments a [TypeError], a field out of its range a
    [ValueError]; otherwise the datetime is aware, and the result is its
    instant. *)
Definition utc_datetime (args : list Z) : outcome Z :=
  if negb (forallb is_c_int args) then Raise (Exception "OverflowError") else
  match args with
  | y :: mo :: d :: rest =>
    let h := default 0 (rest !! 0%nat) in
    let mi := default 0 (rest !! 1%nat) in
    let s := default 0 (rest !! 2%nat) in
    if (1 <=? y) && (y <=? 9999) && (1 <=? mo) && (mo <=? 12)
       && (1 <=? d) && (d <=? days_in_month y mo)
       && (0 <=? h) && (h <=? 23) && (0 <=? mi) && (mi <=? 59)
       && (0 <=? s) && (s <=? 59)
    then Val (((((days_before_year y + days_before_month y mo + (d - 1)) * 24 + h) * 60
                + mi) * 60 + s) * 1000000)
    else Raise (Exception "ValueError")
  | _ => Raise (Exception "TypeError")
  end.

(** [a < b] for an aware [a]: comparing it with a naive datetime is a
    [TypeError]. *)
Definition aware_lt (a : Z) (b : datetime) : outcome bool :=
  match b with
  | aware t => Val (a <? t)
  | naive _ => Raise (Exception "TypeError")
  end.

(** Pure functions of the Python libraries: [isoformat] of an aware UTC
    datetime, given by its instant; [datetime.fromisoformat], which returns
    an aware datetime for a string with a UTC offset, a naive one for a
    string without, and raises on any other string; the hexadecimal SHA-1
    digest of a byte string. *)
Class PyLib := {
  isoformat : Z -> list N;
  fromisoformat : list N -> outcome datetime;
  sha1_hexdigest : list N -> list N
}.

(** The outside world [W] (network, clock, language models, file system)
    and the calls the program makes into it. Reading the clock, which gives
    an instant, and sleeping for a positive constant do not fail; every
    other call may raise. [geocode n] is one request that the rate limiter
    lets through: the wait for a free slot, then [geoloc.geocode(n)]. *)
Class Collaborators (W : Type) := {
  feedparser_parse : list N -> M W (list Entry);
  datetime_now_utc : W -> Z * W;
  requests_get_text : list N -> Z -> M W (list N);
  readable_text : list N -> M W (list N);
  spacy_load : list N -> M W (list N -> M W (list Ent));
  detect : list N -> M W (list N);
  geocode : list N -> M W (option Location);
  folium_save : list (list Q) -> list N -> M W unit;
  time_sleep : Q -> W -> W
}.

Section Program.
Context {W : Type} {U : Unicode} {P : PyLib} {HF : HashFamily} {B : Banding} {C : Collaborators W}.

(** *** Time *)

Definition dt_utc : M W (list N) :=
  fun w => let '(now, w') := datetime_now_utc w in (Val (isoformat now), w').

(** *** Feed filter *)

(** [a or b] on optional values. *)
Definition py_or {A} (truthy : A -> bool) (a b : option A) : option A :=
  match a with
  | Some x => if truthy x then a else b
  | None => b
  end.

Definition truthy_opt {A} (truthy : A -> bool) (a : option A) : bool :=
  match a with
  | Some x => truthy x
  | None => false
  end.

(** [since_iso.replace("Z", "+00:00")] *)
Definition replace_Z (s : str) : str :=
  flat_map (fun c => if (c =? 90)%N then py "+00:00" else [c]) s.

(** The body of the loop over [f.entries]: [None] stands for [continue],
    [Some it] for the dictionary appended to [out]. Building [pub_dt] and
    comparing it with [since] may raise. *)
Definition entry_item (since : datetime) (e : Entry) : M W (option Item) :=
  let link := entry_link e in
  let title := strip (default [] (py_or truthy_str (entry_title e) (Some []))) in
  let pub := py_or truthy_list (published_parsed e) (updated_parsed e) in
  if negb (truthy_opt truthy_str link) || negb (truthy_str title) then ret None
  else if truthy_opt truthy_list pub then
    let* pub_dt := lift_outcome (utc_datetime (take 6 (default [] pub))) in
    let* older := lift_outcome (aware_lt pub_dt since) in
    if older then ret None
    else ret (Some (mkItem title (default [] link) (isoformat pub_dt)))
  else
    let* pub_iso := dt_utc in
    ret (Some (mkItem title (default [] link) pub_iso)).

Fixpoint entries_loop (since : datetime) (entries : list Entry) (out : list Item)
  : M W (list Item) :=
  match entries with
  | [] => ret out
  | e :: rest =>
    let* r := entry_item since e in
    entries_loop since rest (match r with Some it => out ++ [it] | None => out end)
  end.

Fixpoint feeds_loop (since : datetime) (urls : list str) (out : list Item)
  : M W (list Item) :=
  match urls with
  | [] => ret out
  | u :: rest =>
    let* f := feedparser_parse u in
    let* out' := entries_loop since f out in
    feeds_loop since rest out'
  end.

Definition fetch_rss_items (urls : list str) (since_iso : str) : M W (list Item) :=
  let* since := lift_outcome (fromisoformat (replace_Z since_iso)) in
  feeds_loop since urls [].

(** *** Text extraction *)

(** [re.sub(r"\s+", " ", text)] *)
Fixpoint collapse_spaces (in_run : bool) (s : str) : str :=
  match s with
  | [] => []
  | c :: s' =>
    if isspace c
    then (if in_run then collapse_spaces true s' else 32%N :: collapse_spaces true s')
    else c :: collapse_spaces false s'
  end.

Definition fetch_clean_text (url : str) : M W str :=
  let* html := requests_get_text url 20 in
  let* text := readable_text html in
  ret (collapse_spaces false text).

(** *** Language models and language detection *)

Definition load_pipelines : M W (gmap (list N) (list N -> M W (list Ent))) :=
  let* en := try_except (spacy_load (py "en_core_web_lg"))
                        (spacy_load (py "xx_ent_wiki_sm")) in
  let nlp := <[py "en" := en]> (∅ : gmap (list N) (list N -> M W (list Ent))) in
  let* pt := try_except (spacy_load (py "pt_core_news_lg"))
                        (spacy_load (py "xx_ent_wiki_sm")) in
  ret (<[py "pt" := pt]> nlp).

Definition lang_of (text : str) : M W str :=
  try_except
    (let* l := detect (take 2000 text) in
     ret (if startswith l (py "pt") then py "pt" else py "en"))
    (ret (py "en")).

(** *** Place extraction *)

Definition is_place_label (l : str) : bool :=
  bool_decide (l = py "GPE") || bool_decide (l = py "LOC").

(** The loop that fills [uniq] and [seen]. *)
Fixpoint uniq_loop (vals : list str) (uniq : list str) (seen : gset (list N))
  : list str :=
  match vals with
  | [] => uniq
  | v :: rest =>
    let k := strip v in
    if truthy_str k && negb (bool_decide (lower k ∈ seen))
    then uniq_loop rest (uniq ++ [k]) ({[lower k]} ∪ seen)
    else uniq_loop rest uniq seen
  end.

Definition extract_places (text : str)
    (nlp : gmap (list N) (list N -> M W (list Ent))) (lang : str) : M W (list str) :=
  match nlp !! lang with
  | None => raise (Exception "KeyError")
  | Some pipeline =>
    let* ents := pipeline text in
    let vals := map ent_text (List.filter (fun ent => is_place_label (label_ ent)) ents) in
    ret (take 5 (uniq_loop vals [] ∅))
  end.

End Program.

(** ** The run

    The state of a run: the outside world, the database file, and the local
    objects of [run_pipeline] that the loop body mutates ([lsh],
    [sig_index], [to_save]). Two ghost fields keep a trace, oldest first:
    [geocoder_calls] has the names handed to [rate], [geocoder_requests]
    the names of the requests that [rate] then made to the geocoder. *)
Record State (W : Type) := mkState {
  world : W;
  db : Database;
  geocoder_calls : list (list N);
  geocoder_requests : list (list N);
  lsh : MinHashLSH;
  sig_index : gmap (list N) MinHash;
  to_save : list Event
}.
Arguments mkState {W}.
Arguments world {W}.
Arguments db {W}.
Arguments geocoder_calls {W}.
Arguments geocoder_requests {W}.
Arguments lsh {W}.
Arguments sig_index {W}.
Arguments to_save {W}.

(** The record [run_pipeline] returns. *)
Record Stats := mkStats {
  stats_inserted : Z;
  stats_points : Z;
  stats_heatmap_file : list N
}.

Section Run.
Context {W : Type} {U : Unicode} {P : PyLib} {HF : HashFamily} {B : Banding} {C : Collaborators W}.

(** A call into the outside world, from a run. *)
Definition ext {A} (c : M W A) : M (State W) A :=
  fun st =>
    let '(o, w') := c (world st) in
    (o, mkState w' (db st) (geocoder_calls st) (geocoder_requests st)
                (lsh st) (sig_index st) (to_save st)).

(** A statement against the database file. *)
Definition on_db {A} (f : Database -> outcome A * Database) : M (State W) A :=
  fun st =>
    let '(o, d') := f (db st) in
    (o, mkState (world st) d' (geocoder_calls st) (geocoder_requests st)
                (lsh st) (sig_index st) (to_save st)).

Definition note_geocoder_call (n : str) : M (State W) unit :=
  fun st =>
    (Val tt, mkState (world st) (db st) (geocoder_calls st ++ [n])
                     (geocoder_requests st) (lsh st) (sig_index st) (to_save st)).

Definition note_geocoder_request (n : str) : M (State W) unit :=
  fun st =>
    (Val tt, mkState (world st) (db st) (geocoder_calls st)
                     (geocoder_requests st ++ [n]) (lsh st) (sig_index st)
                     (to_save st)).

(** *** Geocoding *)

(** The exceptions of [geopy.exc] that derive from [GeocoderServiceError]:
    the ones the rate limiter retries. *)
Definition service_errors : list string :=
  [ "GeocoderServiceError"; "GeocoderQueryError"; "GeocoderQuotaExceeded";
    "GeocoderRateLimited"; "GeocoderAuthenticationFailure";
    "GeocoderInsufficientPrivileges"; "GeocoderTimedOut"; "GeocoderUnavailable";
    "GeocoderParseError" ]%string.

Definition is_service_error (e : exn) : bool :=
  match e with
  | Exception name => bool_decide (name ∈ service_errors)
  | BaseException _ => false
  end.

(** Modelled from the spec: the RateLimiter class of the geopy package is
    not part of the repository. Following section 6 and the arguments at
    line 99, [swallow_exceptions=True] with the defaults [max_retries=2]
    and [error_wait_seconds=5]: a request that raises a service error is
    made again after a wait of five seconds, up to two more times, and
    when the last one fails too the answer is [None]; any other exception
    passes through at once. [retries] is the number of further requests
    still allowed. *)
Fixpoint rate_tries (retries : nat) (n : str) (st : State W)
  : outcome (option Location) * State W :=
  match (let* _ := note_geocoder_request n in ext (geocode n)) st with
  | (Raise e, st1) =>
    if is_service_error e then
      match retries with
      | O => (Val None, st1)
      | S r => rate_tries r n (snd (ext (fun w => (Val tt, time_sleep 5 w)) st1))
      end
    else (Raise e, st1)
  | r => r
  end.

(** [rate(n)] *)
Definition rate (n : str) : M (State W) (option Location) :=
  let* _ := note_geocoder_call n in rate_tries 2 n.

(** Truthiness of a float or [None]: [None] and zero are false. *)
Definition truthy_float (x : option Q) : bool :=
  match x with
  | Some q => negb (Qeq_bool q 0)
  | None => false
  end.

(** [g and g.latitude and g.longitude] *)
Definition resolved (g : option Location) : bool :=
  match g with
  | Some loc => truthy_float (latitude loc) && truthy_float (longitude loc)
  | None => false
  end.

Definition coordinate (x : option Q) : Q := default 0%Q x.

Fixpoint geocode_loop (names : list str) (out : list (Q * Q * list N))
  : M (State W) (list (Q * Q * list N)) :=
  match names with
  | [] => ret out
  | n :: rest =>
    let* g := rate n in
    geocode_loop rest
      (if resolved g
       then out ++ [(coordinate (g ≫= latitude), coordinate (g ≫= longitude), n)]
       else out)
  end.

Definition geocode_places (names : list str) : M (State W) (list (Q * Q * list N)) :=
  geocode_loop names [].

(** *** Heat map *)

Definition build_heatmap (points : list (Q * Q * Z)) (outfile : str) : M W str :=
  let data := map (fun p => [fst (fst p); snd (fst p); inject_Z (snd p)]) points in
  let* _ := folium_save data outfile in
  ret outfile.

(** *** Pipeline *)

(** [items[:n]] *)
Definition slice_to {A} (n : Z) (l : list A) : list A :=
  if 0 <=? n then take (Z.to_nat n) l
  else take (length l - Z.to_nat (- n)) l.

Definition lsh_query_now (sig : MinHash) : M (State W) (list (list N)) :=
  fun st => (Val (lsh_query (lsh st) sig), st).

Definition remember_signature (key : str) (sig : MinHash) : M (State W) unit :=
  fun st =>
    (Val tt, mkState (world st) (db st) (geocoder_calls st) (geocoder_requests st)
                     (lsh_insert (lsh st) key sig) (<[key := sig]> (sig_index st))
                     (to_save st)).

Definition to_save_append (e : Event) : M (State W) unit :=
  fun st =>
    (Val tt, mkState (world st) (db st) (geocoder_calls st) (geocoder_requests st)
                     (lsh st) (sig_index st) (to_save st ++ [e])).

(** The statements under [try] for one item; returning early is
    [continue]. *)
Definition item_steps (nlp : gmap (list N) (list N -> M W (list Ent))) (it : Item)
  : M (State W) unit :=
  let* text := ext (fetch_clean_text (item_link it)) in
  let* lang := ext (lang_of text) in
  let* s := lift_outcome (crime_score text lang) in
  if negb (Qle_bool (6 # 10) s) then ret tt
  else
    let sig := text_signature text in
    let* dup := lsh_query_now sig in
    if truthy_list dup then ret tt
    else
      let* link_bytes := lift_outcome (str_encode (item_link it)) in
      let key := sha1_hexdigest link_bytes in
      let* _ := remember_signature key sig in
      let* places := ext (extract_places text nlp lang) in
      let* geos := geocode_places places in
      match geos with
      | [] => ret tt
      | (lat, lon, place) :: _ =>
        let* created := ext dt_utc in
        let* _ := to_save_append
          (mkEvent (Some (item_link it)) (item_title it) (item_published_at it)
                   lang s lat lon place created) in
        ext (fun w => (Val tt, time_sleep (1 # 2) w))
      end.

(** [try: ...  except Exception: continue] *)
Definition process_item (nlp : gmap (list N) (list N -> M W (list Ent))) (it : Item)
  : M (State W) unit :=
  try_except_Exception (item_steps nlp it) (ret tt).

Definition start_run : M (State W) unit :=
  fun st =>
    (Val tt, mkState (world st) (db st) (geocoder_calls st) (geocoder_requests st)
                     build_lsh ∅ []).

(** What follows the loop. *)
Definition finish_run : M (State W) Stats :=
  fun st =>
    (let rows := to_save st in
     let* _ := if truthy_list rows then on_db (save_events rows) else ret tt in
     let* pts := on_db aggregate in
     let* out := ext (build_heatmap pts (py "heatmap.html")) in
     ret (mkStats (Z.of_nat (length rows)) (Z.of_nat (length pts)) out)) st.

(** What precedes the loop. *)
Definition prepare_run (rss_urls : list str) (since : str) (top_n : Z)
  : M (State W) (gmap (list N) (list N -> M W (list Ent)) * list Item) :=
  let* _ := on_db (fun d => (Val tt, ensure_db d)) in
  let* nlp := ext load_pipelines in
  let* fetched := ext (fetch_rss_items rss_urls since) in
  let* _ := start_run in
  ret (nlp, slice_to top_n fetched).

Definition run_pipeline (rss_urls : list str) (since : str) (top_n : Z)
  : M (State W) Stats :=
  let* p := prepare_run rss_urls since top_n in
  let* _ := for_each (snd p) (process_item (fst p)) in
  finish_run.

End Run.

(** ** A small world to run the program in

    Concrete tables and collaborators, used to evaluate the definitions
    above on examples: a clock that ticks at every reading, pages and
    place names looked up in association lists, a gazetteer in place of
    the language models. *)

Fixpoint assoc {A} (k : str) (l : list (list N * A)) : option A :=
  match l with
  | [] => None
  | (k', a) :: l' => if bool_decide (k = k') then Some a else assoc k l'
  end.

Definition demo_digits (s : str) : outcome Z :=
  foldl (fun acc c =>
           match acc with
           | Val n => if ((48 <=? c) && (c <=? 57))%N
                      then Val (n * 10 + (Z.of_N c - 48))
                      else Raise (Exception "ValueError")
           | Raise e => Raise e
           end) (Val 0) s.

(** [fromisoformat] on strings of the form YYYY-MM-DDTHH:MM:SS, which give
    a naive datetime, and on such strings followed by +00:00, which give an
    aware one. *)
Definition demo_fromisoformat (s : str) : outcome datetime :=
  let field i n := demo_digits (take n (drop i s)) in
  let sep i c := bool_decide (s !! i = Some c) in
  if sep 4%nat 45%N && sep 7%nat 45%N && sep 10%nat 84%N && sep 13%nat 58%N
     && sep 16%nat 58%N && (19 <=? length s)%nat
  then
    match field 0%nat 4%nat, field 5%nat 2%nat, field 8%nat 2%nat,
          field 11%nat 2%nat, field 14%nat 2%nat, field 17%nat 2%nat with
    | Val y, Val mo, Val d, Val h, Val mi, Val sec =>
      match utc_datetime [y; mo; d; h; mi; sec] with
      | Val t =>
        if bool_decide (drop 19 s = []) then Val (naive t)
        else if bool_decide (drop 19 s = py "+00:00") then Val (aware t)
        else Raise (Exception "ValueError")
      | Raise _ => Raise (Exception "ValueError")
      end
    | _, _, _, _, _, _ => Raise (Exception "ValueError")
    end
  else Raise (Exception "ValueError").

Definition demo_pylib : PyLib := {|
  isoformat := fun t => py "T" ++ [Z.to_N t];
  fromisoformat := demo_fromisoformat;
  sha1_hexdigest := fun b => b
|}.

Definition demo_poly (b : list N) : Z :=
  foldl (fun acc c => acc * 257 + Z.of_N c + 1) 0 b.

Definition demo_hash : HashFamily := {|
  max_hash := 2 ^ 32 - 1;
  slot_hash := fun i b =>
    Z.min (2 ^ 32 - 1) ((demo_poly b * (2 * Z.of_nat i + 1) + Z.of_nat i) mod 2 ^ 32);
  slot_hash_le := fun i b => Z.le_min_l _ _
|}.

Definition demo_banding : Banding := {| bands := 8; rows := 16 |}.

Definition demo_pipeline (gazetteer : list Ent) : list N -> M Z (list Ent) :=
  fun text => ret (List.filter (fun e => contains text (ent_text e)) gazetteer).

Definition demo_world
    (feeds : list (list N * list Entry))
    (pages : list (list N * list N))
    (gazetteer : list Ent)
    (places : list (list N * Location)) : Collaborators Z := {|
  feedparser_parse := fun u => ret (default [] (assoc u feeds));
  datetime_now_utc := fun w => (w, w + 1);
  requests_get_text := fun url _ =>
    match assoc url pages with
    | Some html => ret html
    | None => raise (Exception "requests.HTTPError")
    end;
  readable_text := fun html => ret html;
  spacy_load := fun name =>
    if bool_decide (name = py "xx_ent_wiki_sm")
    then ret (demo_pipeline gazetteer)
    else raise (Exception "OSError");
  detect := fun text =>
    match text with
    | [] => raise (Exception "LangDetectException")
    | _ => ret (if contains text (py " de ") then py "pt" else py "en")
    end;
  geocode := fun n => ret (assoc n places);
  folium_save := fun _ _ => ret tt;
  time_sleep := fun seconds w => w + Qfloor (seconds * 1000000)
|}.

Definition demo_state (w : Z) (d : Database) : State Z :=
  mkState w d [] [] build_lsh ∅ [].

(** ** Vocabulary of the statements *)

(** The non-NULL links of a table, in row order. *)
Definition links (t : list StoredEvent) : list (list N) :=
  omap (fun r => ev_link (event r)) t.



(** Slot [i] after feeding [toks] to a signature whose slot held [hv]. *)
Definition slot_after {HF : HashFamily} (i : nat) (hv : Z) (toks : list (list N)) : Z :=
  foldl (fun acc t => Z.min acc (slot_hash i (encode t))) hv toks.

(** Two events at the coordinates of the aggregation example. *)
Definition event_a : Event :=
  mkEvent (Some (py "https://example.org/a")) (py "A") (py "2024-05-01T10:00:00+00:00")
          (py "en") (8 # 10) (123456 # 100000) (987654 # 100000) (py "Somewhere")
          (py "2024-05-02T00:00:00+00:00").

Definition event_b : Event :=
  mkEvent (Some (py "https://example.org/b")) (py "B") (py "2024-05-01T11:00:00+00:00")
          (py "en") (7 # 10) (123449 # 100000) (987649 # 100000) (py "Somewhere")
          (py "2024-05-02T00:00:01+00:00").

(** [x] is within [10^-9] of [d]: a decimal constant and the binary float
    nearest to it are that close. *)
Definition near (x d : Q) : Prop := (d - (1 # 1000000000) <= x <= d + (1 # 1000000000))%Q.

(** An event with the link of [event_a] and other values in every other
    column. *)
Definition event_a_again : Event :=
  mkEvent (Some (py "https://example.org/a")) (py "A, updated")
          (py "2024-06-01T10:00:00+00:00") (py "pt") (9 # 10) (5 # 1) (6 # 1)
          (py "Elsewhere") (py "2024-06-02T00:00:00+00:00").

Section RunVocabulary.
Context {W : Type} {U : Unicode} {P : PyLib} {HF : HashFamily} {B : Banding} {C : Collaborators W}.

(** The answers of the geocoder to [names], asked one after the other. *)
Fixpoint rate_all (names : list str) : M (State W) (list (option Location)) :=
  match names with
  | [] => ret []
  | n :: rest =>
    let* g := rate n in
    let* gs := rate_all rest in
    ret (g :: gs)
  end.

(** The entries [geocode_places] keeps, given the answers. *)
Definition resolved_places (names : list str) (gs : list (option Location))
  : list (Q * Q * list N) :=
  omap (fun p => if resolved (snd p)
                 then Some (coordinate (snd p ≫= latitude),
                            coordinate (snd p ≫= longitude), fst p)
                 else None)
       (zip names gs).

(** Lines 182 to 185 of [run_pipeline] as one step: the first entry of
    [geocode_places(places)], or [None] where the loop says [continue]. *)
Definition select_location (names : list str) : M (State W) (option (Q * Q * list N)) :=
  let* geos := geocode_places names in ret (head geos).

(** Location selection as section 4.4 of the specification words it, to
    compare with the code: ask the geocoder for each candidate in order,
    stop at the first answer whose latitude and longitude are both
    non-null, return it; none when the candidates run out. *)
Definition non_null (g : option Location) : bool :=
  match g with
  | Some loc => bool_decide (is_Some (latitude loc)) && bool_decide (is_Some (longitude loc))
  | None => false
  end.

Fixpoint spec_select_location (names : list str)
  : M (State W) (option (Q * Q * list N)) :=
  match names with
  | [] => ret None
  | n :: rest =>
    let* g := rate n in
    if non_null g
    then ret (Some (coordinate (g ≫= latitude), coordinate (g ≫= longitude), n))
    else spec_select_location rest
  end.

(** A point on the equator or on the prime meridian. *)
Definition on_axis (loc : Location) : Prop :=
  (exists q, latitude loc = Some q /\ (q == 0)%Q) \/
  (exists q, longitude loc = Some q /\ (q == 0)%Q).

(** The names handed to [rate] on the way from [st] to [st']: for the
    processing of one item, the candidate places of that item. *)
Definition asked_between (st st' : State W) : list (list N) :=
  drop (length (geocoder_calls st)) (geocoder_calls st').

(** The names handed to the rate limiter and the requests it made, from
    one state to a later one: each name costs between one and three
    requests. *)
Definition traced (st st' : State W) (asked requests : list (list N)) : Prop :=
  geocoder_calls st' = geocoder_calls st ++ asked /\
  geocoder_requests st' = geocoder_requests st ++ requests /\
  (length asked <= length requests <= 3 * length asked)%nat.

(** Every location the geocoder can answer with for one of [names] lies on
    the equator or on the prime meridian. *)
Definition resolve_on_axes_only (names : list (list N)) : Prop :=
  forall (n : list N) (w : W) (loc : Location) (w' : W),
    n ∈ names -> geocode n w = (Val (Some loc), w') -> on_axis loc.

(** [st'] has the rows to save and the database of [st]. *)
Definition same_saved (st st' : State W) : Prop :=
  to_save st' = to_save st /\ db st' = db st.

(** A computation that leaves the rows to save and the database alone;
    one that leaves them alone whenever it raises. *)
Definition quiet {A} (m : M (State W) A) : Prop :=
  forall st, same_saved st (snd (m st)).

Definition quiet_when_raising {A} (m : M (State W) A) : Prop :=
  forall st e st', m st = (Raise e, st') -> same_saved st st'.

(** A computation that always returns. *)
Definition returns {A} (m : M (State W) A) : Prop :=
  forall st, is_Val (fst (m st)) = true.

End RunVocabulary.

(** Places of the example world. *)
Definition demo_places : list (list N * Location) :=
  [ (py "Lisboa", mkLocation (Some (387 # 10)) (Some (-91 # 10)));
    (py "Porto", mkLocation (Some (411 # 10)) (Some (-86 # 10)));
    (py "Quito", mkLocation (Some 0%Q) (Some (-785 # 10)));
    (py "Greenwich", mkLocation (Some (515 # 10)) (Some 0%Q)) ].

Definition demo_gazetteer : list Ent :=
  [ mkEnt (py "Lisboa") (py "GPE"); mkEnt (py "Porto") (py "GPE");
    mkEnt (py "Quito") (py "GPE"); mkEnt (py "Greenwich") (py "LOC");
    mkEnt (py "Interpol") (py "ORG") ].

Definition demo_collaborators : Collaborators Z :=
  demo_world [] [] demo_gazetteer demo_places.

(** A feed of the example world: a story from Lisboa, a link that cannot be
    fetched, the same story under a second link, a short note without
    keywords, an entry without link, one from 2019, one without date about
    Porto, and one about Quito. *)
Definition demo_story : list N :=
  py "Roubo e furto de joias em Lisboa: a fraude, o sequestro e o tiroteio.".

Definition demo_story_porto : list N :=
  py "Assassinato no Porto: homicídio, extorsão e corrupção depois de um roubo.".

Definition demo_story_quito : list N :=
  py "Murder in Quito: robbery, theft, fraud and arson.".

Definition demo_feed : list Entry :=
  [ mkEntry (Some (py "http://n/1")) (Some (py " Roubo em Lisboa "))
            (Some [2024; 5; 1; 10; 0; 0; 2; 122; 0]) None;
    mkEntry (Some (py "http://n/2")) (Some (py "Em falta"))
            (Some [2024; 5; 1; 11; 0; 0; 2; 122; 0]) None;
    mkEntry (Some (py "http://n/3")) (Some (py "Roubo em Lisboa (agência)"))
            None (Some [2024; 5; 1; 12; 0; 0; 2; 122; 0]);
    mkEntry (Some (py "http://n/4")) (Some (py "Meteorologia"))
            (Some [2024; 5; 1; 13; 0; 0; 2; 122; 0]) None;
    mkEntry None (Some (py "Sem link")) None None;
    mkEntry (Some (py "http://n/6")) (Some (py "Antigo"))
            (Some [2019; 1; 1; 0; 0; 0; 1; 1; 0]) None;
    mkEntry (Some (py "http://n/7")) (Some (py "Porto")) None None;
    mkEntry (Some (py "http://n/8")) (Some (py "Quito"))
            (Some [2024; 5; 2; 9; 0; 0; 3; 123; 0]) None ].

Definition demo_pages : list (list N * list N) :=
  [ (py "http://n/1", demo_story);
    (py "http://n/3", demo_story);
    (py "http://n/4", py "Sol de manhã, chuva de tarde.");
    (py "http://n/6", demo_story);
    (py "http://n/7", demo_story_porto);
    (py "http://n/8", demo_story_quito) ].

Definition demo_news : Collaborators Z :=
  demo_world [(py "feed://n", demo_feed)] demo_pages demo_gazetteer demo_places.

Definition demo_run : outcome Stats * State Z :=
  run_pipeline (U := latin1) (P := demo_pylib) (HF := demo_hash) (B := demo_banding)
    (C := demo_news) [py "feed://n"] (py "2024-01-01T00:00:00+00:00") 300
    (demo_state 1000 None).

Definition demo_item_missing : Item :=
  mkItem (py "Em falta") (py "http://n/2") (py "T").

Definition demo_item_quito : Item :=
  mkItem (py "Quito") (py "http://n/8") (py "T").

(** The publish time of a feed entry, as the arguments the code builds a
    datetime from: the first six fields of [published_parsed], or of
    [updated_parsed] when the former is absent or empty; [None] when the
    entry carries neither. *)
Definition publish_tuple (e : Entry) : option (list Z) :=
  match published_parsed e with
  | Some (x :: p) => Some (take 6 (x :: p))
  | _ =>
    match updated_parsed e with
    | Some (x :: p) => Some (take 6 (x :: p))
    | _ => None
    end
  end.

(** An entry lacks a link, or a title, when the key is absent or holds the
    empty string. *)
Definition lacks (field : option (list N)) : Prop :=
  field = None \/ field = Some [].

(** The entry has a link, and a title that is not empty once stripped. *)
Definition has_link_and_title {U : Unicode} (e : Entry) : bool :=
  truthy_opt truthy_str (entry_link e)
  && truthy_str (strip (default [] (entry_title e))).

(** The time fields of the entry, if any, make a date. *)
Definition well_dated (e : Entry) : Prop :=
  forall args, publish_tuple e = Some args -> is_Val (utc_datetime args) = true.

(** The entries that pass the filter under the cutoff [since]: those with
    a link and a title that carry no publish time, or one that is not
    before the cutoff. *)
Definition kept {U : Unicode} (since : datetime) (e : Entry) : bool :=
  has_link_and_title e &&
  match publish_tuple e with
  | None => true
  | Some args =>
    match utc_datetime args with
    | Val t => match aware_lt t since with Val older => negb older | Raise _ => false end
    | Raise _ => false
    end
  end.

(** The feeds that [feeds_loop] reads, in order: each as the parser
    returned it in the state of the world the loop had reached. *)
Fixpoint feeds_read {W : Type} {U : Unicode} {P : PyLib} {C : Collaborators W}
    (since : datetime) (urls : list (list N)) (out : list Item) (w : W)
  : list (list Entry) :=
  match urls with
  | [] => []
  | u :: rest =>
    match feedparser_parse u w with
    | (Val f, w1) =>
      f :: match entries_loop since f out w1 with
           | (Val out', w2) => feeds_read since rest out' w2
           | _ => []
           end
    | _ => []
    end
  end.

(** [it] is the item made from entry [e] under the cutoff [since]: it has
    the link and the stripped title of [e]; its [published_at] is the
    publish time of [e], which is not before the cutoff, or a reading of
    the clock when [e] carries no publish time. *)
Definition item_from {U : Unicode} {P : PyLib} (since : datetime) (e : Entry) (it : Item)
  : Prop :=
  entry_link e = Some (item_link it) /\ item_link it <> [] /\
  item_title it = strip (default [] (entry_title e)) /\ item_title it <> [] /\
  match publish_tuple e with
  | Some args =>
    exists t, utc_datetime args = Val t /\ aware_lt t since = Val false /\
              item_published_at it = isoformat t
  | None => exists now, item_published_at it = isoformat now
  end.

(** The pipelines [load_pipelines] builds in the example world, where only
    the multilingual model is installed. *)
Definition demo_nlp : gmap (list N) (list N -> M Z (list Ent)) :=
  <[py "pt" := demo_pipeline demo_gazetteer]>
    (<[py "en" := demo_pipeline demo_gazetteer]> ∅).

(** The example world with a geocoder that fails on one name. *)
Definition demo_flaky : Collaborators Z := {|
  feedparser_parse := feedparser_parse (Collaborators := demo_news);
  datetime_now_utc := datetime_now_utc (Collaborators := demo_news);
  requests_get_text := requests_get_text (Collaborators := demo_news);
  readable_text := readable_text (Collaborators := demo_news);
  spacy_load := spacy_load (Collaborators := demo_news);
  detect := detect (Collaborators := demo_news);
  geocode := fun n =>
    if bool_decide (n = py "Atlantis") then raise (Exception "ValueError")
    else geocode (Collaborators := demo_news) n;
  folium_save := folium_save (Collaborators := demo_news);
  time_sleep := time_sleep (Collaborators := demo_news)
|}.

(** [lsh.insert(key, sig)] for each pair of a list, in order. *)
Definition lsh_insert_all (lsh : MinHashLSH) (entries : list (list N * MinHash))
  : MinHashLSH :=
  foldl (fun l e => lsh_insert l (fst e) (snd e)) lsh entries.

(** What a row queued for saving owes to its item: the item's link, title
    and publication date, one of the two language codes, a score that
    passed the gate, and coordinates that are not zero. *)
Definition row_of_item (it : Item) (e : Event) : Prop :=
  ev_link e = Some (item_link it) /\
  ev_title e = item_title it /\
  ev_published_at e = item_published_at it /\
  (ev_lang e = py "pt" \/ ev_lang e = py "en") /\
  (6 # 10 <= ev_score e)%Q /\ (ev_score e <= 1)%Q /\
  ~ (ev_lat e == 0)%Q /\ ~ (ev_lon e == 0)%Q.

(** The two objects that remember signatures during a run. *)
Definition index_of {W : Type} (st : State W) : MinHashLSH * gmap (list N) MinHash :=
  (lsh st, sig_index st).

(** [sig_index] and the index agree: a signature recorded in [sig_index]
    was inserted into the index under the same key, and every key of the
    index has an entry in [sig_index]. *)
Definition index_in_step {W : Type} (st : State W) : Prop :=
  (forall k m, sig_index st !! k = Some m -> (k, m) ∈ inserted (lsh st)) /\
  (forall k m, (k, m) ∈ inserted (lsh st) -> is_Some (sig_index st !! k)).

(** The example world with a second feed that cannot be read. *)
Definition demo_feed_down : Collaborators Z := {|
  feedparser_parse := fun u =>
    if bool_decide (u = py "feed://down") then raise (Exception "URLError")
    else feedparser_parse (Collaborators := demo_news) u;
  datetime_now_utc := datetime_now_utc (Collaborators := demo_news);
  requests_get_text := requests_get_text (Collaborators := demo_news);
  readable_text := readable_text (Collaborators := demo_news);
  spacy_load := spacy_load (Collaborators := demo_news);
  detect := detect (Collaborators := demo_news);
  geocode := geocode (Collaborators := demo_news);
  folium_save := folium_save (Collaborators := demo_news);
  time_sleep := time_sleep (Collaborators := demo_news)
|}.

(** Linear goals over [N] with [/] and [mod] by constants. *)
Ltac solve_div := zify; Z.to_euclidean_division_equations; lia.

(** * Properties *)

(** ** Relevance scorer *)

Lemma CRIME_KEYWORDS_dom (lang : str) :
  is_Some (CRIME_KEYWORDS !! lang) <-> lang = py "pt" \/ lang = py "en".
Proof.
  unfold CRIME_KEYWORDS. cbn [list_to_map foldr fst snd]. split.
  - intros [kws Hk].
    destruct (decide (lang = py "pt")) as [->|Hpt]; [by left|].
    destruct (decide (lang = py "en")) as [->|Hen]; [by right|].
    rewrite !lookup_insert_ne in Hk by done. by rewrite lookup_empty in Hk.
  - intros [-> | ->]; vm_compute; eauto.
Qed.

Lemma inject_nat_nonneg (n : nat) : (0 <= inject_Z (Z.of_nat n))%Q.
Proof. change 0%Q with (inject_Z 0). rewrite <- Zle_Qle. lia. Qed.

Lemma Qdiv_nonneg (x d : Q) : (0 <= x)%Q -> (0 < d)%Q -> (0 <= x / d)%Q.
Proof. intros Hx Hd. apply Qle_shift_div_l; [done|]. by rewrite Qmult_0_l. Qed.

Lemma score_of_range (hits : nat) (n : Z) :
  0 <= n -> (0 <= score_of hits n <= 1)%Q.
Proof.
  intros Hn. unfold score_of.
  assert (Hh : (0 <= inject_Z (Z.of_nat hits) / 5)%Q).
  { apply Qdiv_nonneg; [apply inject_nat_nonneg | reflexivity]. }
  assert (Hl : (0 <= inject_Z n / 2000)%Q).
  { apply Qdiv_nonneg; [|reflexivity].
    change 0%Q with (inject_Z 0). by rewrite <- Zle_Qle. }
  revert Hh Hl.
  generalize (inject_Z (Z.of_nat hits) / 5)%Q (inject_Z n / 2000)%Q.
  intros a b Ha Hb.
  destruct (Q.min_spec a 1) as [[? ->]|[? ->]];
  destruct (Q.min_spec b 1) as [[? ->]|[? ->]]; split; lra.
Qed.

Lemma score_of_mono (h1 h2 : nat) (n1 n2 : Z) :
  (h1 <= h2)%nat -> n1 <= n2 -> (score_of h1 n1 <= score_of h2 n2)%Q.
Proof.
  intros Hh Hn. unfold score_of.
  apply Qplus_le_compat; (apply Qmult_le_compat_r; [|discriminate]);
    (apply Q.min_le_compat; [|apply Qle_refl]);
    (apply Qmult_le_compat_r; [|discriminate]);
    rewrite <- Zle_Qle; lia.
Qed.

Lemma no_hits_in_empty_text (lang : str) (kws : list (list N)) :
  CRIME_KEYWORDS !! lang = Some kws -> hits_of kws [] = 0%nat.
Proof.
  intros Hk.
  assert (Hl : is_Some (CRIME_KEYWORDS !! lang)) by eauto.
  apply CRIME_KEYWORDS_dom in Hl as [-> | ->];
    vm_compute in Hk; injection Hk as <-; reflexivity.
Qed.

Section ScorerFacts.
Context {U : Unicode}.

(** C4. For every text and each of the two supported language codes,
    [crime_score] returns a value, and that value lies between 0 and 1;
    on the empty text (which [lower] leaves empty) the value is 0. *)
Theorem crime_score_unit_interval (text lang : str) :
  lower [] = [] ->
  lang = py "pt" \/ lang = py "en" ->
  (exists s, crime_score text lang = Val s /\ (0 <= s <= 1)%Q) /\
  (exists z, crime_score [] lang = Val z /\ (z == 0)%Q).
Proof.
  intros Hlow Hlang.
  apply CRIME_KEYWORDS_dom in Hlang as [kws Hk].
  unfold crime_score. rewrite Hk, Hlow. split.
  - eexists. split; [reflexivity|]. apply score_of_range. unfold len. lia.
  - eexists. split; [reflexivity|].
    rewrite (no_hits_in_empty_text lang kws Hk). reflexivity.
Qed.

(** C7. For a fixed language with keyword list [kws], a text that matches
    at least as many keywords as another and is at least as long gets a
    score that is at least the other's. *)
Theorem crime_score_monotone (lang t1 t2 : str) (kws : list (list N)) :
  CRIME_KEYWORDS !! lang = Some kws ->
  (hits_of kws (lower t1) <= hits_of kws (lower t2))%nat ->
  len t1 <= len t2 ->
  exists s1 s2,
    crime_score t1 lang = Val s1 /\ crime_score t2 lang = Val s2 /\ (s1 <= s2)%Q.
Proof.
  intros Hk Hhits Hlen. unfold crime_score. rewrite Hk.
  do 2 eexists. repeat split. by apply score_of_mono.
Qed.

End ScorerFacts.

Lemma crime_score_unit_interval_witness :
  (exists s, crime_score (U := latin1) (py "Murder and ARSON after a robbery") (py "en") = Val s
             /\ (0 <= s <= 1)%Q) /\
  (exists z, crime_score (U := latin1) [] (py "en") = Val z /\ (z == 0)%Q).
Proof.
  apply (crime_score_unit_interval (U := latin1)); [reflexivity | right; reflexivity].
Defined.

Lemma crime_score_monotone_witness :
  exists s1 s2,
    crime_score (U := latin1) (py "a theft") (py "en") = Val s1 /\
    crime_score (U := latin1) (py "Theft, then ARSON") (py "en") = Val s2 /\
    (s1 <= s2)%Q.
Proof.
  apply (crime_score_monotone (U := latin1) (py "en") (py "a theft") (py "Theft, then ARSON")
           (map py ["homicide"; "murder"; "robbery"; "theft"; "trafficking"; "assault";
                    "kidnapping"; "extortion"; "rape"; "felony"; "corruption"; "fraud";
                    "organized crime"; "shooting"; "arson"])).
  - vm_compute. reflexivity.
  - vm_compute. lia.
  - vm_compute. discriminate.
Defined.

(** ** Spatial aggregator *)

Lemma round_half_away_between (x : Q) (n : Z) :
  0 < n ->
  (inject_Z n - (1 # 2) <= x)%Q -> (x < inject_Z n + (1 # 2))%Q ->
  round_half_away x = n.
Proof.
  intros Hn Hlo Hhi. unfold round_half_away.
  assert (Hx : (0 <= x)%Q).
  { assert (1 <= inject_Z n)%Q by (change 1%Q with (inject_Z 1); rewrite <- Zle_Qle; lia).
    lra. }
  apply Qle_bool_iff in Hx. rewrite Hx.
  assert (H1 : (inject_Z n <= x + (1 # 2))%Q) by lra.
  assert (H2 : (x + (1 # 2) < inject_Z (n + 1))%Q).
  { rewrite inject_Z_plus. change (inject_Z 1) with 1%Q. lra. }
  apply Qfloor_resp_le in H1. rewrite Qfloor_Z in H1.
  assert (H3 : Qfloor (x + (1 # 2)) < n + 1).
  { rewrite Zlt_Qlt. eapply Qle_lt_trans; [apply Qfloor_le|exact H2]. }
  lia.
Qed.

Lemma sql_round_3_between (x : Q) (n : Z) :
  0 < n ->
  (inject_Z n - (1 # 2) <= x * 1000)%Q -> (x * 1000 < inject_Z n + (1 # 2))%Q ->
  sql_round x 3 = (n # 1000)%Q.
Proof.
  intros Hn Hlo Hhi. unfold sql_round.
  change (inject_Z (10 ^ Z.of_nat 3)) with 1000%Q.
  change (Z.to_pos (10 ^ Z.of_nat 3)) with 1000%positive.
  by rewrite (round_half_away_between _ n).
Qed.

(** C1, as amended. Two events stored at (1.23456, 9.87654) and
    (1.23449, 9.87649), each coordinate taken up to the error of its binary
    representation, are rounded to three decimals into the two different
    buckets (1.235, 9.877) and (1.234, 9.876); a table holding exactly
    these two events aggregates to two points of count 1 each, in whatever
    order the groups come. *)
Theorem aggregate_example_two_buckets (e1 e2 : Event) (id1 id2 : Z) (d : Database) :
  near (ev_lat e1) (123456 # 100000) -> near (ev_lon e1) (987654 # 100000) ->
  near (ev_lat e2) (123449 # 100000) -> near (ev_lon e2) (987649 # 100000) ->
  d = Some [mkStored id1 e1; mkStored id2 e2] ->
  bucket e1 = ((1235 # 1000)%Q, (9877 # 1000)%Q) /\
  bucket e2 = ((1234 # 1000)%Q, (9876 # 1000)%Q) /\
  same_bucket (bucket e1) (bucket e2) = false /\
  exists pts,
    aggregate d = (Val pts, d) /\
    pts ≡ₚ [((1235 # 1000)%Q, (9877 # 1000)%Q, 1); ((1234 # 1000)%Q, (9876 # 1000)%Q, 1)].
Proof.
  unfold near. intros [? ?] [? ?] [? ?] [? ?] ->.
  assert (Hb1 : bucket e1 = ((1235 # 1000)%Q, (9877 # 1000)%Q)).
  { unfold bucket. f_equal; apply sql_round_3_between; try lia;
      change (inject_Z ?z) with (z # 1)%Q; lra. }
  assert (Hb2 : bucket e2 = ((1234 # 1000)%Q, (9876 # 1000)%Q)).
  { unfold bucket. f_equal; apply sql_round_3_between; try lia;
      change (inject_Z ?z) with (z # 1)%Q; lra. }
  split; [done|]. split; [done|]. split.
  - rewrite Hb1, Hb2. reflexivity.
  - eexists. split; [|reflexivity].
    unfold aggregate, group_count. cbn [foldl event].
    rewrite Hb1, Hb2. reflexivity.
Qed.

Lemma aggregate_example_two_buckets_witness :
  bucket event_a = ((1235 # 1000)%Q, (9877 # 1000)%Q) /\
  bucket event_b = ((1234 # 1000)%Q, (9876 # 1000)%Q) /\
  same_bucket (bucket event_a) (bucket event_b) = false /\
  exists pts,
    aggregate (Some [mkStored 1 event_a; mkStored 2 event_b])
    = (Val pts, Some [mkStored 1 event_a; mkStored 2 event_b]) /\
    pts ≡ₚ [((1235 # 1000)%Q, (9877 # 1000)%Q, 1); ((1234 # 1000)%Q, (9876 # 1000)%Q, 1)].
Proof.
  apply (aggregate_example_two_buckets event_a event_b 1 2);
    [split; vm_compute; discriminate .. | reflexivity].
Defined.

(** C1 as stated fails: the two events of the example do not fall into one
    bucket, and the table holding them does not aggregate to a single
    point of count 2. *)
Lemma aggregate_example_not_one_bucket :
  same_bucket (bucket event_a) (bucket event_b) <> true /\
  ~ (exists k, fst (aggregate (Some [mkStored 1 event_a; mkStored 2 event_b]))
               = Val [(k, 2)]).
Proof.
  split.
  - vm_compute. discriminate.
  - intros [k Hk]. vm_compute in Hk. discriminate.
Qed.

(** ** Event store *)

Lemma links_app (t1 t2 : list StoredEvent) : links (t1 ++ t2) = links t1 ++ links t2.
Proof. unfold links. apply omap_app. Qed.

Lemma link_conflict_spec (l : list N) (t : list StoredEvent) :
  link_conflict (Some l) t = true <-> l ∈ links t.
Proof.
  unfold link_conflict, links. rewrite existsb_exists, list_elem_of_omap.
  split.
  - intros (r & Hin & Hr). apply bool_decide_eq_true in Hr.
    exists r. split; [by apply list_elem_of_In|done].
  - intros (r & Hin & Hr). exists r.
    split; [by apply list_elem_of_In|by apply bool_decide_eq_true].
Qed.












Example save_events_same_link :
  save_events [event_a; event_a_again; event_b] (Some [])
  = (Val tt, Some [mkStored 1 event_a; mkStored 2 event_b]).
Proof. vm_compute. reflexivity. Qed.

(** ** Geocoding *)

Section GeocodingFacts.
Context {W : Type} {U : Unicode} {P : PyLib} {HF : HashFamily} {B : Banding} {C : Collaborators W}.

Lemma resolved_places_cons (n : list N) (names : list (list N))
    (g : option Location) (gs : list (option Location)) :
  resolved_places (n :: names) (g :: gs)
  = (if resolved g
     then [(coordinate (g ≫= latitude), coordinate (g ≫= longitude), n)]
     else []) ++ resolved_places names gs.
Proof. unfold resolved_places. cbn. by destruct (resolved g). Qed.

Lemma geocode_loop_rate_all (names : list (list N)) (out : list (Q * Q * list N))
    (st : State W) :
  geocode_loop names out st
  = match rate_all names st with
    | (Val gs, st') => (Val (out ++ resolved_places names gs), st')
    | (Raise e, st') => (Raise e, st')
    end.
Proof.
  revert out st. induction names as [|n names IH]; intros out st.
  - cbn. unfold ret. by rewrite app_nil_r.
  - cbn [geocode_loop rate_all]. unfold bind.
    destruct (rate n st) as [[g|e] st1]; [|done].
    rewrite IH.
    destruct (rate_all names st1) as [[gs|e] st2]; [|done].
    unfold ret. rewrite resolved_places_cons.
    destruct (resolved g); by rewrite <- ?app_assoc.
Qed.

(** What the rate limiter does to the state, whatever the geocoder does:
    it makes between one and [retries + 1] requests for the name, and
    touches nothing else but the outside world. *)
Lemma rate_tries_frame (r : nat) (n : list N) (st : State W) :
  geocoder_calls (snd (rate_tries r n st)) = geocoder_calls st /\
  db (snd (rate_tries r n st)) = db st /\
  lsh (snd (rate_tries r n st)) = lsh st /\
  sig_index (snd (rate_tries r n st)) = sig_index st /\
  to_save (snd (rate_tries r n st)) = to_save st /\
  exists k, (1 <= k <= S r)%nat /\
    geocoder_requests (snd (rate_tries r n st))
    = geocoder_requests st ++ replicate k n.
Proof.
  revert st. induction r as [|r IH]; intros st; cbn [rate_tries];
    unfold bind, note_geocoder_request, ext;
    cbn [world db geocoder_calls geocoder_requests lsh sig_index to_save];
    destruct (geocode n (world st)) as [[g|e] w1];
    try (repeat (split; [done|]); exists 1%nat; split; [lia|done]);
    destruct (is_service_error e);
    try (repeat (split; [done|]); exists 1%nat; split; [lia|done]).
  match goal with |- context [rate_tries r n ?s] =>
    destruct (IH s) as (H1 & H2 & H3 & H4 & H5 & k & Hk & H6) end.
  cbn [world db geocoder_calls geocoder_requests lsh sig_index to_save snd] in *.
  repeat (split; [done|]). exists (S k). split; [lia|].
  rewrite H6, <- app_assoc. done.
Qed.

Lemma rate_frame (n : list N) (st : State W) :
  geocoder_calls (snd (rate n st)) = geocoder_calls st ++ [n] /\
  db (snd (rate n st)) = db st /\
  lsh (snd (rate n st)) = lsh st /\
  sig_index (snd (rate n st)) = sig_index st /\
  to_save (snd (rate n st)) = to_save st /\
  exists k, (1 <= k <= 3)%nat /\
    geocoder_requests (snd (rate n st)) = geocoder_requests st ++ replicate k n.
Proof.
  unfold rate, bind, note_geocoder_call.
  match goal with |- context [rate_tries 2 n ?s] =>
    destruct (rate_tries_frame 2 n s) as (H1 & H2 & H3 & H4 & H5 & k & Hk & H6);
    destruct (rate_tries 2 n s) as [[g|e] s1] end;
    cbn [world db geocoder_calls geocoder_requests lsh sig_index to_save snd] in *;
    repeat (split; [done|]); by exists k.
Qed.

Lemma rate_calls (n : list N) (st : State W) :
  geocoder_calls (snd (rate n st)) = geocoder_calls st ++ [n].
Proof. apply rate_frame. Qed.

(** Where an answer of [rate], or an exception, comes from. *)
Lemma rate_tries_outcome (r : nat) (n : list N) (st st' : State W)
    (o : outcome (option Location)) :
  rate_tries r n st = (o, st') ->
  match o with
  | Val (Some loc) => exists w w', geocode n w = (Val (Some loc), w')
  | Val None => True
  | Raise e => is_service_error e = false /\ exists w w', geocode n w = (Raise e, w')
  end.
Proof.
  revert st. induction r as [|r IH]; intros st; cbn [rate_tries];
    unfold bind, note_geocoder_request, ext; cbn [world];
    destruct (geocode n (world st)) as [[g|e] w1] eqn:Hg.
  - intros [= <- _]. destruct g; [|done]. by exists (world st), w1.
  - destruct (is_service_error e) eqn:He.
    + by intros [= <- _].
    + intros [= <- _]. split; [done|]. by exists (world st), w1.
  - intros [= <- _]. destruct g; [|done]. by exists (world st), w1.
  - destruct (is_service_error e) eqn:He.
    + apply IH.
    + intros [= <- _]. split; [done|]. by exists (world st), w1.
Qed.

Lemma rate_outcome (n : list N) (st st' : State W) (o : outcome (option Location)) :
  rate n st = (o, st') ->
  match o with
  | Val (Some loc) => exists w w', geocode n w = (Val (Some loc), w')
  | Val None => True
  | Raise e => is_service_error e = false /\ exists w w', geocode n w = (Raise e, w')
  end.
Proof. unfold rate, bind, note_geocoder_call. apply rate_tries_outcome. Qed.

(** A request that is answered at once is the only one made. *)
Lemma rate_first_answer (n : list N) (st : State W) (g : option Location) (w' : W) :
  geocode n (world st) = (Val g, w') ->
  rate n st
  = (Val g, mkState w' (db st) (geocoder_calls st ++ [n]) (geocoder_requests st ++ [n])
                    (lsh st) (sig_index st) (to_save st)).
Proof.
  intros Hg. unfold rate, bind, note_geocoder_call. cbn [rate_tries].
  unfold bind, note_geocoder_request, ext. cbn [world]. by rewrite Hg.
Qed.

Lemma rate_all_calls (names : list (list N)) (st st' : State W)
    (gs : list (option Location)) :
  rate_all names st = (Val gs, st') ->
  geocoder_calls st' = geocoder_calls st ++ names /\ length gs = length names.
Proof.
  revert st st' gs. induction names as [|n names IH]; intros st st' gs.
  - cbn. unfold ret. intros [= <- <-]. by rewrite app_nil_r.
  - cbn [rate_all]. unfold bind.
    pose proof (rate_calls n st) as Hc.
    destruct (rate n st) as [[g|e] st1]; [|done]. cbn in Hc.
    destruct (rate_all names st1) as [[gs1|e] st2] eqn:Hall; [|done].
    unfold ret. intros [= <- <-].
    destruct (IH _ _ _ Hall) as [-> Hlen]. cbn [length].
    by rewrite Hlen, Hc, <- app_assoc.
Qed.

Lemma rate_all_requests (names : list (list N)) (st : State W) :
  (forall n w, n ∈ names -> is_Val (fst (geocode n w)) = true) ->
  geocoder_requests (snd (rate_all names st)) = geocoder_requests st ++ names.
Proof.
  revert st. induction names as [|n names IH]; intros st Hok; cbn [rate_all].
  - cbn. by rewrite app_nil_r.
  - unfold bind.
    pose proof (Hok n (world st) ltac:(left)) as Hn.
    destruct (geocode n (world st)) as [[g|e] w'] eqn:Hg; [|done].
    rewrite (rate_first_answer _ _ _ _ Hg).
    match goal with |- context [rate_all names ?s] =>
      pose proof (IH s (fun m w Hm => Hok m w ltac:(by right))) as Hrest;
      destruct (rate_all names s) as [[gs|e] s2] end;
      unfold ret; cbn [snd geocoder_requests] in *; by rewrite Hrest, <- app_assoc.
Qed.

End GeocodingFacts.

Section SelectionFacts.
Context {W : Type} {C : Collaborators W}.

Lemma head_resolved_places_none (names : list (list N)) (gs : list (option Location)) :
  Forall (fun g => resolved g = false) gs -> head (resolved_places names gs) = None.
Proof.
  revert gs. induction names as [|n names IH]; intros gs Hall; [done|].
  destruct gs as [|g gs]; [done|].
  apply Forall_cons in Hall as [Hg Hall].
  rewrite resolved_places_cons, Hg. cbn. by apply IH.
Qed.

Lemma head_resolved_places_first (names : list (list N)) (gs : list (option Location))
    (i : nat) (n : list N) (g : option Location) :
  names !! i = Some n -> gs !! i = Some g -> resolved g = true ->
  (forall j g', (j < i)%nat -> gs !! j = Some g' -> resolved g' = false) ->
  head (resolved_places names gs)
  = Some (coordinate (g ≫= latitude), coordinate (g ≫= longitude), n).
Proof.
  revert gs i. induction names as [|n0 names IH]; intros gs i Hn Hg Hres Hbefore; [done|].
  destruct gs as [|g0 gs]; [done|]. rewrite resolved_places_cons.
  destruct i as [|i].
  - cbn in Hn, Hg. injection Hn as ->. injection Hg as ->. by rewrite Hres.
  - rewrite (Hbefore 0%nat g0) by (done || lia). cbn [app].
    apply (IH gs i); try done.
    intros j g' Hj Hg'. apply (Hbefore (S j) g'); [lia|done].
Qed.

(** C2, as amended. When no geocoder call raises, [geocode_places] hands
    every candidate name to the geocoder exactly once, in order, and does
    not stop at the first hit; the location selected is the first entry of
    its result, which is the (latitude, longitude, name) of the first
    candidate whose answer has a latitude and a longitude that are neither
    null nor zero; nothing is selected when no candidate has such an
    answer. The names go through the rate limiter, once each whenever
    [geocode_places] returns; the requests it makes are one per name when
    none of them raises. *)
Theorem select_location_first_resolved (names : list (list N)) (st st' : State W)
    (gs : list (option Location)) :
  rate_all names st = (Val gs, st') ->
  geocoder_calls st' = geocoder_calls st ++ names /\
  length gs = length names /\
  geocode_places names st = (Val (resolved_places names gs), st') /\
  select_location names st = (Val (head (resolved_places names gs)), st') /\
  (Forall (fun g => resolved g = false) gs -> head (resolved_places names gs) = None) /\
  (forall i n g,
     names !! i = Some n -> gs !! i = Some g -> resolved g = true ->
     (forall j g', (j < i)%nat -> gs !! j = Some g' -> resolved g' = false) ->
     head (resolved_places names gs)
     = Some (coordinate (g ≫= latitude), coordinate (g ≫= longitude), n)) /\
  ((forall n w, n ∈ names -> is_Val (fst (geocode n w)) = true) ->
   geocoder_requests st' = geocoder_requests st ++ names).
Proof.
  intros Hall.
  destruct (rate_all_calls _ _ _ _ Hall) as [Hcalls Hlen].
  assert (Hplaces : geocode_places names st = (Val (resolved_places names gs), st')).
  { unfold geocode_places. by rewrite geocode_loop_rate_all, Hall. }
  split; [done|]. split; [done|]. split; [done|]. split; [|split; [|split]].
  - unfold select_location, bind. by rewrite Hplaces.
  - apply head_resolved_places_none.
  - intros i n g. apply head_resolved_places_first.
  - intros Hok. pose proof (rate_all_requests names st Hok) as Hreq.
    by rewrite Hall in Hreq.
Qed.

End SelectionFacts.

Lemma select_location_first_resolved_witness :
  let names := [py "Quito"; py "Atlantis"; py "Lisboa"; py "Porto"] in
  let gs := [Some (mkLocation (Some 0%Q) (Some (-785 # 10)%Q)); None;
             Some (mkLocation (Some (387 # 10)%Q) (Some (-91 # 10)%Q));
             Some (mkLocation (Some (411 # 10)%Q) (Some (-86 # 10)%Q))] in
  let st := demo_state 0 None in
  let st' := mkState 0 None names names build_lsh ∅ [] in
  geocoder_calls st' = geocoder_calls st ++ names /\
  length gs = length names /\
  geocode_places (C := demo_collaborators) names st
    = (Val (resolved_places names gs), st') /\
  select_location (C := demo_collaborators) names st
    = (Val (head (resolved_places names gs)), st') /\
  (Forall (fun g => resolved g = false) gs -> head (resolved_places names gs) = None) /\
  (forall i n g,
     names !! i = Some n -> gs !! i = Some g -> resolved g = true ->
     (forall j g', (j < i)%nat -> gs !! j = Some g' -> resolved g' = false) ->
     head (resolved_places names gs)
     = Some (coordinate (g ≫= latitude), coordinate (g ≫= longitude), n)) /\
  ((forall n w, n ∈ names ->
      is_Val (fst (geocode (Collaborators := demo_collaborators) n w)) = true) ->
   geocoder_requests st' = geocoder_requests st ++ names).
Proof.
  intros names gs st st'.
  apply (select_location_first_resolved (C := demo_collaborators) names st st' gs).
  reflexivity.
Defined.

Example select_location_skips_zero_latitude :
  fst (select_location (C := demo_collaborators)
         [py "Quito"; py "Atlantis"; py "Lisboa"; py "Porto"] (demo_state 0 None))
  = Val (Some ((387 # 10)%Q, (-91 # 10)%Q, py "Lisboa")).
Proof. reflexivity. Qed.

(** C2 as stated fails: the code and the selection the claim describes do
    not agree on every input. With Lisboa and Porto both known to the
    geocoder, the claim's selection asks for Lisboa only, the code for
    both. *)
Lemma select_location_not_first_match_only :
  ~ (forall (W : Type) (C : Collaborators W) (names : list (list N)) (st : State W),
       select_location names st = spec_select_location names st).
Proof.
  intros Hsame.
  specialize (Hsame Z demo_collaborators [py "Lisboa"; py "Porto"] (demo_state 0 None)).
  apply (f_equal (fun r => length (geocoder_calls (snd r)))) in Hsame.
  vm_compute in Hsame. discriminate.
Qed.

Example spec_selection_takes_zero_latitude :
  fst (spec_select_location (C := demo_collaborators)
         [py "Quito"; py "Lisboa"] (demo_state 0 None))
  = Val (Some (0%Q, (-785 # 10)%Q, py "Quito")) /\
  fst (select_location (C := demo_collaborators)
         [py "Quito"; py "Lisboa"] (demo_state 0 None))
  = Val (Some ((387 # 10)%Q, (-91 # 10)%Q, py "Lisboa")).
Proof. split; reflexivity. Qed.

(** ** The run loop *)

Section RunFacts.
Context {W : Type} {U : Unicode} {P : PyLib} {HF : HashFamily} {B : Banding}
        {C : Collaborators W}.

Lemma same_saved_refl (st : State W) : same_saved st st.
Proof. by split. Qed.

Lemma same_saved_trans (s1 s2 s3 : State W) :
  same_saved s1 s2 -> same_saved s2 s3 -> same_saved s1 s3.
Proof. intros [? ?] [? ?]. split; congruence. Qed.

Lemma quiet_ret {A} (a : A) : quiet (W := W) (ret a).
Proof. intros st. apply same_saved_refl. Qed.

Lemma quiet_raise {A} (e : exn) : quiet (W := W) (A := A) (raise e).
Proof. intros st. apply same_saved_refl. Qed.

Lemma quiet_lift_outcome {A} (o : outcome A) : quiet (W := W) (lift_outcome o).
Proof. intros st. apply same_saved_refl. Qed.

Lemma quiet_ext {A} (c : M W A) : quiet (ext c).
Proof. intros st. unfold ext. by destruct (c (world st)). Qed.

Lemma quiet_lsh_query_now (sig : MinHash) : quiet (W := W) (lsh_query_now sig).
Proof. intros st. apply same_saved_refl. Qed.

Lemma quiet_remember_signature (key : list N) (sig : MinHash) :
  quiet (W := W) (remember_signature key sig).
Proof. by intros st. Qed.

Lemma quiet_bind_val {A B'} (m : M (State W) A) (k : A -> M (State W) B') :
  quiet m ->
  (forall a st st', m st = (Val a, st') -> same_saved st' (snd (k a st'))) ->
  quiet (bind m k).
Proof.
  intros Hm Hk st. unfold bind. specialize (Hm st).
  destruct (m st) as [[a|e] st'] eqn:Hr; cbn in Hm; [|done].
  eapply same_saved_trans; [exact Hm|]. by eapply Hk.
Qed.

Lemma quiet_bind {A B'} (m : M (State W) A) (k : A -> M (State W) B') :
  quiet m -> (forall a, quiet (k a)) -> quiet (bind m k).
Proof. intros Hm Hk. apply quiet_bind_val; [done|]. intros a st st' _. apply Hk. Qed.

Lemma quiet_rate (n : list N) : quiet (rate n).
Proof.
  intros st. destruct (rate_frame n st) as (_ & Hdb & _ & _ & Hsave & _). by split.
Qed.

Lemma quiet_geocode_loop (names : list (list N)) (out : list (Q * Q * list N)) :
  quiet (geocode_loop names out).
Proof.
  revert out. induction names as [|n names IH]; intros out; cbn [geocode_loop].
  - apply quiet_ret.
  - apply quiet_bind; [apply quiet_rate|]. intros g. apply IH.
Qed.

Lemma quiet_geocode_places (names : list (list N)) : quiet (geocode_places names).
Proof. apply quiet_geocode_loop. Qed.

Lemma quiet_when_raising_of_quiet {A} (m : M (State W) A) :
  quiet m -> quiet_when_raising m.
Proof. intros Hm st e st' Hr. specialize (Hm st). by rewrite Hr in Hm. Qed.

Lemma quiet_when_raising_of_returns {A} (m : M (State W) A) :
  returns m -> quiet_when_raising m.
Proof. intros Hm st e st' Hr. specialize (Hm st). by rewrite Hr in Hm. Qed.

Lemma quiet_when_raising_bind {A B'} (m : M (State W) A) (k : A -> M (State W) B') :
  quiet m -> (forall a, quiet_when_raising (k a)) -> quiet_when_raising (bind m k).
Proof.
  intros Hm Hk st e st' Hr. unfold bind in Hr. specialize (Hm st).
  destruct (m st) as [[a|e0] s1] eqn:Hms; cbn in Hm.
  - eapply same_saved_trans; [exact Hm|]. by eapply Hk.
  - by injection Hr as <- <-.
Qed.

Lemma returns_ext_total {A} (f : W -> A * W) :
  returns (ext (fun w => let '(a, w') := f w in (Val a, w'))).
Proof. intros st. unfold ext. by destruct (f (world st)). Qed.

Lemma returns_bind {A B'} (m : M (State W) A) (k : A -> M (State W) B') :
  returns m -> (forall a, returns (k a)) -> returns (bind m k).
Proof.
  intros Hm Hk st. unfold bind. specialize (Hm st).
  destruct (m st) as [[a|e] s1]; [apply Hk|done].
Qed.

(** Once the geocoder has given a place, nothing fails: the clock is read,
    the row is appended, the run sleeps. *)
Lemma item_tail_returns (it : Item) (lang : list N) (s lat lon : Q) (place : list N) :
  returns
    (let* created := ext dt_utc in
     let* _ := to_save_append
       (mkEvent (Some (item_link it)) (item_title it) (item_published_at it)
                lang s lat lon place created) in
     ext (fun w => (Val tt, time_sleep (1 # 2) w))).
Proof.
  apply returns_bind.
  - intros st. unfold ext, dt_utc. by destruct (datetime_now_utc (world st)).
  - intros created. apply returns_bind; [by intros st|]. by intros _ st.
Qed.

Lemma item_steps_quiet_when_raising
    (nlp : gmap (list N) (list N -> M W (list Ent))) (it : Item) :
  quiet_when_raising (item_steps nlp it).
Proof.
  unfold item_steps.
  apply quiet_when_raising_bind; [apply quiet_ext|]. intros text.
  apply quiet_when_raising_bind; [apply quiet_ext|]. intros lang.
  apply quiet_when_raising_bind; [apply quiet_lift_outcome|]. intros s.
  destruct (negb (Qle_bool (6 # 10) s)).
  { apply quiet_when_raising_of_quiet, quiet_ret. }
  apply quiet_when_raising_bind; [apply quiet_lsh_query_now|]. intros dup.
  destruct (truthy_list dup).
  { apply quiet_when_raising_of_quiet, quiet_ret. }
  apply quiet_when_raising_bind; [apply quiet_lift_outcome|]. intros link_bytes.
  apply quiet_when_raising_bind; [apply quiet_remember_signature|]. intros _.
  apply quiet_when_raising_bind; [apply quiet_ext|]. intros places.
  apply quiet_when_raising_bind; [apply quiet_geocode_places|]. intros geos.
  destruct geos as [|[[lat lon] place] geos'].
  - apply quiet_when_raising_of_quiet, quiet_ret.
  - apply quiet_when_raising_of_returns, item_tail_returns.
Qed.

Lemma process_item_no_Exception
    (nlp : gmap (list N) (list N -> M W (list Ent))) (it : Item)
    (st st' : State W) (e : string) :
  process_item nlp it st <> (Raise (Exception e), st').
Proof.
  unfold process_item, try_except_Exception, ret.
  destruct (item_steps nlp it st) as [[[]|[e0|e0]] s1]; congruence.
Qed.

Lemma loop_no_Exception
    (nlp : gmap (list N) (list N -> M W (list Ent))) (items : list Item)
    (st st' : State W) (e : string) :
  for_each items (process_item nlp) st <> (Raise (Exception e), st').
Proof.
  revert st. induction items as [|it items IH]; intros st; cbn [for_each].
  - unfold ret. congruence.
  - unfold bind.
    destruct (process_item nlp it st) as [[[]|e0] s1] eqn:Hp; [apply IH|].
    intros [= -> ->]. by apply process_item_no_Exception in Hp.
Qed.

(** C6. When the statements for an item raise an exception of class
    [Exception], the item is not among the rows to save and the database
    is as before; the handler turns the failure into a normal end of the
    iteration and the loop goes on with the remaining items from the state
    the item left. The loop as a whole never ends in such an exception,
    and one that [run_pipeline] does raise comes from the preparation
    before the loop or from the steps after it. *)
Theorem per_item_failure_isolated
    (nlp : gmap (list N) (list N -> M W (list Ent))) (it : Item) (rest : list Item)
    (st st1 : State W) (e : string) :
  item_steps nlp it st = (Raise (Exception e), st1) ->
  same_saved st st1 /\
  process_item nlp it st = (Val tt, st1) /\
  for_each (it :: rest) (process_item nlp) st = for_each rest (process_item nlp) st1 /\
  (forall nlp' items s e' s',
     for_each items (process_item nlp') s <> (Raise (Exception e'), s')) /\
  (forall urls since top_n s e' s',
     run_pipeline urls since top_n s = (Raise (Exception e'), s') ->
     prepare_run urls since top_n s = (Raise (Exception e'), s') \/
     exists p s1 s2,
       prepare_run urls since top_n s = (Val p, s1) /\
       for_each (snd p) (process_item (fst p)) s1 = (Val tt, s2) /\
       finish_run s2 = (Raise (Exception e'), s')).
Proof.
  intros Hraise.
  assert (Hp : process_item nlp it st = (Val tt, st1)).
  { unfold process_item, try_except_Exception. by rewrite Hraise. }
  repeat split.
  - by apply (item_steps_quiet_when_raising nlp it st _ st1 Hraise).
  - by apply (item_steps_quiet_when_raising nlp it st _ st1 Hraise).
  - done.
  - cbn [for_each]. unfold bind. by rewrite Hp.
  - intros nlp' items s e' s'. apply loop_no_Exception.
  - intros urls since top_n s e' s'. unfold run_pipeline, bind.
    destruct (prepare_run urls since top_n s) as [[p|e0] s1]; [|intros [= -> ->]; by left].
    destruct (for_each (snd p) (process_item (fst p)) s1) as [[[]|e0] s2] eqn:Hloop.
    + intros Hfin. right. by exists p, s1, s2.
    + intros [= -> ->]. by apply loop_no_Exception in Hloop.
Qed.

End RunFacts.

Lemma per_item_failure_isolated_witness :
  let st := mkState 1000 (Some [mkStored 1 event_a]) [] [] build_lsh ∅ [event_b] in
  same_saved st st /\
  process_item (U := latin1) (P := demo_pylib) (HF := demo_hash) (B := demo_banding)
    (C := demo_news) ∅ demo_item_missing st = (Val tt, st) /\
  for_each [demo_item_missing; demo_item_quito]
    (process_item (U := latin1) (P := demo_pylib) (HF := demo_hash) (B := demo_banding)
       (C := demo_news) ∅) st
  = for_each [demo_item_quito]
      (process_item (U := latin1) (P := demo_pylib) (HF := demo_hash) (B := demo_banding)
         (C := demo_news) ∅) st /\
  (forall nlp' items s e' s',
     for_each items
       (process_item (U := latin1) (P := demo_pylib) (HF := demo_hash)
          (B := demo_banding) (C := demo_news) nlp') s
     <> (Raise (Exception e'), s')) /\
  (forall urls since top_n s e' s',
     run_pipeline (U := latin1) (P := demo_pylib) (HF := demo_hash) (B := demo_banding)
       (C := demo_news) urls since top_n s = (Raise (Exception e'), s') ->
     prepare_run (U := latin1) (P := demo_pylib) (C := demo_news) urls since top_n s
       = (Raise (Exception e'), s') \/
     exists p s1 s2,
       prepare_run (U := latin1) (P := demo_pylib) (C := demo_news) urls since top_n s
         = (Val p, s1) /\
       for_each (snd p)
         (process_item (U := latin1) (P := demo_pylib) (HF := demo_hash)
            (B := demo_banding) (C := demo_news) (fst p)) s1 = (Val tt, s2) /\
       finish_run (C := demo_news) s2 = (Raise (Exception e'), s')).
Proof.
  intros st.
  apply (per_item_failure_isolated (U := latin1) (P := demo_pylib) (HF := demo_hash)
           (B := demo_banding) (C := demo_news) ∅ demo_item_missing [demo_item_quito]
           st st "requests.HTTPError").
  reflexivity.
Defined.

Example demo_run_stats :
  fst demo_run = Val (mkStats 2 2 (py "heatmap.html")) /\
  map ev_link (to_save (snd demo_run)) = [Some (py "http://n/1"); Some (py "http://n/7")].
Proof. vm_compute. split; reflexivity. Qed.

(** ** Points on the equator or the prime meridian *)

Section AxisFacts.
Context {W : Type} {U : Unicode} {P : PyLib} {HF : HashFamily} {B : Banding}
        {C : Collaborators W}.

Lemma on_axis_not_resolved (loc : Location) :
  on_axis loc -> resolved (Some loc) = false.
Proof.
  intros [(q & Hq & Hz)|(q & Hq & Hz)]; unfold resolved, truthy_float; rewrite Hq;
    apply Qeq_bool_iff in Hz; rewrite Hz; cbn; [done|apply andb_false_r].
Qed.

Lemma resolved_coordinates (loc : Location) :
  resolved (Some loc) = true ->
  latitude loc = Some (coordinate (latitude loc)) /\
  longitude loc = Some (coordinate (longitude loc)) /\
  ~ (coordinate (latitude loc) == 0)%Q /\ ~ (coordinate (longitude loc) == 0)%Q.
Proof.
  destruct loc as [[la|] [lo|]]; cbn; try done.
  - intros Hr. apply andb_prop in Hr as [Hla Hlo].
    apply negb_true_iff in Hla. apply negb_true_iff in Hlo.
    repeat split; by apply Qeq_bool_neq.
  - intros Hr. by apply andb_prop in Hr as [_ ?].
Qed.

Lemma ext_frame {A} (c : M W A) (st : State W) :
  db (snd (ext c st)) = db st /\
  geocoder_calls (snd (ext c st)) = geocoder_calls st /\
  geocoder_requests (snd (ext c st)) = geocoder_requests st /\
  lsh (snd (ext c st)) = lsh st /\
  sig_index (snd (ext c st)) = sig_index st /\
  to_save (snd (ext c st)) = to_save st.
Proof. unfold ext. by destruct (c (world st)). Qed.

(** An answer with a location was given by the geocoder, for that name. *)
Lemma rate_all_answers (names : list (list N)) (st st' : State W)
    (gs : list (option Location)) :
  rate_all names st = (Val gs, st') ->
  Forall2 (fun n g => forall loc, g = Some loc ->
                        exists w w', geocode n w = (Val (Some loc), w')) names gs.
Proof.
  revert st st' gs. induction names as [|n names IH]; intros st st' gs; cbn [rate_all].
  - unfold ret. intros [= <- _]. constructor.
  - unfold bind. destruct (rate n st) as [[g|e] s1] eqn:Hr; [|done].
    destruct (rate_all names s1) as [[gs1|e] s2] eqn:Hall; [|done].
    unfold ret. intros [= <- _]. constructor; [|by eapply IH].
    intros loc ->. apply (rate_outcome _ _ _ _ Hr).
Qed.

Lemma resolved_places_elem (names : list (list N)) (gs : list (option Location))
    (lat lon : Q) (n : list N) :
  Forall2 (fun n g => forall loc, g = Some loc ->
                        exists w w', geocode n w = (Val (Some loc), w')) names gs ->
  (lat, lon, n) ∈ resolved_places names gs ->
  n ∈ names /\
  exists loc w w',
    geocode n w = (Val (Some loc), w') /\ resolved (Some loc) = true /\
    lat = coordinate (latitude loc) /\ lon = coordinate (longitude loc).
Proof.
  induction 1 as [|n0 g names gs Hg Hrest IH]; [intros Hin; by apply elem_of_nil in Hin|].
  rewrite resolved_places_cons. intros Hin. apply elem_of_app in Hin as [Hin|Hin].
  - destruct (resolved g) eqn:Hres; [|by apply elem_of_nil in Hin].
    apply list_elem_of_singleton in Hin as [= -> -> ->].
    destruct g as [loc|]; [|done]. split; [left|].
    destruct (Hg loc eq_refl) as (w & w' & Hw). by exists loc, w, w'.
  - destruct (IH Hin) as [Hn Hex]. split; [by right|done].
Qed.

Lemma geocode_places_calls (names : list (list N)) (st st' : State W)
    (geos : list (Q * Q * list N)) :
  geocode_places names st = (Val geos, st') ->
  geocoder_calls st' = geocoder_calls st ++ names.
Proof.
  unfold geocode_places. rewrite geocode_loop_rate_all.
  destruct (rate_all names st) as [[gs|e] s1] eqn:Hall; [|done].
  intros [= _ <-]. by apply rate_all_calls in Hall as [? _].
Qed.

Lemma geocode_places_answers (names : list (list N)) (st st' : State W)
    (geos : list (Q * Q * list N)) (lat lon : Q) (n : list N) :
  geocode_places names st = (Val geos, st') -> (lat, lon, n) ∈ geos ->
  n ∈ names /\
  exists loc w w',
    geocode n w = (Val (Some loc), w') /\ resolved (Some loc) = true /\
    lat = coordinate (latitude loc) /\ lon = coordinate (longitude loc).
Proof.
  unfold geocode_places. rewrite geocode_loop_rate_all.
  destruct (rate_all names st) as [[gs|e] s1] eqn:Hall; [|done].
  intros [= <- _]. cbn [app]. apply resolved_places_elem.
  by eapply rate_all_answers.
Qed.

Lemma geocode_places_on_axes (names : list (list N)) (st st' : State W)
    (geos : list (Q * Q * list N)) :
  resolve_on_axes_only names ->
  geocode_places names st = (Val geos, st') -> geos = [].
Proof.
  intros Haxes Hgeo. destruct geos as [|[[lat lon] n] rest]; [done|]. exfalso.
  destruct (geocode_places_answers _ _ _ _ lat lon n Hgeo ltac:(left))
    as (Hn & loc & w & w' & Hg & Hres & _).
  rewrite (on_axis_not_resolved loc) in Hres; [done|]. by eapply Haxes.
Qed.

(** The rows to save after the statements for one item: as before, or
    with one more row, made from the first entry of what
    [geocode_places] returned for the candidate places of the item. *)
Lemma item_steps_saved
    (nlp : gmap (list N) (list N -> M W (list Ent))) (it : Item) (st : State W) :
  to_save (snd (item_steps nlp it st)) = to_save st \/
  exists e places geos s4 s5,
    to_save (snd (item_steps nlp it st)) = to_save st ++ [e] /\
    geocoder_calls (snd (item_steps nlp it st)) = geocoder_calls st ++ places /\
    geocode_places places s4 = (Val geos, s5) /\
    head geos = Some (ev_lat e, ev_lon e, ev_place e).
Proof.
  unfold item_steps, bind.
  destruct (ext_frame (fetch_clean_text (item_link it)) st) as (_ & C1 & _ & _ & _ & T1).
  destruct (ext (fetch_clean_text (item_link it)) st) as [[text|e1] s1];
    cbn [snd] in C1, T1; [|by left].
  destruct (ext_frame (lang_of text) s1) as (_ & C2 & _ & _ & _ & T2).
  destruct (ext (lang_of text) s1) as [[lang|e2] s2]; cbn [snd] in C2, T2;
    [|left; cbn [snd]; congruence].
  assert (T02 : to_save s2 = to_save st) by congruence.
  assert (C02 : geocoder_calls s2 = geocoder_calls st) by congruence.
  unfold lift_outcome.
  destruct (crime_score text lang) as [s|e3]; [|left; exact T02].
  destruct (negb (Qle_bool (6 # 10) s)); [left; exact T02|].
  unfold lsh_query_now.
  destruct (truthy_list (lsh_query (lsh s2) (text_signature text))); [left; exact T02|].
  destruct (str_encode (item_link it)) as [link_bytes|e4]; [|left; exact T02].
  set (s3 := snd (remember_signature (sha1_hexdigest link_bytes) (text_signature text) s2)).
  change (remember_signature (sha1_hexdigest link_bytes) (text_signature text) s2)
    with (Val tt, s3).
  cbv iota.
  assert (T3 : to_save s3 = to_save st) by exact T02.
  assert (C3 : geocoder_calls s3 = geocoder_calls st) by exact C02.
  destruct (ext_frame (extract_places text nlp lang) s3) as (_ & C4 & _ & _ & _ & T4).
  destruct (ext (extract_places text nlp lang) s3) as [[places|e5] s4];
    cbn [snd] in C4, T4; [|left; cbn [snd]; congruence].
  pose proof (quiet_geocode_places places s4) as [T5 _].
  destruct (geocode_places places s4) as [[geos|e6] s5] eqn:Hgeo; cbn [snd] in T5;
    [|left; cbn [snd]; congruence].
  pose proof (geocode_places_calls _ _ _ _ Hgeo) as C5.
  destruct geos as [|[[lat lon] place] geos'].
  - left. unfold ret. cbn [snd]. congruence.
  - right. unfold ext, dt_utc, to_save_append.
    destruct (datetime_now_utc (world s5)) as [now w6]. cbn.
    eexists _, places, _, s4, s5. split; [|split; [|split; [exact Hgeo|]]].
    + f_equal. congruence.
    + congruence.
    + reflexivity.
Qed.

Lemma process_item_state
    (nlp : gmap (list N) (list N -> M W (list Ent))) (it : Item) (st : State W) :
  snd (process_item nlp it st) = snd (item_steps nlp it st).
Proof.
  unfold process_item, try_except_Exception.
  by destruct (item_steps nlp it st) as [[[]|[e|e]] s1].
Qed.

(** C10. An answer of the geocoder whose latitude or longitude is zero is
    not kept by [geocode_places]: when every location that the geocoder
    can answer with for the given names lies on the equator or on the
    prime meridian, the list it returns is empty. For one item: either no
    row is queued, or the row queued is at a place that was among the
    item's candidates and for which the geocoder answered with that
    latitude and longitude, neither of them zero. So an item all of whose
    candidates resolve, if at all, to points on the equator or on the
    prime meridian is never queued for saving. *)
Theorem zero_coordinate_never_saved
    (nlp : gmap (list N) (list N -> M W (list Ent))) (it : Item) (st : State W) :
  let st' := snd (process_item nlp it st) in
  (forall loc, on_axis loc -> resolved (Some loc) = false) /\
  (forall names (s s' : State W) geos,
     resolve_on_axes_only names ->
     geocode_places names s = (Val geos, s') -> geos = []) /\
  (to_save st' = to_save st \/
   exists e loc w w',
     to_save st' = to_save st ++ [e] /\
     ev_place e ∈ asked_between st st' /\
     geocode (ev_place e) w = (Val (Some loc), w') /\
     latitude loc = Some (ev_lat e) /\ longitude loc = Some (ev_lon e) /\
     ~ (ev_lat e == 0)%Q /\ ~ (ev_lon e == 0)%Q) /\
  (resolve_on_axes_only (asked_between st st') -> to_save st' = to_save st).
Proof.
  cbn zeta. rewrite process_item_state.
  assert (Hrow : to_save (snd (item_steps nlp it st)) = to_save st \/
    exists e loc w w',
      to_save (snd (item_steps nlp it st)) = to_save st ++ [e] /\
      ev_place e ∈ asked_between st (snd (item_steps nlp it st)) /\
      geocode (ev_place e) w = (Val (Some loc), w') /\
      latitude loc = Some (ev_lat e) /\ longitude loc = Some (ev_lon e) /\
      ~ (ev_lat e == 0)%Q /\ ~ (ev_lon e == 0)%Q).
  { destruct (item_steps_saved nlp it st)
      as [Hsame|(e & places & geos & s4 & s5 & Hsave & Hcalls & Hgeo & Hhead)];
      [by left|right].
    destruct geos as [|g geos']; [done|]. injection Hhead as ->.
    destruct (geocode_places_answers _ _ _ _ _ _ _ Hgeo ltac:(left))
      as (Hin & loc & w & w' & Hg & Hres & Hlat & Hlon).
    destruct (resolved_coordinates loc Hres) as (Hla & Hlo & Hnz1 & Hnz2).
    exists e, loc, w, w'. split; [done|]. split.
    { unfold asked_between. rewrite Hcalls, drop_app_length. exact Hin. }
    split; [done|]. rewrite Hlat, Hlon. done. }
  split; [apply on_axis_not_resolved|].
  split; [intros names s s' geos; apply geocode_places_on_axes|].
  split; [exact Hrow|].
  intros Haxes.
  destruct Hrow as [Hsame|(e & loc & w & w' & _ & Hin & Hg & Hla & Hlo & Hnz1 & Hnz2)];
    [done|exfalso].
  destruct (Haxes _ _ _ _ Hin Hg) as [(q & Hq & Hz)|(q & Hq & Hz)].
  - rewrite Hla in Hq. injection Hq as <-. by apply Hnz1.
  - rewrite Hlo in Hq. injection Hq as <-. by apply Hnz2.
Qed.

End AxisFacts.

(** ** Signatures and the near-duplicate index *)

Section SignatureFacts.
Context {U : Unicode} {HF : HashFamily} {B : Banding}.

Lemma update_all_lookup (toks : list (list N)) (m : MinHash) (i : nat) :
  hashvalues (foldl (fun m t => update m (encode t)) m toks) !! i
  = (fun hv => slot_after i hv toks) <$> hashvalues m !! i.
Proof.
  revert m. induction toks as [|t toks IH]; intros m.
  - cbn. by destruct (hashvalues m !! i).
  - cbn [foldl]. rewrite IH. unfold update. cbn [hashvalues].
    rewrite list_lookup_imap. by destruct (hashvalues m !! i).
Qed.

Lemma slot_after_le (i : nat) (hv : Z) (toks : list (list N)) :
  slot_after i hv toks <= hv.
Proof.
  revert hv. induction toks as [|t toks IH]; intros hv; cbn; [lia|].
  etrans; [apply IH|]. lia.
Qed.

Lemma slot_after_attained (i : nat) (hv : Z) (toks : list (list N)) :
  slot_after i hv toks = hv \/
  exists t, t ∈ toks /\ slot_after i hv toks = slot_hash i (encode t).
Proof.
  revert hv. induction toks as [|t toks IH]; intros hv; cbn; [by left|].
  destruct (IH (Z.min hv (slot_hash i (encode t)))) as [Heq|(t' & Hin & Heq)].
  - unfold slot_after in Heq. rewrite Heq.
    destruct (Z.min_spec hv (slot_hash i (encode t))) as [[_ ->]|[_ ->]];
      [by left|right]. exists t. split; [left|done].
  - right. exists t'. split; [by right|done].
Qed.

Lemma slot_after_nonempty (i : nat) (toks : list (list N)) :
  toks <> [] -> exists t, t ∈ toks /\ slot_after i max_hash toks = slot_hash i (encode t).
Proof.
  intros Hne. destruct (slot_after_attained i max_hash toks) as [Heq|?]; [|done].
  destruct toks as [|t toks]; [done|]. exists t. split; [left|].
  cbn in *. pose proof (slot_after_le i (Z.min max_hash (slot_hash i (encode t))) toks).
  pose proof (slot_hash_le i (encode t)). unfold slot_after in *. lia.
Qed.

Lemma text_signature_slot (text : list N) (i : nat) :
  (i < 128)%nat -> tokens text <> ∅ ->
  exists t, t ∈ tokens text /\
            hashvalues (text_signature text) !! i = Some (slot_hash i (encode t)).
Proof.
  intros Hi Hne. unfold text_signature, text_signature_with.
  rewrite update_all_lookup. unfold MinHash_new. cbn [hashvalues].
  rewrite lookup_replicate_2 by done. cbn.
  destruct (slot_after_nonempty i (elements (tokens text))) as (t & Hin & Heq).
  - intros Hnil. apply Hne. apply leibniz_equiv. by apply elements_empty_inv.
  - exists t. split; [by apply elem_of_elements|by rewrite Heq].
Qed.

Lemma text_signature_no_tokens (text : list N) :
  tokens text = ∅ -> text_signature text = MinHash_new 128.
Proof.
  intros Hempty. unfold text_signature, text_signature_with.
  by rewrite Hempty, elements_empty.
Qed.

Lemma band_first (j : nat) (m : MinHash) :
  (0 < rows)%nat -> band j m !! 0%nat = hashvalues m !! (j * rows)%nat.
Proof.
  intros Hr. unfold band. rewrite lookup_take_lt by done.
  rewrite lookup_drop. f_equal. lia.
Qed.

Lemma shares_band_false (m1 m2 : MinHash) :
  (0 < rows)%nat -> (bands * rows <= 128)%nat ->
  (forall i, (i < 128)%nat -> hashvalues m1 !! i <> hashvalues m2 !! i) ->
  shares_band m1 m2 = false.
Proof.
  intros Hr Hfit Hdiff. unfold shares_band.
  apply not_true_is_false. rewrite existsb_exists.
  intros (j & Hj & Heq). apply in_seq in Hj. apply bool_decide_eq_true in Heq.
  apply (Hdiff (j * rows)%nat); [nia|].
  by rewrite <- !band_first, Heq.
Qed.

Lemma shares_band_refl (m : MinHash) : (0 < bands)%nat -> shares_band m m = true.
Proof.
  intros Hb. unfold shares_band. apply existsb_exists. exists 0%nat.
  split; [apply in_seq; lia|by apply bool_decide_eq_true].
Qed.

Lemma equal_slots_replicate (n : nat) (x : Z) :
  equal_slots (mkMinHash (replicate n x)) (mkMinHash (replicate n x)) = n.
Proof.
  unfold equal_slots. cbn [hashvalues].
  induction n as [|n IH]; [done|]. cbn. by rewrite Z.eqb_refl, IH.
Qed.

Lemma no_tokens_query (t1 t2 key : list N) :
  (0 < bands)%nat -> tokens t1 = ∅ -> tokens t2 = ∅ ->
  text_signature t1 = text_signature t2 /\
  lsh_query (lsh_insert build_lsh key (text_signature t1)) (text_signature t2) = [key].
Proof.
  intros Hb He1 He2. rewrite !text_signature_no_tokens by done. split; [done|].
  unfold lsh_query, lsh_insert, build_lsh, build_lsh_with.
  cbn [inserted app List.filter snd fst threshold lsh_num_perm].
  rewrite shares_band_refl by done.
  unfold jaccard, MinHash_new. rewrite equal_slots_replicate. reflexivity.
Qed.

Lemma collision_free_by_check (X : gset (list N)) (n : nat) :
  forallb (fun i =>
    forallb (fun a =>
      forallb (fun b =>
        implb (slot_hash i (encode a) =? slot_hash i (encode b)) (bool_decide (a = b)))
        (elements X)) (elements X)) (seq 0 n) = true ->
  forall i a b, (i < n)%nat -> a ∈ X -> b ∈ X ->
                slot_hash i (encode a) = slot_hash i (encode b) -> a = b.
Proof.
  intros Hcheck i a b Hi Ha Hb Heq.
  rewrite forallb_forall in Hcheck. specialize (Hcheck i).
  rewrite forallb_forall in Hcheck.
  specialize (Hcheck ltac:(apply in_seq; lia) a
                ltac:(by apply list_elem_of_In, elem_of_elements)).
  rewrite forallb_forall in Hcheck.
  specialize (Hcheck b ltac:(by apply list_elem_of_In, elem_of_elements)).
  rewrite Heq, Z.eqb_refl in Hcheck. by apply bool_decide_eq_true in Hcheck.
Qed.

(** C5, as amended. Take a banding with at least one band and one row per
    band that fits into the 128 slots. For two texts whose token sets are
    disjoint and both non-empty, and on whose tokens none of the 128 slot
    hashes collides, the signatures differ in every slot, and once the
    first is inserted the query for the second finds no candidate and
    returns nothing. Two texts without any token of five or more
    characters have the same signature, and the query for the second
    returns the key of the first. *)
Theorem disjoint_tokens_query (t1 t2 key : list N) :
  (0 < bands)%nat -> (0 < rows)%nat -> (bands * rows <= 128)%nat ->
  (tokens t1 ## tokens t2 -> tokens t1 <> ∅ -> tokens t2 <> ∅ ->
   (forall i a b, (i < 128)%nat -> a ∈ tokens t1 ∪ tokens t2 -> b ∈ tokens t1 ∪ tokens t2 ->
                  slot_hash i (encode a) = slot_hash i (encode b) -> a = b) ->
   (forall i, (i < 128)%nat ->
              hashvalues (text_signature t1) !! i <> hashvalues (text_signature t2) !! i) /\
   lsh_candidates (lsh_insert build_lsh key (text_signature t1)) (text_signature t2) = [] /\
   lsh_query (lsh_insert build_lsh key (text_signature t1)) (text_signature t2) = []) /\
  (tokens t1 = ∅ -> tokens t2 = ∅ ->
   text_signature t1 = text_signature t2 /\
   lsh_query (lsh_insert build_lsh key (text_signature t1)) (text_signature t2) = [key]).
Proof.
  intros Hb Hr Hfit. split.
  - intros Hdisj Hne1 Hne2 Hinj.
    assert (Hdiff : forall i, (i < 128)%nat ->
              hashvalues (text_signature t1) !! i <> hashvalues (text_signature t2) !! i).
    { intros i Hi.
      destruct (text_signature_slot t1 i Hi Hne1) as (a & Ha & ->).
      destruct (text_signature_slot t2 i Hi Hne2) as (b & Hb' & ->).
      intros [= Heq]. apply Hinj in Heq; [|done|set_solver..]. set_solver. }
    split; [done|].
    unfold lsh_candidates, lsh_query, lsh_insert, build_lsh, build_lsh_with.
    cbn [inserted app List.filter snd threshold lsh_num_perm].
    by rewrite (shares_band_false _ _ Hr Hfit Hdiff).
  - intros He1 He2. by apply no_tokens_query.
Qed.

End SignatureFacts.

Example tokens_demo :
  tokens (U := latin1) (py "Armed ROBBERY at the bank: armed men fled")
  = {[py "armed"; py "robbery"]}.
Proof. vm_compute. reflexivity. Qed.

Lemma disjoint_tokens_query_witness :
  let t1 := py "Armed robbery" in
  let t2 := py "A quiet evening" in
  let sig1 := text_signature (U := latin1) (HF := demo_hash) t1 in
  let sig2 := text_signature (U := latin1) (HF := demo_hash) t2 in
  ((forall i, (i < 128)%nat -> hashvalues sig1 !! i <> hashvalues sig2 !! i) /\
   lsh_candidates (B := demo_banding) (lsh_insert build_lsh (py "k") sig1) sig2 = [] /\
   lsh_query (B := demo_banding) (lsh_insert build_lsh (py "k") sig1) sig2 = []) /\
  (tokens (U := latin1) t1 = ∅ -> tokens (U := latin1) t2 = ∅ ->
   sig1 = sig2 /\
   lsh_query (B := demo_banding) (lsh_insert build_lsh (py "k") sig1) sig2 = [py "k"]).
Proof.
  intros t1 t2 sig1 sig2.
  assert (Hall := disjoint_tokens_query (U := latin1) (HF := demo_hash)
                    (B := demo_banding) t1 t2 (py "k")
                    ltac:(vm_compute; lia) ltac:(vm_compute; lia) ltac:(vm_compute; lia)).
  destruct Hall as [Hdisjoint Hempty]. split; [|exact Hempty].
  apply Hdisjoint.
  - apply (bool_decide_unpack _). vm_compute. exact I.
  - apply (bool_decide_unpack _). vm_compute. exact I.
  - apply (bool_decide_unpack _). vm_compute. exact I.
  - apply collision_free_by_check. vm_compute. reflexivity.
Defined.

(** C5 as stated fails: two texts without any token of five or more
    characters have disjoint token sets, and the second is reported as a
    duplicate of the first. *)
Lemma disjoint_tokens_can_collide :
  ~ (forall (U : Unicode) (HF : HashFamily) (B : Banding) (t1 t2 key : list N),
       (0 < bands)%nat -> (0 < rows)%nat -> (bands * rows <= 128)%nat ->
       tokens t1 ## tokens t2 ->
       truthy_list (lsh_query (lsh_insert build_lsh key (text_signature t1))
                              (text_signature t2)) = false).
Proof.
  intros Hclaim.
  specialize (Hclaim latin1 demo_hash demo_banding (py "a b c") (py "to be or not") (py "k")
                ltac:(vm_compute; lia) ltac:(vm_compute; lia) ltac:(vm_compute; lia)).
  assert (He1 : tokens (U := latin1) (py "a b c") = ∅) by (vm_compute; reflexivity).
  assert (He2 : tokens (U := latin1) (py "to be or not") = ∅) by (vm_compute; reflexivity).
  destruct (no_tokens_query (U := latin1) (HF := demo_hash) (B := demo_banding)
              (py "a b c") (py "to be or not") (py "k")
              ltac:(vm_compute; lia) He1 He2) as [_ Hq].
  rewrite Hq in Hclaim. specialize (Hclaim ltac:(rewrite He1; set_solver)).
  discriminate.
Qed.

(** ** Feed filter *)

Section FeedFacts.
Context {W : Type} {U : Unicode} {P : PyLib} {C : Collaborators W}.

Lemma strip_nil : strip [] = [].
Proof. reflexivity. Qed.

Lemma entry_title_stripped (e : Entry) :
  strip (default [] (py_or truthy_str (entry_title e) (Some [])))
  = strip (default [] (entry_title e)).
Proof. destruct (entry_title e) as [[|c t]|]; reflexivity. Qed.

Lemma entry_pub_tuple (e : Entry) :
  let pub := py_or truthy_list (published_parsed e) (updated_parsed e) in
  (if truthy_opt truthy_list pub then Some (take 6 (default [] pub)) else None)
  = publish_tuple e.
Proof.
  unfold publish_tuple.
  destruct (published_parsed e) as [[|x p]|]; cbn;
    destruct (updated_parsed e) as [[|y q]|]; reflexivity.
Qed.

(** The loop body, case by case. *)
Lemma entry_item_cases (since : datetime) (e : Entry) (w : W) :
  entry_item since e w
  = if has_link_and_title e
    then match publish_tuple e with
         | Some args =>
           match utc_datetime args with
           | Val t =>
             match aware_lt t since with
             | Val true => (Val None, w)
             | Val false =>
               (Val (Some (mkItem (strip (default [] (entry_title e)))
                                  (default [] (entry_link e)) (isoformat t))), w)
             | Raise ex => (Raise ex, w)
             end
           | Raise ex => (Raise ex, w)
           end
         | None =>
           (Val (Some (mkItem (strip (default [] (entry_title e)))
                              (default [] (entry_link e))
                              (isoformat (fst (datetime_now_utc w))))),
            snd (datetime_now_utc w))
         end
    else (Val None, w).
Proof.
  unfold entry_item, has_link_and_title. rewrite entry_title_stripped.
  rewrite <- negb_andb.
  destruct (truthy_opt truthy_str (entry_link e)
            && truthy_str (strip (default [] (entry_title e)))); [|done].
  rewrite <- entry_pub_tuple. cbn zeta. cbn [negb].
  destruct (truthy_opt truthy_list
              (py_or truthy_list (published_parsed e) (updated_parsed e))).
  - unfold bind, lift_outcome, ret.
    destruct (utc_datetime _) as [t|ex]; [|done].
    by destruct (aware_lt t since) as [[|]|ex].
  - unfold bind, dt_utc, ret. by destruct (datetime_now_utc w).
Qed.

Lemma has_link_and_title_lacks (e : Entry) :
  lacks (entry_link e) \/ lacks (entry_title e) -> has_link_and_title e = false.
Proof.
  unfold has_link_and_title.
  intros [[Hl|Hl]|[Ht|Ht]]; rewrite ?Hl, ?Ht; cbn; rewrite ?andb_false_r; done.
Qed.

Lemma has_link_and_title_fields (e : Entry) :
  has_link_and_title e = true ->
  exists l, entry_link e = Some l /\ l <> [] /\ strip (default [] (entry_title e)) <> [].
Proof.
  unfold has_link_and_title. intros H. apply andb_prop in H as [Hl Ht].
  destruct (entry_link e) as [[|c l]|]; try done. exists (c :: l).
  split; [done|]. split; [done|]. by destruct (strip (default [] (entry_title e))).
Qed.

(** An entry that passes the filter gives its item; any other entry that
    does not stop the loop gives none. *)
Lemma entry_item_exact (since : datetime) (e : Entry) (w w' : W) (r : option Item) :
  entry_item since e w = (Val r, w') ->
  if kept since e then exists it, r = Some it /\ item_from since e it else r = None.
Proof.
  rewrite entry_item_cases. unfold kept, item_from.
  destruct (has_link_and_title e) eqn:Hlt; cbn [andb]; [|by intros [= <- _]].
  destruct (has_link_and_title_fields e Hlt) as (l & Hl & Hne & Hs).
  rewrite Hl. cbn [default from_option]. unfold Datatypes.id.
  destruct (publish_tuple e) as [args|].
  - destruct (utc_datetime args) as [t|ex]; [|done].
    destruct (aware_lt t since) as [[|]|ex] eqn:Hlt'; [by intros [= <- _]| |done].
    intros [= <- _]. cbn [negb]. eexists. split; [done|]. cbn.
    repeat split; try done. by exists t.
  - intros [= <- _]. eexists. split; [done|]. cbn.
    repeat split; try done. by eexists.
Qed.

Lemma entries_loop_exact (since : datetime) (entries : list Entry) (out items : list Item)
    (w w' : W) :
  entries_loop since entries out w = (Val items, w') ->
  exists new,
    items = out ++ new /\
    Forall2 (item_from since) (List.filter (kept since) entries) new.
Proof.
  revert out w. induction entries as [|e entries IH]; intros out w; cbn [entries_loop].
  - unfold ret. intros [= <- _]. exists []. split; [by rewrite app_nil_r|constructor].
  - unfold bind. destruct (entry_item since e w) as [[r|ex] w1] eqn:He; [|done].
    intros Hrest. apply entry_item_exact in He. cbn [List.filter].
    destruct (kept since e).
    + destruct He as (it & -> & Hit).
      destruct (IH _ _ Hrest) as (new & -> & Hall).
      exists (it :: new). split; [by rewrite <- app_assoc|by constructor].
    + subst r. destruct (IH _ _ Hrest) as (new & -> & Hall). by exists new.
Qed.

Lemma filter_app_kept (since : datetime) (l1 l2 : list Entry) :
  List.filter (kept since) (l1 ++ l2)
  = List.filter (kept since) l1 ++ List.filter (kept since) l2.
Proof. apply List.filter_app. Qed.

Lemma feeds_loop_exact (since : datetime) (urls : list (list N)) (out items : list Item)
    (w w' : W) :
  feeds_loop since urls out w = (Val items, w') ->
  length (feeds_read since urls out w) = length urls /\
  exists new,
    items = out ++ new /\
    Forall2 (item_from since)
            (List.filter (kept since) (concat (feeds_read since urls out w))) new.
Proof.
  revert out w. induction urls as [|u urls IH]; intros out w;
    cbn [feeds_loop feeds_read].
  - unfold ret. intros [= <- _]. split; [done|]. exists [].
    split; [by rewrite app_nil_r|constructor].
  - unfold bind. destruct (feedparser_parse u w) as [[f|ex] w1] eqn:Hparse; [|done].
    destruct (entries_loop since f out w1) as [[out'|ex] w2] eqn:Hentries; [|done].
    intros Hrest.
    destruct (entries_loop_exact _ _ _ _ _ _ Hentries) as (new1 & -> & Hall1).
    destruct (IH _ _ Hrest) as (Hlen & new2 & -> & Hall2).
    split; [cbn [length]; by rewrite Hlen|].
    exists (new1 ++ new2). split; [by rewrite app_assoc|].
    cbn [concat]. rewrite filter_app_kept. by apply Forall2_app.
Qed.

Lemma entries_loop_returns (c : Z) (entries : list Entry) (out : list Item) (w : W) :
  Forall well_dated entries ->
  exists items w', entries_loop (aware c) entries out w = (Val items, w').
Proof.
  revert out w. induction entries as [|e entries IH]; intros out w Hall; cbn [entries_loop].
  - by exists out, w.
  - apply Forall_cons in Hall as [He Hall]. unfold bind. rewrite entry_item_cases.
    destruct (has_link_and_title e); [|by apply IH].
    destruct (publish_tuple e) as [args|] eqn:Hpub; [|by apply IH].
    specialize (He args Hpub).
    destruct (utc_datetime args) as [t|ex]; [|done]. cbn [aware_lt].
    destruct (t <? c); by apply IH.
Qed.

Lemma feeds_loop_returns (c : Z) (urls : list (list N)) (out : list Item) (w : W) :
  (forall u w0, u ∈ urls ->
     exists f w1, feedparser_parse u w0 = (Val f, w1) /\ Forall well_dated f) ->
  exists items w', feeds_loop (aware c) urls out w = (Val items, w').
Proof.
  revert out w. induction urls as [|u urls IH]; intros out w Hok; cbn [feeds_loop].
  - by exists out, w.
  - unfold bind. destruct (Hok u w ltac:(left)) as (f & w1 & -> & Hf).
    destruct (entries_loop_returns c f out w1 Hf) as (out' & w2 & ->).
    apply IH. intros u' w0 Hu'. apply Hok. by right.
Qed.

(** C8. An entry that lacks a link, or lacks a title, yields no item. With
    a cutoff that carries a UTC offset, an entry whose publish time is a
    date before the cutoff yields none either. An entry with link and
    title and no publish time yields an item whose [published_at] is the
    clock reading of that moment. Whenever the loop over the entries of a
    feed returns, and whenever [fetch_rss_items] returns, the items added
    are exactly the items of the entries that pass the filter, one per
    entry and in the order of the feeds and of their entries; and
    [fetch_rss_items] does return when the cutoff carries a UTC offset,
    every feed can be parsed and the time fields of its entries make
    dates. *)
Theorem entry_filter (since : datetime) (e : Entry) (w : W) :
  (lacks (entry_link e) \/ lacks (entry_title e) -> entry_item since e w = (Val None, w)) /\
  (forall c args t,
     since = aware c -> publish_tuple e = Some args -> utc_datetime args = Val t ->
     t < c -> entry_item since e w = (Val None, w)) /\
  (forall l ttl,
     entry_link e = Some l -> l <> [] -> entry_title e = Some ttl -> strip ttl <> [] ->
     publish_tuple e = None ->
     entry_item since e w
     = (Val (Some (mkItem (strip ttl) l (isoformat (fst (datetime_now_utc w))))),
        snd (datetime_now_utc w))) /\
  (forall entries out items w',
     entries_loop since entries out w = (Val items, w') ->
     exists new,
       items = out ++ new /\
       Forall2 (item_from since) (List.filter (kept since) entries) new) /\
  (forall urls since_iso items w',
     fetch_rss_items urls since_iso w = (Val items, w') ->
     exists cutoff,
       fromisoformat (replace_Z since_iso) = Val cutoff /\
       length (feeds_read cutoff urls [] w) = length urls /\
       Forall2 (item_from cutoff)
               (List.filter (kept cutoff) (concat (feeds_read cutoff urls [] w))) items) /\
  (forall urls since_iso c,
     fromisoformat (replace_Z since_iso) = Val (aware c) ->
     (forall u w0, u ∈ urls ->
        exists f w1, feedparser_parse u w0 = (Val f, w1) /\ Forall well_dated f) ->
     exists items w', fetch_rss_items urls since_iso w = (Val items, w')).
Proof.
  split; [|split; [|split; [|split; [|split]]]].
  - intros Hlacks. rewrite entry_item_cases.
    by rewrite (has_link_and_title_lacks e Hlacks).
  - intros c args t -> Hpub Hdate Hold. rewrite entry_item_cases, Hpub, Hdate.
    cbn [aware_lt]. apply Z.ltb_lt in Hold. rewrite Hold.
    by destruct (has_link_and_title e).
  - intros l ttl Hl Hne Ht Hs Hpub. rewrite entry_item_cases, Hpub.
    unfold has_link_and_title. rewrite Hl, Ht.
    destruct l as [|c l]; [done|].
    cbn [truthy_opt truthy_str default from_option andb]. unfold Datatypes.id.
    by destruct (strip ttl).
  - intros entries out items w'. apply entries_loop_exact.
  - intros urls since_iso items w'. unfold fetch_rss_items, bind, lift_outcome.
    destruct (fromisoformat (replace_Z since_iso)) as [cutoff|ex]; [|done].
    intros Hloop.
    destruct (feeds_loop_exact _ _ _ _ _ _ Hloop) as (Hlen & new & -> & Hall).
    by exists cutoff.
  - intros urls since_iso c Hcut Hok. unfold fetch_rss_items, bind, lift_outcome.
    rewrite Hcut. by apply feeds_loop_returns.
Qed.

End FeedFacts.

Lemma entry_filter_witness :
  let old := mkEntry (Some (py "http://n/6")) (Some (py "Antigo"))
                     (Some [2019; 1; 1; 0; 0; 0; 1; 1; 0]) None in
  let undated := mkEntry (Some (py "http://n/7")) (Some (py " Porto ")) None None in
  let untitled := mkEntry (Some (py "http://n/9")) None None None in
  let cutoff := 63839664000000000 in
  entry_item (U := latin1) (P := demo_pylib) (C := demo_news) (aware cutoff) old 1000
    = (Val None, 1000) /\
  entry_item (U := latin1) (P := demo_pylib) (C := demo_news) (aware cutoff) undated 1000
    = (Val (Some (mkItem (py "Porto") (py "http://n/7") (isoformat (PyLib := demo_pylib) 1000))),
       1001) /\
  entry_item (U := latin1) (P := demo_pylib) (C := demo_news) (aware cutoff) untitled 1000
    = (Val None, 1000) /\
  exists items w',
    fetch_rss_items (U := latin1) (P := demo_pylib) (C := demo_news)
      [py "feed://n"] (py "2024-01-01T00:00:00+00:00") 1000 = (Val items, w').
Proof.
  intros old undated untitled cutoff. split; [|split; [|split]].
  - apply (entry_filter (U := latin1) (P := demo_pylib) (C := demo_news)
             (aware cutoff) old 1000)
      with (c := cutoff) (args := [2019; 1; 1; 0; 0; 0]) (t := 63681897600000000);
      [reflexivity | reflexivity | reflexivity | reflexivity].
  - apply (entry_filter (U := latin1) (P := demo_pylib) (C := demo_news)
             (aware cutoff) undated 1000) with (ttl := py " Porto ");
      [reflexivity | discriminate | reflexivity | vm_compute; discriminate | reflexivity].
  - apply (entry_filter (U := latin1) (P := demo_pylib) (C := demo_news)
             (aware cutoff) untitled 1000).
    right. left. reflexivity.
  - apply (entry_filter (U := latin1) (P := demo_pylib) (C := demo_news)
             (aware cutoff) old 1000) with (c := cutoff); [reflexivity|].
    intros u w0 Hu. apply list_elem_of_singleton in Hu as ->.
    exists demo_feed, w0. split; [reflexivity|].
    unfold well_dated, demo_feed.
    repeat (constructor; [by intros args [= <-]|]). constructor.
Defined.

Example fetch_rss_items_demo :
  map item_link
    (match fetch_rss_items (U := latin1) (P := demo_pylib) (C := demo_news)
             [py "feed://n"] (py "2024-01-01T00:00:00+00:00") 1000 with
     | (Val items, _) => items
     | _ => []
     end)
  = map py ["http://n/1"; "http://n/2"; "http://n/3"; "http://n/4"; "http://n/7";
            "http://n/8"].
Proof. vm_compute. reflexivity. Qed.

(** A time tuple that is no date, and a cutoff without UTC offset, make
    [fetch_rss_items] raise. *)
Example fetch_rss_items_raises :
  fst (fetch_rss_items (U := latin1) (P := demo_pylib)
         (C := demo_world [(py "feed://y0",
                            [mkEntry (Some (py "http://n/0")) (Some (py "Ano zero"))
                                     (Some [0; 1; 1; 0; 0; 0; 0; 1; 0]) None])]
                          [] [] [])
         [py "feed://y0"] (py "2024-01-01T00:00:00+00:00") 1000)
  = Raise (Exception "ValueError") /\
  fst (fetch_rss_items (U := latin1) (P := demo_pylib) (C := demo_news)
         [py "feed://n"] (py "2024-01-01T00:00:00") 1000)
  = Raise (Exception "TypeError").
Proof. vm_compute. split; reflexivity. Qed.

(** ** Language detection *)

Section LangFacts.
Context {W : Type} {U : Unicode} {C : Collaborators W}.

Lemma load_pipelines_keys (w0 w1 : W) (nlp : gmap (list N) (list N -> M W (list Ent))) :
  load_pipelines w0 = (Val nlp, w1) ->
  is_Some (nlp !! py "pt") /\ is_Some (nlp !! py "en").
Proof.
  unfold load_pipelines, bind, try_except, ret.
  destruct (spacy_load (py "en_core_web_lg") w0) as [[en|e] s1].
  - destruct (spacy_load (py "pt_core_news_lg") s1) as [[pt|e] s2].
    + intros [= <- _]. split; [by rewrite lookup_insert_eq|].
      rewrite lookup_insert_ne by done. by rewrite lookup_insert_eq.
    + destruct (spacy_load (py "xx_ent_wiki_sm") s2) as [[pt|e'] s3]; [|done].
      intros [= <- _]. split; [by rewrite lookup_insert_eq|].
      rewrite lookup_insert_ne by done. by rewrite lookup_insert_eq.
  - destruct (spacy_load (py "xx_ent_wiki_sm") s1) as [[en|e'] s2]; [|done].
    destruct (spacy_load (py "pt_core_news_lg") s2) as [[pt|e''] s3].
    + intros [= <- _]. split; [by rewrite lookup_insert_eq|].
      rewrite lookup_insert_ne by done. by rewrite lookup_insert_eq.
    + destruct (spacy_load (py "xx_ent_wiki_sm") s3) as [[pt|e3] s4]; [|done].
      intros [= <- _]. split; [by rewrite lookup_insert_eq|].
      rewrite lookup_insert_ne by done. by rewrite lookup_insert_eq.
Qed.

(** C9. [lang_of] returns for every text, whatever the detector does, and
    what it returns is "pt" or "en": "pt" exactly when the detector
    returned a code that starts with "pt", and "en" when it returned any
    other code or raised. With that language the keyword table has an
    entry, so [crime_score] returns a score, and so have the pipelines
    that [load_pipelines] returned. *)
Theorem lang_of_supported (text : list N) (w : W) :
  exists l w',
    lang_of text w = (Val l, w') /\
    (l = py "pt" \/ l = py "en") /\
    (l = py "pt" <->
       exists code, fst (detect (take 2000 text) w) = Val code /\
                    startswith code (py "pt") = true) /\
    is_Some (CRIME_KEYWORDS !! l) /\
    (exists s, crime_score text l = Val s) /\
    (forall w0 nlp w1, load_pipelines w0 = (Val nlp, w1) -> is_Some (nlp !! l)).
Proof.
  assert (Hok : forall l, l = py "pt" \/ l = py "en" ->
            is_Some (CRIME_KEYWORDS !! l) /\
            (exists s, crime_score text l = Val s) /\
            (forall w0 nlp w1, load_pipelines w0 = (Val nlp, w1) -> is_Some (nlp !! l))).
  { intros l Hl. pose proof (proj2 (CRIME_KEYWORDS_dom l) Hl) as [kws Hk].
    split; [by exists kws|]. split.
    - unfold crime_score. rewrite Hk. by eexists.
    - intros w0 nlp w1 Hload. apply load_pipelines_keys in Hload as [Hpt Hen].
      by destruct Hl as [-> | ->]. }
  unfold lang_of, try_except, bind, ret.
  destruct (detect (take 2000 text) w) as [[code|e] w1] eqn:Hdet; cbn [fst].
  - destruct (startswith code (py "pt")) eqn:Hpt.
    + exists (py "pt"), w1. split; [done|]. split; [by left|]. split; [|apply Hok; by left].
      split; [|done]. intros _. by exists code.
    + exists (py "en"), w1. split; [done|]. split; [by right|]. split; [|apply Hok; by right].
      split; [done|]. intros (code' & [= <-] & Hpt'). congruence.
  - exists (py "en"), w1. split; [done|]. split; [by right|]. split; [|apply Hok; by right].
    split; [done|]. by intros (code' & Hc & _).
Qed.

End LangFacts.

Lemma lang_of_supported_witness :
  exists l w',
    lang_of (C := demo_news) demo_story 5 = (Val l, w') /\
    (l = py "pt" \/ l = py "en") /\
    is_Some (CRIME_KEYWORDS !! l) /\
    (exists s, crime_score (U := latin1) demo_story l = Val s) /\
    is_Some (demo_nlp !! l).
Proof.
  destruct (lang_of_supported (U := latin1) (C := demo_news) demo_story 5)
    as (l & w' & Hl & Hsup & _ & Hk & Hs & Hnlp).
  exists l, w'. repeat split; try done.
  apply (Hnlp 0 demo_nlp 0). reflexivity.
Defined.

Example lang_of_demo :
  fst (lang_of (C := demo_news) demo_story 5) = Val (py "pt") /\
  fst (lang_of (C := demo_news) demo_story_quito 5) = Val (py "en") /\
  fst (lang_of (C := demo_news) [] 5) = Val (py "en").
Proof. repeat split; reflexivity. Qed.

Lemma zero_coordinate_never_saved_witness :
  to_save (snd (process_item (U := latin1) (P := demo_pylib) (HF := demo_hash)
                  (B := demo_banding) (C := demo_news) demo_nlp demo_item_quito
                  (demo_state 0 (Some []))))
  = to_save (demo_state 0 (Some [])).
Proof.
  pose proof (zero_coordinate_never_saved (U := latin1) (P := demo_pylib)
                (HF := demo_hash) (B := demo_banding) (C := demo_news)
                demo_nlp demo_item_quito (demo_state 0 (Some []))) as H.
  cbv zeta in H. destruct H as (_ & _ & _ & H). apply H.
  intros n w loc w' Hin Hg. vm_compute in Hin.
  apply list_elem_of_singleton in Hin as ->.
  vm_compute in Hg. injection Hg as <- _.
  left. exists 0%Q. split; reflexivity.
Defined.

Example quito_not_saved :
  to_save (snd (process_item (U := latin1) (P := demo_pylib) (HF := demo_hash)
                  (B := demo_banding) (C := demo_news) demo_nlp demo_item_quito
                  (demo_state 0 (Some []))))
  = [] /\
  geocoder_calls (snd (process_item (U := latin1) (P := demo_pylib) (HF := demo_hash)
                         (B := demo_banding) (C := demo_news) demo_nlp demo_item_quito
                         (demo_state 0 (Some []))))
  = [py "Quito"].
Proof. vm_compute. split; reflexivity. Qed.

(** * Further properties *)

(** ** Relevance scorer: the acceptance gate *)

Lemma hits_of_le (kws : list (list N)) (t : list N) :
  (hits_of kws t <= length kws)%nat.
Proof.
  unfold hits_of. induction kws as [|k kws IH]; cbn; [lia|].
  destruct (contains t k); lia.
Qed.

Lemma score_of_one_hit (hits : nat) (n : Z) :
  (hits <= 1)%nat -> (score_of hits n <= 52 # 100)%Q.
Proof.
  intros Hh. unfold score_of.
  assert (Ha : (inject_Z (Z.of_nat hits) / 5 <= 1 # 5)%Q).
  { apply Qle_shift_div_r; [reflexivity|].
    apply Qle_trans with (inject_Z 1); [|vm_compute; discriminate].
    rewrite <- Zle_Qle. lia. }
  revert Ha. generalize (inject_Z (Z.of_nat hits) / 5)%Q (inject_Z n / 2000)%Q.
  intros a b Ha.
  destruct (Q.min_spec a 1) as [[? ->]|[? ->]];
  destruct (Q.min_spec b 1) as [[? ->]|[? ->]]; lra.
Qed.

Lemma score_of_five_hits (hits : nat) (n : Z) :
  (5 <= hits)%nat -> 0 <= n -> (6 # 10 <= score_of hits n)%Q.
Proof.
  intros Hh Hn. unfold score_of.
  assert (Ha : (1 <= inject_Z (Z.of_nat hits) / 5)%Q).
  { apply Qle_shift_div_l; [reflexivity|].
    apply Qle_trans with (inject_Z 5); [vm_compute; discriminate|].
    rewrite <- Zle_Qle. lia. }
  assert (Hb : (0 <= inject_Z n / 2000)%Q).
  { apply Qdiv_nonneg; [|reflexivity].
    change 0%Q with (inject_Z 0). by rewrite <- Zle_Qle. }
  revert Ha Hb. generalize (inject_Z (Z.of_nat hits) / 5)%Q (inject_Z n / 2000)%Q.
  intros a b Ha Hb.
  destruct (Q.min_spec a 1) as [[? ->]|[? ->]];
  destruct (Q.min_spec b 1) as [[? ->]|[? ->]]; lra.
Qed.

Lemma score_of_saturated (hits : nat) (n : Z) :
  (5 <= hits)%nat -> 2000 <= n -> (score_of hits n == 1)%Q.
Proof.
  intros Hh Hn. unfold score_of.
  assert (Ha : (1 <= inject_Z (Z.of_nat hits) / 5)%Q).
  { apply Qle_shift_div_l; [reflexivity|].
    apply Qle_trans with (inject_Z 5); [vm_compute; discriminate|].
    rewrite <- Zle_Qle. lia. }
  assert (Hb : (1 <= inject_Z n / 2000)%Q).
  { apply Qle_shift_div_l; [reflexivity|].
    apply Qle_trans with (inject_Z 2000); [vm_compute; discriminate|].
    by rewrite <- Zle_Qle. }
  revert Ha Hb. generalize (inject_Z (Z.of_nat hits) / 5)%Q (inject_Z n / 2000)%Q.
  intros a b Ha Hb.
  destruct (Q.min_spec a 1) as [[? ->]|[? ->]];
  destruct (Q.min_spec b 1) as [[? ->]|[? ->]]; lra.
Qed.

Section GateFacts.
Context {U : Unicode}.

(** X1. Against the gate [s < 0.6] of the run: with the keyword list
    [kws] of its language, a text that matches at most one keyword scores
    at most 0.52 and fails the gate whatever its length; a text that
    matches five or more keywords passes it whatever its length, and
    scores 1 once it is 2000 characters long. No text matches more
    keywords than the list has. *)
Theorem crime_score_gate (text lang : list N) (kws : list (list N)) :
  CRIME_KEYWORDS !! lang = Some kws ->
  exists s,
    crime_score text lang = Val s /\
    (hits_of kws (lower text) <= length kws)%nat /\
    ((hits_of kws (lower text) <= 1)%nat ->
       (s <= 52 # 100)%Q /\ negb (Qle_bool (6 # 10) s) = true) /\
    ((5 <= hits_of kws (lower text))%nat -> negb (Qle_bool (6 # 10) s) = false) /\
    ((5 <= hits_of kws (lower text))%nat -> 2000 <= len text -> (s == 1)%Q).
Proof.
  intros Hk. unfold crime_score. rewrite Hk. eexists. split; [reflexivity|].
  split; [apply hits_of_le|]. split; [|split].
  - intros Hh. pose proof (score_of_one_hit _ (len text) Hh) as Hs.
    split; [done|]. apply negb_true_iff, not_true_is_false.
    rewrite Qle_bool_iff. intros Hge. lra.
  - intros Hh. apply negb_false_iff, Qle_bool_iff.
    apply score_of_five_hits; [done|]. unfold len. lia.
  - intros Hh Hn. by apply score_of_saturated.
Qed.

(** X2. [crime_score] returns a score exactly for the language codes "pt"
    and "en"; for every other code the lookup in the keyword table raises
    [KeyError]. *)
Theorem crime_score_keyerror (text lang : list N) :
  ((lang = py "pt" \/ lang = py "en") <-> exists s, crime_score text lang = Val s) /\
  (lang <> py "pt" -> lang <> py "en" ->
   crime_score text lang = Raise (Exception "KeyError")).
Proof.
  pose proof (CRIME_KEYWORDS_dom lang) as Hdom. unfold crime_score.
  destruct (CRIME_KEYWORDS !! lang) as [kws|] eqn:Hk.
  - assert (Hl : lang = py "pt" \/ lang = py "en") by (apply Hdom; eauto).
    split; [split; eauto|]. intros H1 H2. by destruct Hl.
  - split; [|done]. split.
    + intros Hl. apply Hdom in Hl as [? ?]. done.
    + by intros [s ?].
Qed.

End GateFacts.

Lemma crime_score_gate_witness :
  exists s,
    crime_score (U := latin1) demo_story_quito (py "en") = Val s /\
    negb (Qle_bool (6 # 10) s) = false.
Proof.
  destruct (crime_score_gate (U := latin1) demo_story_quito (py "en")
              (map py ["homicide"; "murder"; "robbery"; "theft"; "trafficking"; "assault";
                       "kidnapping"; "extortion"; "rape"; "felony"; "corruption"; "fraud";
                       "organized crime"; "shooting"; "arson"]))
    as (s & Hs & _ & _ & Hpass & _); [vm_compute; reflexivity|].
  exists s. split; [exact Hs|]. apply Hpass. vm_compute. lia.
Defined.

Lemma crime_score_keyerror_witness :
  crime_score (U := latin1) demo_story (py "es") = Raise (Exception "KeyError").
Proof.
  apply (crime_score_keyerror (U := latin1) demo_story (py "es")); discriminate.
Defined.

(** ** Event store: batches, row ids *)

Lemma links_insert_or_ignore (t : list StoredEvent) (e : Event) (l : list N) :
  l ∈ links t -> l ∈ links (insert_or_ignore t e).
Proof.
  intros Hin. unfold insert_or_ignore.
  destruct (link_conflict (ev_link e) t); [done|].
  rewrite links_app. apply elem_of_app. by left.
Qed.

Lemma link_stored_after_insert (t : list StoredEvent) (e : Event) (l : list N) :
  ev_link e = Some l -> l ∈ links (insert_or_ignore t e).
Proof.
  intros Hl. unfold insert_or_ignore. rewrite Hl.
  destruct (link_conflict (Some l) t) eqn:Hc; [by apply link_conflict_spec|].
  rewrite links_app. apply elem_of_app. right.
  unfold links. cbn. rewrite Hl. cbn. left.
Qed.

Lemma links_executemany (rows : list Event) (t : list StoredEvent) (l : list N) :
  l ∈ links t -> l ∈ links (foldl insert_or_ignore t rows).
Proof.
  revert t. induction rows as [|e rows IH]; intros t Hin; [done|].
  cbn [foldl]. apply IH. by apply links_insert_or_ignore.
Qed.

Lemma link_stored_after_executemany (rows : list Event) (t : list StoredEvent)
    (e : Event) (l : list N) :
  e ∈ rows -> ev_link e = Some l -> l ∈ links (foldl insert_or_ignore t rows).
Proof.
  revert t. induction rows as [|e0 rows IH]; intros t Hin Hl.
  - by apply elem_of_nil in Hin.
  - cbn [foldl]. apply elem_of_cons in Hin as [->|Hin].
    + apply links_executemany. by apply link_stored_after_insert.
    + by apply IH.
Qed.










(** ** Spatial aggregator: what the groups are *)

Lemma same_bucket_sym (k1 k2 : Q * Q) : same_bucket k1 k2 = same_bucket k2 k1.
Proof.
  assert (Hq : forall x y, Qeq_bool x y = Qeq_bool y x).
  { intros x y. destruct (Qeq_bool x y) eqn:Hxy, (Qeq_bool y x) eqn:Hyx; try done.
    - apply Qeq_bool_sym in Hxy. congruence.
    - apply Qeq_bool_sym in Hyx. congruence. }
  unfold same_bucket. by rewrite (Hq (fst k1)), (Hq (snd k1)).
Qed.

Lemma same_bucket_refl (k : Q * Q) : same_bucket k k = true.
Proof.
  unfold same_bucket. apply andb_true_intro. split; by apply Qeq_bool_iff.
Qed.

Lemma count_into_keys (P : Q * Q -> Prop) (k : Q * Q) (groups : list (Q * Q * Z)) :
  P k -> Forall (fun p => P (fst p)) groups ->
  Forall (fun p => P (fst p)) (count_into k groups).
Proof.
  intros Hk. induction groups as [|[k' n] groups IH]; intros Hall; cbn.
  - by repeat constructor.
  - apply Forall_cons in Hall as [Hk' Hall].
    destruct (same_bucket k k'); constructor; try done. by apply IH.
Qed.

Lemma count_into_sum (k : Q * Q) (groups : list (Q * Q * Z)) :
  foldr Z.add 0 (map snd (count_into k groups)) = foldr Z.add 0 (map snd groups) + 1.
Proof.
  induction groups as [|[k' n] groups IH]; cbn; [lia|].
  destruct (same_bucket k k'); cbn; lia.
Qed.

Lemma count_into_positive (k : Q * Q) (groups : list (Q * Q * Z)) :
  Forall (fun p => 1 <= snd p) groups -> Forall (fun p => 1 <= snd p) (count_into k groups).
Proof.
  induction groups as [|[k' n] groups IH]; intros Hall; cbn.
  - by repeat constructor.
  - apply Forall_cons in Hall as [Hn Hall]. cbn in Hn.
    destruct (same_bucket k k'); constructor; cbn; try done; [lia|by apply IH].
Qed.

Lemma count_into_distinct (k : Q * Q) (groups : list (Q * Q * Z)) :
  ForallOrdPairs (fun p q => same_bucket (fst p) (fst q) = false) groups ->
  ForallOrdPairs (fun p q => same_bucket (fst p) (fst q) = false) (count_into k groups).
Proof.
  induction groups as [|[k' n] groups IH]; intros Hd; cbn.
  - repeat constructor.
  - inversion Hd as [|? ? Hhead Htail]; subst.
    destruct (same_bucket k k') eqn:Hkk'.
    + constructor; [|done]. done.
    + constructor; [|by apply IH].
      apply (count_into_keys (fun key => same_bucket k' key = false)); [|done].
      by rewrite same_bucket_sym.
Qed.

Lemma count_into_represented (k k0 : Q * Q) (groups : list (Q * Q * Z)) :
  Exists (fun p => same_bucket k0 (fst p) = true) groups ->
  Exists (fun p => same_bucket k0 (fst p) = true) (count_into k groups).
Proof.
  induction groups as [|[k' n] groups IH]; intros Hex; cbn.
  - by apply Exists_nil in Hex.
  - apply Exists_cons in Hex as [Hhere|Hthere];
      destruct (same_bucket k k'); try (by apply Exists_cons_hd).
    + apply Exists_cons_tl. done.
    + apply Exists_cons_tl. by apply IH.
Qed.

Lemma count_into_has (k : Q * Q) (groups : list (Q * Q * Z)) :
  Exists (fun p => same_bucket k (fst p) = true) (count_into k groups).
Proof.
  induction groups as [|[k' n] groups IH]; cbn.
  - apply Exists_cons_hd. apply same_bucket_refl.
  - destruct (same_bucket k k') eqn:Hkk'; [by apply Exists_cons_hd|].
    by apply Exists_cons_tl.
Qed.

Lemma group_count_facts (t : list StoredEvent) (groups : list (Q * Q * Z)) :
  let result := foldl (fun groups r => count_into (bucket (event r)) groups) groups t in
  foldr Z.add 0 (map snd result) = foldr Z.add 0 (map snd groups) + Z.of_nat (length t) /\
  (Forall (fun p => 1 <= snd p) groups -> Forall (fun p => 1 <= snd p) result) /\
  (ForallOrdPairs (fun p q => same_bucket (fst p) (fst q) = false) groups ->
   ForallOrdPairs (fun p q => same_bucket (fst p) (fst q) = false) result) /\
  Forall (fun r => Exists (fun p => same_bucket (bucket (event r)) (fst p) = true) result) t /\
  (forall k0, Exists (fun p => same_bucket k0 (fst p) = true) groups ->
              Exists (fun p => same_bucket k0 (fst p) = true) result) /\
  (forall P : Q * Q -> Prop,
     Forall (fun r => P (bucket (event r))) t -> Forall (fun p => P (fst p)) groups ->
     Forall (fun p => P (fst p)) result).
Proof.
  revert groups. induction t as [|r t IH]; intros groups; cbn zeta.
  - cbn. repeat split; try done. lia.
  - cbn [foldl length].
    destruct (IH (count_into (bucket (event r)) groups)) as (Hs & Hp & Hd & Hr & He & Hk).
    cbn zeta in *. repeat split.
    + rewrite Hs, count_into_sum. lia.
    + intros Hpos. by apply Hp, count_into_positive.
    + intros Hdis. by apply Hd, count_into_distinct.
    + constructor; [|done]. apply He, count_into_has.
    + intros k0 Hk0. by apply He, count_into_represented.
    + intros P Hall Hg. apply Forall_cons in Hall as [Hhere Hall].
      apply Hk; [done|]. by apply count_into_keys.
Qed.

(** X5. What [aggregate] returns for a table: it leaves the database
    as it is; every stored event is counted exactly once (the counts add
    up to the number of rows), no point has a count below 1, no two
    points are the same bucket, every event's bucket is one of the points,
    and every point is the bucket of some stored event. *)
Theorem aggregate_counts_every_event (t : list StoredEvent) :
  exists pts,
    aggregate (Some t) = (Val pts, Some t) /\
    foldr Z.add 0 (map snd pts) = Z.of_nat (length t) /\
    Forall (fun p => 1 <= snd p) pts /\
    ForallOrdPairs (fun p q => same_bucket (fst p) (fst q) = false) pts /\
    Forall (fun r => Exists (fun p => same_bucket (bucket (event r)) (fst p) = true) pts) t /\
    Forall (fun p => exists r, r ∈ t /\ fst p = bucket (event r)) pts.
Proof.
  exists (group_count t). split; [done|]. unfold group_count.
  destruct (group_count_facts t []) as (Hs & Hp & Hd & Hr & _ & Hk). cbn zeta in *.
  repeat split; try done.
  - by apply Hp.
  - apply Hd. constructor.
  - apply (Hk (fun k => exists r, r ∈ t /\ k = bucket (event r))); [|done].
    apply Forall_forall. intros r Hin. by exists r.
Qed.

(** ** Spatial aggregator: how wide a bucket is *)








(** ** Geocoding: what the list holds, and failures *)

Section GeocodeListFacts.
Context {W : Type} {C : Collaborators W}.

Lemma resolved_nonzero (g : option Location) :
  resolved g = true ->
  ~ (coordinate (g ≫= latitude) == 0)%Q /\ ~ (coordinate (g ≫= longitude) == 0)%Q.
Proof.
  destruct g as [[[la|] [lo|]]|]; cbn; try done.
  - intros Hr. apply andb_prop in Hr as [Hla Hlo].
    apply negb_true_iff in Hla. apply negb_true_iff in Hlo.
    split; by apply Qeq_bool_neq.
  - intros Hr. by apply andb_prop in Hr as [_ ?].
Qed.

Lemma resolved_places_facts (names : list (list N)) (gs : list (option Location)) :
  Forall (fun p => ~ (fst (fst p) == 0)%Q /\ ~ (snd (fst p) == 0)%Q)
         (resolved_places names gs) /\
  map snd (resolved_places names gs) `sublist_of` names.
Proof.
  revert gs. induction names as [|n names IH]; intros gs.
  - cbn. split; [constructor|done].
  - destruct gs as [|g gs].
    + cbn. split; [constructor|apply sublist_nil_l].
    + rewrite resolved_places_cons. destruct (IH gs) as [Hnz Hsub].
      destruct (resolved g) eqn:Hres; cbn [app map snd].
      * split; [|by apply sublist_skip]. constructor; [|done].
        cbn. by apply resolved_nonzero.
      * split; [done|by apply sublist_cons].
Qed.

(** X7. Whatever the geocoder answers, no entry of the list that
    [geocode_places] returns has a zero latitude or a zero longitude, the
    names of the entries are names that were passed in, in the same order
    and each used at most once, and there are no more entries than
    names. *)
Theorem geocode_places_entries (names : list (list N)) (st st' : State W)
    (geos : list (Q * Q * list N)) :
  geocode_places names st = (Val geos, st') ->
  Forall (fun p => ~ (fst (fst p) == 0)%Q /\ ~ (snd (fst p) == 0)%Q) geos /\
  map snd geos `sublist_of` names /\
  (length geos <= length names)%nat.
Proof.
  unfold geocode_places. rewrite geocode_loop_rate_all.
  destruct (rate_all names st) as [[gs|e] s1]; [|done].
  intros [= <- _]. cbn [app].
  destruct (resolved_places_facts names gs) as [Hnz Hsub].
  split; [done|]. split; [done|].
  apply sublist_length in Hsub. by rewrite length_map in Hsub.
Qed.

Lemma geocode_loop_raises (names : list (list N)) (out : list (Q * Q * list N))
    (st st' : State W) (e : exn) :
  geocode_loop names out st = (Raise e, st') ->
  exists pre n post w w',
    names = pre ++ n :: post /\
    geocoder_calls st' = geocoder_calls st ++ pre ++ [n] /\
    geocode n w = (Raise e, w') /\
    same_saved st st'.
Proof.
  revert out st. induction names as [|n names IH]; intros out st; cbn [geocode_loop].
  - by unfold ret.
  - unfold bind. pose proof (rate_calls n st) as Hcalls.
    pose proof (quiet_rate n st) as Hquiet.
    destruct (rate n st) as [[g|e0] s1] eqn:Hrate; cbn in Hcalls, Hquiet.
    + intros Hrest. destruct (IH _ _ Hrest) as (pre & m & post & w & w' & -> & Hc & Hg & Hs).
      exists (n :: pre), m, post, w, w'. repeat split; try done.
      * rewrite Hc, Hcalls. by rewrite <- !app_assoc.
      * destruct Hquiet, Hs. congruence.
      * destruct Hquiet, Hs. congruence.
    + intros [= -> ->]. destruct (rate_outcome _ _ _ _ Hrate) as (_ & w & w' & Hg).
      exists [], n, names, w, w'. repeat split; try done; apply Hquiet.
Qed.

(** X8. When [geocode_places] raises, the exception is the one a
    geocoder call raised for one of the names; the names before it were
    asked in order, the names after it are never asked, and neither the
    rows to save nor the database have changed. *)
Theorem geocode_places_stops_at_failure (names : list (list N)) (st st' : State W)
    (e : exn) :
  geocode_places names st = (Raise e, st') ->
  exists pre n post w w',
    names = pre ++ n :: post /\
    geocoder_calls st' = geocoder_calls st ++ pre ++ [n] /\
    geocode n w = (Raise e, w') /\
    same_saved st st'.
Proof. apply geocode_loop_raises. Qed.

End GeocodeListFacts.

Lemma geocode_places_entries_witness :
  let geos := [((387 # 10)%Q, (-91 # 10)%Q, py "Lisboa"); ((411 # 10)%Q, (-86 # 10)%Q, py "Porto")] in
  Forall (fun p => ~ (fst (fst p) == 0)%Q /\ ~ (snd (fst p) == 0)%Q) geos /\
  map snd geos `sublist_of` [py "Quito"; py "Lisboa"; py "Atlantis"; py "Porto"] /\
  (length geos <= length [py "Quito"; py "Lisboa"; py "Atlantis"; py "Porto"])%nat.
Proof.
  intros geos.
  apply (geocode_places_entries (C := demo_collaborators)
           [py "Quito"; py "Lisboa"; py "Atlantis"; py "Porto"] (demo_state 0 None)
           (mkState 0 None [py "Quito"; py "Lisboa"; py "Atlantis"; py "Porto"]
                    [py "Quito"; py "Lisboa"; py "Atlantis"; py "Porto"]
                    build_lsh ∅ []) geos).
  reflexivity.
Defined.

Lemma geocode_places_stops_at_failure_witness :
  exists pre n post w w',
    [py "Lisboa"; py "Atlantis"; py "Porto"] = pre ++ n :: post /\
    [py "Lisboa"; py "Atlantis"] = [] ++ pre ++ [n] /\
    geocode (Collaborators := demo_flaky) n w = (Raise (Exception "ValueError"), w') /\
    same_saved (demo_state 0 None)
               (mkState 0 None [py "Lisboa"; py "Atlantis"] [py "Lisboa"; py "Atlantis"]
                        build_lsh ∅ []).
Proof.
  apply (geocode_places_stops_at_failure (C := demo_flaky)
           [py "Lisboa"; py "Atlantis"; py "Porto"] (demo_state 0 None)
           (mkState 0 None [py "Lisboa"; py "Atlantis"] [py "Lisboa"; py "Atlantis"]
                    build_lsh ∅ [])
           (Exception "ValueError")).
  reflexivity.
Defined.

(** ** Place extraction *)

Section PlaceFacts.
Context {W : Type} {U : Unicode} {C : Collaborators W}.

Lemma uniq_loop_facts (vals uniq : list (list N)) (seen : gset (list N)) :
  (forall x, x ∈ seen <-> x ∈ map lower uniq) ->
  NoDup (map lower uniq) ->
  uniq `prefix_of` uniq_loop vals uniq seen /\
  NoDup (map lower (uniq_loop vals uniq seen)) /\
  (forall P : list N -> Prop,
     Forall P uniq -> Forall (fun v => strip v <> [] -> P (strip v)) vals ->
     Forall P (uniq_loop vals uniq seen)) /\
  Forall (fun v => strip v <> [] ->
                   lower (strip v) ∈ map lower (uniq_loop vals uniq seen)) vals.
Proof.
  revert uniq seen. induction vals as [|v vals IH]; intros uniq seen Hseen Hnd;
    cbn [uniq_loop].
  - repeat split; try done.
  - cbn zeta.
    destruct (truthy_str (strip v) && negb (bool_decide (lower (strip v) ∈ seen))) eqn:Hk.
    + apply andb_prop in Hk as [Hne Hnew]. apply negb_true_iff in Hnew.
      apply bool_decide_eq_false in Hnew.
      destruct (IH (uniq ++ [strip v]) ({[lower (strip v)]} ∪ seen)) as (Hpre & Hnd' & HP & Hin).
      { intros x. rewrite map_app, elem_of_app, elem_of_union, elem_of_singleton, Hseen.
        cbn. rewrite list_elem_of_singleton. tauto. }
      { rewrite map_app. apply NoDup_app. repeat split; [done| |apply NoDup_singleton].
        intros x Hx Hx'. cbn in Hx'. apply list_elem_of_singleton in Hx' as ->.
        by apply Hnew, Hseen. }
      repeat split.
      * etrans; [|exact Hpre]. by apply prefix_app_r.
      * done.
      * intros P Hu Hv. apply Forall_cons in Hv as [Hhere Hv].
        apply HP; [|done]. apply Forall_app. split; [done|].
        constructor; [|done]. apply Hhere. by destruct (strip v).
      * constructor; [|done]. intros _.
        destruct Hpre as [rest ->]. rewrite !map_app. cbn.
        apply elem_of_app. left. apply elem_of_app. right. left.
    + destruct (IH uniq seen Hseen Hnd) as (Hpre & Hnd' & HP & Hin).
      repeat split; try done.
      * intros P Hu Hv. apply Forall_cons in Hv as [_ Hv]. by apply HP.
      * constructor; [|done]. intros Hne.
        destruct (strip v) as [|c k] eqn:Hs; [done|]. cbn in Hk.
        apply negb_false_iff, bool_decide_eq_true in Hk. apply Hseen in Hk.
        destruct Hpre as [rest ->]. rewrite map_app. apply elem_of_app. by left.
Qed.

(** X9. When [extract_places] returns, it returns at most five names;
    no two of them are equal up to case, none is empty, and each is the
    stripped text of an entity that the pipeline of the language labelled
    GPE or LOC. When the language has no pipeline, it raises [KeyError]
    and no pipeline is called. *)
Theorem extract_places_names (text lang : list N)
    (nlp : gmap (list N) (list N -> M W (list Ent))) (w : W) :
  (forall places w',
     extract_places text nlp lang w = (Val places, w') ->
     exists pipeline ents,
       nlp !! lang = Some pipeline /\ pipeline text w = (Val ents, w') /\
       (length places <= 5)%nat /\
       NoDup (map lower places) /\
       Forall (fun k => k <> [] /\
                        exists ent, ent ∈ ents /\ is_place_label (label_ ent) = true /\
                                    k = strip (ent_text ent)) places) /\
  (nlp !! lang = None ->
   extract_places text nlp lang w = (Raise (Exception "KeyError"), w)).
Proof.
  unfold extract_places. split; [|by intros ->].
  intros places w'. destruct (nlp !! lang) as [pipeline|]; [|done].
  unfold bind, ret. destruct (pipeline text w) as [[ents|e] w1] eqn:Hp; [|done].
  intros [= <- <-]. exists pipeline, ents. split; [done|]. split; [done|].
  set (vals := map ent_text (List.filter (fun ent => is_place_label (label_ ent)) ents)).
  destruct (uniq_loop_facts vals [] ∅) as (_ & Hnd & HP & _).
  { intros x. cbn. rewrite elem_of_nil. set_solver. }
  { constructor. }
  split; [|split].
  - rewrite length_take. lia.
  - rewrite <- (take_drop 5 (uniq_loop vals [] ∅)), map_app in Hnd.
    by apply NoDup_app in Hnd as [? _].
  - apply Forall_take.
    apply (HP (fun k => k <> [] /\
                 exists ent, ent ∈ ents /\ is_place_label (label_ ent) = true /\
                             k = strip (ent_text ent))); [constructor|].
    apply Forall_forall. intros v Hv Hne. split; [done|].
    unfold vals in Hv. apply list_elem_of_fmap in Hv as (ent & -> & Hent).
    apply list_elem_of_In, filter_In in Hent as [Hin Hlabel].
    exists ent. by rewrite list_elem_of_In.
Qed.

End PlaceFacts.

Lemma extract_places_names_witness :
  exists pipeline ents,
    demo_nlp !! py "pt" = Some pipeline /\ pipeline demo_story 7 = (Val ents, 7) /\
    (length [py "Lisboa"] <= 5)%nat /\
    NoDup (map (lower (Unicode := latin1)) [py "Lisboa"]) /\
    Forall (fun k => k <> [] /\
                     exists ent, ent ∈ ents /\ is_place_label (label_ ent) = true /\
                                 k = strip (U := latin1) (ent_text ent)) [py "Lisboa"].
Proof.
  apply (extract_places_names (U := latin1) demo_story (py "pt") demo_nlp 7).
  reflexivity.
Defined.

(** ** Text extraction: whitespace *)

Section WhitespaceFacts.
Context {W : Type} {U : Unicode} {C : Collaborators W}.

Lemma collapse_spaces_head (s : list N) (d : N) :
  head (collapse_spaces true s) = Some d -> isspace d = false.
Proof.
  induction s as [|c s IH]; cbn; [done|].
  destruct (isspace c) eqn:Hc; [done|]. cbn. by intros [= <-].
Qed.

Lemma collapse_spaces_facts (in_run : bool) (s : list N) :
  isspace 32%N = true ->
  let out := collapse_spaces in_run s in
  Forall (fun c => isspace c = true -> c = 32%N) out /\
  (forall i c d, out !! i = Some c -> out !! S i = Some d ->
                 isspace c = true -> isspace d = false) /\
  List.filter (fun c => negb (isspace c)) out = List.filter (fun c => negb (isspace c)) s /\
  (length out <= length s)%nat.
Proof.
  intros H32. revert in_run. induction s as [|c s IH]; intros in_run; cbn zeta.
  - cbn. repeat split; try done.
  - cbn [collapse_spaces].
    destruct (IH true) as (Ht1 & Ht2 & Ht3 & Ht4).
    destruct (IH false) as (Hf1 & Hf2 & Hf3 & Hf4). cbn zeta in *.
    destruct (isspace c) eqn:Hc; [destruct in_run|].
    + repeat split; try done.
      * cbn [List.filter]. by rewrite Hc.
      * cbn [length]. lia.
    + repeat split.
      * constructor; done.
      * intros [|i] x y Hx Hy Hsp.
        -- cbn in Hx, Hy. apply (collapse_spaces_head s).
           by destruct (collapse_spaces true s).
        -- cbn in Hx, Hy. exact (Ht2 i x y Hx Hy Hsp).
      * cbn [List.filter]. by rewrite H32, Hc.
      * cbn [length]. lia.
    + repeat split.
      * constructor; [|done]. congruence.
      * intros [|i] x y Hx Hy Hsp.
        -- cbn in Hx. injection Hx as <-. congruence.
        -- cbn in Hx, Hy. exact (Hf2 i x y Hx Hy Hsp).
      * cbn [List.filter]. rewrite Hc. cbn. by rewrite Hf3.
      * cbn [length]. lia.
Qed.

(** X10. With a whitespace table that counts the blank as whitespace:
    the text [fetch_clean_text] returns is the readable text of the page
    with its characters other than whitespace unchanged and in order, it
    is no longer than that text, its only whitespace character is the
    blank, and no two whitespace characters are adjacent in it. A failed
    request raises without the page being read. *)
Theorem fetch_clean_text_whitespace (url : list N) (w : W) :
  isspace 32%N = true ->
  (forall text w',
     fetch_clean_text url w = (Val text, w') ->
     exists html raw w1,
       requests_get_text url 20 w = (Val html, w1) /\
       readable_text html w1 = (Val raw, w') /\
       Forall (fun c => isspace c = true -> c = 32%N) text /\
       (forall i c d, text !! i = Some c -> text !! S i = Some d ->
                      isspace c = true -> isspace d = false) /\
       List.filter (fun c => negb (isspace c)) text
       = List.filter (fun c => negb (isspace c)) raw /\
       (length text <= length raw)%nat) /\
  (forall e w1, requests_get_text url 20 w = (Raise e, w1) ->
                fetch_clean_text url w = (Raise e, w1)).
Proof.
  intros H32. unfold fetch_clean_text, bind, ret. split.
  - intros text w'.
    destruct (requests_get_text url 20 w) as [[html|e] w1]; [|done].
    destruct (readable_text html w1) as [[raw|e] w2] eqn:Hread; [|done].
    intros [= <- <-]. exists html, raw, w1. split; [done|]. split; [done|].
    by apply collapse_spaces_facts.
  - intros e w1 ->. done.
Qed.

End WhitespaceFacts.

Lemma fetch_clean_text_whitespace_witness :
  exists html raw w1,
    requests_get_text (Collaborators := demo_news) (py "http://n/4") 20 3 = (Val html, w1) /\
    readable_text (Collaborators := demo_news) html w1 = (Val raw, 3) /\
    Forall (fun c => isspace (Unicode := latin1) c = true -> c = 32%N)
           (py "Sol de manhã, chuva de tarde.") /\
    (forall i c d, py "Sol de manhã, chuva de tarde." !! i = Some c ->
                   py "Sol de manhã, chuva de tarde." !! S i = Some d ->
                   isspace (Unicode := latin1) c = true ->
                   isspace (Unicode := latin1) d = false) /\
    List.filter (fun c => negb (isspace (Unicode := latin1) c)) (py "Sol de manhã, chuva de tarde.")
    = List.filter (fun c => negb (isspace (Unicode := latin1) c)) raw /\
    (length (py "Sol de manhã, chuva de tarde.") <= length raw)%nat.
Proof.
  apply (fetch_clean_text_whitespace (U := latin1) (C := demo_news) (py "http://n/4") 3);
    reflexivity.
Defined.

Example collapse_spaces_demo :
  collapse_spaces (U := latin1) false (py "  Roubo 	 em
  Lisboa  ") = py " Roubo em Lisboa ".
Proof. reflexivity. Qed.

(** ** Feed filter: what an item carries *)

Section ItemFacts.
Context {W : Type} {U : Unicode} {P : PyLib} {C : Collaborators W}.

Lemma lstrip_head (s : list N) (c : N) :
  head (lstrip s) = Some c -> isspace c = false.
Proof.
  induction s as [|d s IH]; cbn; [done|].
  destruct (isspace d) eqn:Hd; [done|]. cbn. by intros [= <-].
Qed.

Lemma lstrip_suffix (s : list N) : exists pre, s = pre ++ lstrip s.
Proof.
  induction s as [|d s [pre IH]]; cbn; [by exists []|].
  destruct (isspace d); [|by exists []].
  exists (d :: pre). cbn. by rewrite <- IH.
Qed.

Lemma strip_ends (s : list N) :
  strip s <> [] ->
  (exists c, head (strip s) = Some c /\ isspace c = false) /\
  (exists c, last (strip s) = Some c /\ isspace c = false).
Proof.
  unfold strip. intros Hne.
  destruct (lstrip_suffix (rev (lstrip s))) as [pre Hpre].
  destruct (lstrip (rev (lstrip s))) as [|c u] eqn:Hu; [done|].
  split.
  - apply (f_equal (@rev N)) in Hpre. rewrite rev_involutive, rev_app_distr in Hpre.
    destruct (rev (c :: u)) as [|x r] eqn:Hr; [done|].
    exists x. split; [done|]. apply (lstrip_head s). by rewrite Hpre.
  - exists c. split.
    + cbn [rev]. apply last_snoc.
    + apply (lstrip_head (rev (lstrip s))). by rewrite Hu.
Qed.

Lemma entries_loop_length (since : datetime) (entries : list Entry)
    (out items : list Item) (w w' : W) :
  entries_loop since entries out w = (Val items, w') ->
  out `prefix_of` items /\ (length items <= length out + length entries)%nat.
Proof.
  revert out w. induction entries as [|e entries IH]; intros out w; cbn [entries_loop].
  - unfold ret. intros [= <- _]. split; [done|lia].
  - unfold bind. destruct (entry_item since e w) as [[r|ex] w1]; [|done].
    intros Hrest. destruct (IH _ _ Hrest) as [Hpre Hlen]. destruct r as [it|].
    + split; [etrans; [|exact Hpre]; by apply prefix_app_r|].
      rewrite length_app in Hlen. cbn [length] in *. lia.
    + split; [done|]. cbn [length]. lia.
Qed.

Lemma entries_loop_app (since : datetime) (pre rest : list Entry) (out out1 : list Item)
    (w w1 : W) :
  entries_loop since pre out w = (Val out1, w1) ->
  entries_loop since (pre ++ rest) out w = entries_loop since rest out1 w1.
Proof.
  revert out w. induction pre as [|e pre IH]; intros out w; cbn [entries_loop app].
  - by intros [= -> ->].
  - unfold bind. destruct (entry_item since e w) as [[r|ex] wa]; [|done]. apply IH.
Qed.

Lemma utc_datetime_raises (args : list Z) (ex : exn) :
  utc_datetime args = Raise ex ->
  ex = Exception "OverflowError" \/ ex = Exception "TypeError" \/
  ex = Exception "ValueError".
Proof.
  unfold utc_datetime. destruct (negb (forallb is_c_int args)); [intros [= <-]; by left|].
  destruct args as [|y [|mo [|d rest]]]; try (intros [= <-]; right; by left).
  match goal with |- context [if ?b then _ else _] => destruct b end; [done|].
  intros [= <-]. right. by right.
Qed.

(** X11. Reading one feed entry raises only where it makes the publish
    time or compares it with the cutoff: the entry then has a link, a
    title and time fields, and either the fields make no date and the
    exception is the [OverflowError], [TypeError] or [ValueError] of the
    constructor, or the cutoff has no UTC offset and the exception is the
    [TypeError] of the comparison; nothing has been done to the outside
    world. It
    returns for an entry without link or title, for one without time
    fields, and for one whose fields make a date when the cutoff has a
    UTC offset. An entry with a link, a title and a publish time that is
    not before the cutoff yields an item with that time, and the clock is
    not read. Every item carries the link of its entry and a title that
    neither begins nor ends with whitespace. A feed adds at most one item
    per entry, after the items already collected; an entry that raises
    ends the loop over the feed with its exception. *)
Theorem entry_item_kept (since : datetime) (e : Entry) (w : W) :
  (forall ex w',
     entry_item since e w = (Raise ex, w') ->
     w' = w /\ has_link_and_title e = true /\
     (ex = Exception "OverflowError" \/ ex = Exception "TypeError" \/
      ex = Exception "ValueError") /\
     exists args,
       publish_tuple e = Some args /\
       (utc_datetime args = Raise ex \/
        exists t c, utc_datetime args = Val t /\ since = naive c /\
                    ex = Exception "TypeError")) /\
  (has_link_and_title e = false \/ publish_tuple e = None \/
   (exists args t c,
      publish_tuple e = Some args /\ utc_datetime args = Val t /\ since = aware c) ->
   exists r w', entry_item since e w = (Val r, w')) /\
  (forall l ttl args t c,
     entry_link e = Some l -> l <> [] -> entry_title e = Some ttl -> strip ttl <> [] ->
     publish_tuple e = Some args -> utc_datetime args = Val t ->
     since = aware c -> c <= t ->
     entry_item since e w = (Val (Some (mkItem (strip ttl) l (isoformat t))), w)) /\
  (forall it w',
     entry_item since e w = (Val (Some it), w') ->
     entry_link e = Some (item_link it) /\
     (exists c, head (item_title it) = Some c /\ isspace c = false) /\
     (exists c, last (item_title it) = Some c /\ isspace c = false)) /\
  (forall entries out items w',
     entries_loop since entries out w = (Val items, w') ->
     out `prefix_of` items /\ (length items <= length out + length entries)%nat) /\
  (forall pre post out out1 w1 ex w2,
     entries_loop since pre out w = (Val out1, w1) ->
     entry_item since e w1 = (Raise ex, w2) ->
     entries_loop since (pre ++ e :: post) out w = (Raise ex, w2)).
Proof.
  split; [|split; [|split; [|split; [|split]]]].
  - intros ex w'. rewrite entry_item_cases.
    destruct (has_link_and_title e); [|done].
    destruct (publish_tuple e) as [args|]; [|done].
    destruct (utc_datetime args) as [t|ex0] eqn:Hdate.
    + destruct since as [c|c]; cbn [aware_lt].
      * by destruct (t <? c).
      * intros [= <- <-]. split; [done|]. split; [done|]. split; [right; by left|].
        exists args. split; [done|]. right. by exists t, c.
    + intros [= <- <-]. split; [done|]. split; [done|].
      split; [by apply (utc_datetime_raises args)|].
      exists args. split; [done|]. by left.
  - rewrite entry_item_cases.
    intros [Hlt|[Hpub|(args & t & c & Hpub & Hdate & ->)]].
    + rewrite Hlt. by eauto.
    + rewrite Hpub. destruct (has_link_and_title e); by eauto.
    + rewrite Hpub, Hdate. cbn [aware_lt].
      destruct (has_link_and_title e); [|by eauto]. destruct (t <? c); by eauto.
  - intros l ttl args t c Hl Hne Ht Hs Hpub Hdate -> Hfresh.
    rewrite entry_item_cases, Hpub, Hdate. unfold has_link_and_title. rewrite Hl, Ht.
    destruct l as [|x l]; [done|].
    cbn [truthy_opt truthy_str default from_option andb aware_lt]. unfold Datatypes.id.
    destruct (strip ttl) eqn:Hstrip; [done|].
    apply Z.ltb_ge in Hfresh. cbn [truthy_str]. by rewrite Hfresh.
  - intros it w' Hitem. apply entry_item_exact in Hitem.
    destruct (kept since e); [|done].
    destruct Hitem as (it' & [= <-] & Hl & _ & Ht & Hne & _).
    split; [done|]. rewrite Ht. apply strip_ends. by rewrite <- Ht.
  - intros entries out items w'. apply entries_loop_length.
  - intros pre post out out1 w1 ex w2 Hpre He.
    rewrite (entries_loop_app _ _ _ _ _ _ _ Hpre). cbn [entries_loop]. unfold bind.
    by rewrite He.
Qed.

End ItemFacts.

Lemma entry_item_kept_witness :
  let e := mkEntry (Some (py "http://n/8")) (Some (py "  Quito "))
                   (Some [2024; 5; 2; 9; 0; 0; 3; 123; 0]) None in
  entry_item (U := latin1) (P := demo_pylib) (C := demo_news)
    (aware 63839664000000000) e 1000
  = (Val (Some (mkItem (strip (U := latin1) (py "  Quito ")) (py "http://n/8")
                       (isoformat (PyLib := demo_pylib) 63850237200000000))), 1000).
Proof.
  intros e.
  apply (entry_item_kept (U := latin1) (P := demo_pylib) (C := demo_news)
           (aware 63839664000000000) e 1000)
    with (args := [2024; 5; 2; 9; 0; 0]) (c := 63839664000000000);
    [reflexivity | discriminate | reflexivity | vm_compute; discriminate
    | reflexivity | reflexivity | reflexivity | vm_compute; discriminate].
Defined.

(** ** Tokens and their bytes *)

Lemma startswith_app (k post : list N) : startswith (k ++ post) k = true.
Proof. induction k as [|c k IH]; cbn; [by destruct post|]. by rewrite N.eqb_refl, IH. Qed.

Lemma contains_app (pre k post : list N) : contains (pre ++ k ++ post) k = true.
Proof.
  induction pre as [|c pre IH].
  - cbn [app]. pose proof (startswith_app k post) as Hs.
    destruct (k ++ post); cbn [contains]; by rewrite Hs.
  - cbn. rewrite IH. apply orb_true_r.
Qed.

Section TokenFacts.
Context {U : Unicode}.

Lemma word_runs_facts (cur s : list N) :
  Forall (fun c => isword c = true) cur ->
  Forall (fun r => Forall (fun c => isword c = true) r /\
                   exists pre post, rev cur ++ s = pre ++ r ++ post)
         (word_runs cur s).
Proof.
  revert cur. induction s as [|c s IH]; intros cur Hcur; cbn [word_runs].
  - constructor; [|constructor]. split.
    + apply Forall_forall. intros x Hx. rewrite Forall_forall in Hcur.
      apply Hcur. apply list_elem_of_In. apply list_elem_of_In, in_rev in Hx. done.
    + exists [], []. by rewrite !app_nil_r.
  - destruct (isword c) eqn:Hc.
    + specialize (IH (c :: cur) ltac:(by constructor)).
      eapply Forall_impl; [exact IH|]. intros r [Hr (pre & post & Heq)].
      split; [done|]. exists pre, post. rewrite <- Heq. cbn [rev].
      by rewrite <- app_assoc.
    + constructor.
      * split.
        -- apply Forall_forall. intros x Hx. rewrite Forall_forall in Hcur.
           apply Hcur. apply list_elem_of_In. apply list_elem_of_In, in_rev in Hx. done.
        -- exists [], (c :: s). done.
      * specialize (IH [] ltac:(constructor)).
        eapply Forall_impl; [exact IH|]. intros r [Hr (pre & post & Heq)].
        split; [done|]. exists (rev cur ++ c :: pre), post.
        cbn in Heq. rewrite Heq. by rewrite <- app_assoc.
Qed.

(** X12. Every token of a text has at least five characters, all of them
    word characters, and occurs in the lowercased text as a contiguous run
    (it is [in] that text); a text whose lowercase form has fewer than five
    characters has no token. *)
Theorem tokens_are_long_words (text tok : list N) :
  (tok ∈ tokens text ->
   (5 <= length tok)%nat /\
   Forall (fun c => isword c = true) tok /\
   (exists pre post, lower text = pre ++ tok ++ post) /\
   contains (lower text) tok = true) /\
  ((length (lower text) < 5)%nat -> tokens text = ∅).
Proof.
  assert (Htok : forall t, t ∈ tokens text ->
            (5 <= length t)%nat /\ Forall (fun c => isword c = true) t /\
            (exists pre post, lower text = pre ++ t ++ post)).
  { intros t Hin. unfold tokens, findall_w5 in Hin.
    apply elem_of_list_to_set, list_elem_of_In, filter_In in Hin as [Hin Hlen].
    apply Nat.leb_le in Hlen. split; [done|].
    pose proof (word_runs_facts [] (lower text) ltac:(constructor)) as Hruns.
    rewrite Forall_forall in Hruns. apply list_elem_of_In in Hin.
    by destruct (Hruns t Hin). }
  split.
  - intros Hin. destruct (Htok tok Hin) as (Hlen & Hw & pre & post & Heq).
    repeat split; try done; [by exists pre, post|].
    rewrite Heq. apply contains_app.
  - intros Hshort. apply leibniz_equiv. apply elem_of_equiv_empty. intros t Hin.
    destruct (Htok t Hin) as (Hlen & _ & pre & post & Heq).
    rewrite Heq, !length_app in Hshort. lia.
Qed.

End TokenFacts.

Lemma tokens_are_long_words_witness :
  (5 <= length (py "robbery"))%nat /\
  Forall (fun c => isword (Unicode := latin1) c = true) (py "robbery") /\
  (exists pre post, lower (Unicode := latin1) (py "Armed ROBBERY at the bank")
                    = pre ++ py "robbery" ++ post) /\
  contains (lower (Unicode := latin1) (py "Armed ROBBERY at the bank")) (py "robbery") = true.
Proof.
  apply (tokens_are_long_words (U := latin1) (py "Armed ROBBERY at the bank") (py "robbery")).
  apply (bool_decide_unpack _). vm_compute. exact I.
Defined.

Lemma utf8_decode_encode_cp (c : N) (rest : list N) :
  (c < 2097152)%N ->
  utf8_decode (utf8_encode_cp c ++ rest) = c :: utf8_decode rest.
Proof.
  intros Hc. unfold utf8_encode_cp.
  destruct (N.ltb_spec c 128) as [H1|H1].
  { cbn [app utf8_decode]. apply N.ltb_lt in H1. by rewrite H1. }
  destruct (N.ltb_spec c 2048) as [H2|H2].
  { cbn [app utf8_decode].
    assert (Ha : (192 + c / 64 <? 128)%N = false) by (apply N.ltb_ge; solve_div).
    assert (Hb : (192 + c / 64 <? 224)%N = true) by (apply N.ltb_lt; solve_div).
    rewrite Ha, Hb. f_equal. solve_div. }
  destruct (N.ltb_spec c 65536) as [H3|H3].
  { cbn [app utf8_decode].
    assert (Ha : (224 + c / 4096 <? 128)%N = false) by (apply N.ltb_ge; solve_div).
    assert (Hb : (224 + c / 4096 <? 224)%N = false) by (apply N.ltb_ge; solve_div).
    assert (Hd : (224 + c / 4096 <? 240)%N = true) by (apply N.ltb_lt; solve_div).
    rewrite Ha, Hb, Hd. f_equal. solve_div. }
  cbn [app utf8_decode].
  assert (Ha : (240 + c / 262144 <? 128)%N = false) by (apply N.ltb_ge; solve_div).
  assert (Hb : (240 + c / 262144 <? 224)%N = false) by (apply N.ltb_ge; solve_div).
  assert (Hd : (240 + c / 262144 <? 240)%N = false) by (apply N.ltb_ge; solve_div).
  rewrite Ha, Hb, Hd. f_equal. solve_div.
Qed.

Lemma utf8_decode_encode (s : list N) :
  Forall (fun c => (c < 1114112)%N) s -> utf8_decode (encode s) = s.
Proof.
  unfold encode. induction 1 as [|c s Hc Hs IH]; [done|].
  cbn [flat_map]. rewrite utf8_decode_encode_cp by lia. by rewrite IH.
Qed.

Lemma str_encode_cases (s : list N) :
  (Exists (fun c => is_surrogate c = true) s /\
   str_encode s = Raise (Exception "UnicodeEncodeError")) \/
  (Forall (fun c => is_surrogate c = false) s /\ str_encode s = Val (encode s)).
Proof.
  unfold str_encode. destruct (existsb is_surrogate s) eqn:Hex.
  - left. split; [|done]. apply existsb_exists in Hex as (c & Hin & Hc).
    apply Exists_exists. exists c. split; [by apply list_elem_of_In|done].
  - right. split; [|done]. apply Forall_forall. intros c Hin.
    apply not_true_is_false. intros Hc.
    assert (Hex' : existsb is_surrogate s = true).
    { apply existsb_exists. exists c. split; [by apply list_elem_of_In|done]. }
    congruence.
Qed.

Lemma str_encode_val (s b : list N) : str_encode s = Val b -> b = encode s.
Proof. unfold str_encode. destruct (existsb is_surrogate s); congruence. Qed.

Section TokenBytes.
Context {U : Unicode}.

Lemma token_word_chars (text tok : list N) :
  tok ∈ tokens text -> Forall (fun c => isword c = true) tok.
Proof.
  intros Hin. unfold tokens, findall_w5 in Hin.
  apply elem_of_list_to_set, list_elem_of_In, filter_In in Hin as [Hin _].
  pose proof (word_runs_facts [] (lower text) ltac:(constructor)) as Hruns.
  rewrite Forall_forall in Hruns. apply list_elem_of_In in Hin.
  by destruct (Hruns tok Hin).
Qed.

(** X13. [s.encode()] raises [UnicodeEncodeError] exactly when the string
    holds a surrogate, and otherwise returns the UTF-8 bytes. On strings
    of Unicode code points (below 0x110000) that it encodes, reading the
    bytes gives the string back, so different strings are encoded, and
    then hashed, as different byte strings. A token holds no surrogate, so
    encoding the tokens of a text never raises. *)
Theorem encode_injective (s1 s2 : list N) :
  (str_encode s1 = Raise (Exception "UnicodeEncodeError") <->
   Exists (fun c => is_surrogate c = true) s1) /\
  (str_encode s1 = Val (encode s1) <-> Forall (fun c => is_surrogate c = false) s1) /\
  (forall b1 b2,
     Forall (fun c => (c < 1114112)%N) s1 -> Forall (fun c => (c < 1114112)%N) s2 ->
     str_encode s1 = Val b1 -> str_encode s2 = Val b2 ->
     utf8_decode b1 = s1 /\ (b1 = b2 -> s1 = s2)) /\
  (forall text, s1 ∈ tokens text -> str_encode s1 = Val (encode s1)).
Proof.
  split; [|split; [|split]].
  - destruct (str_encode_cases s1) as [[Hex ->]|[Hall ->]]; [done|].
    split; [done|]. intros Hex. exfalso.
    apply Exists_exists in Hex as (c & Hin & Hc). rewrite Forall_forall in Hall.
    specialize (Hall c Hin). congruence.
  - destruct (str_encode_cases s1) as [[Hex ->]|[Hall ->]]; [|done].
    split; [done|]. intros Hall. exfalso.
    apply Exists_exists in Hex as (c & Hin & Hc). rewrite Forall_forall in Hall.
    specialize (Hall c Hin). congruence.
  - intros b1 b2 H1 H2 Hb1 Hb2.
    apply str_encode_val in Hb1 as ->. apply str_encode_val in Hb2 as ->.
    split; [by apply utf8_decode_encode|].
    intros Heq. apply (f_equal utf8_decode) in Heq.
    by rewrite !utf8_decode_encode in Heq.
  - intros text Hin. destruct (str_encode_cases s1) as [[Hex _]|[_ ->]]; [exfalso|done].
    apply Exists_exists in Hex as (c & Hc & Hsur).
    pose proof (token_word_chars text s1 Hin) as Hw. rewrite Forall_forall in Hw.
    specialize (Hw c Hc). rewrite (isword_surrogate c Hsur) in Hw. done.
Qed.

End TokenBytes.

Lemma encode_injective_witness :
  utf8_decode (encode (py "milícia €")) = py "milícia €" /\
  (encode (py "milícia €") = encode (py "milicia") -> py "milícia €" = py "milicia").
Proof.
  apply (proj1 (proj2 (proj2 (encode_injective (U := latin1)
                                (py "milícia €") (py "milicia")))));
    try reflexivity;
    apply Forall_forall; intros c Hc; vm_compute in Hc;
    repeat (apply elem_of_cons in Hc as [->|Hc]; [reflexivity|]);
    by apply elem_of_nil in Hc.
Defined.

Example str_encode_surrogate :
  str_encode [104; 55357; 105]%N = Raise (Exception "UnicodeEncodeError").
Proof. reflexivity. Qed.

(** ** Near-duplicate index: insert, then query *)

Section IndexFacts.
Context {U : Unicode} {HF : HashFamily} {B : Banding}.

Lemma lsh_insert_all_fields (lsh : MinHashLSH) (entries : list (list N * MinHash)) :
  threshold (lsh_insert_all lsh entries) = threshold lsh /\
  lsh_num_perm (lsh_insert_all lsh entries) = lsh_num_perm lsh /\
  inserted (lsh_insert_all lsh entries) = inserted lsh ++ entries.
Proof.
  unfold lsh_insert_all. revert lsh.
  induction entries as [|[k m] entries IH]; intros lsh; cbn [foldl fst snd].
  - by rewrite app_nil_r.
  - destruct (IH (lsh_insert lsh k m)) as (-> & -> & ->). cbn.
    by rewrite <- app_assoc.
Qed.

Lemma update_length (m : MinHash) (b : list N) :
  length (hashvalues (update m b)) = length (hashvalues m).
Proof. unfold update. cbn. apply length_imap. Qed.

Lemma text_signature_length (text : list N) :
  length (hashvalues (text_signature text)) = 128%nat.
Proof.
  unfold text_signature, text_signature_with.
  generalize (elements (tokens text)). intros toks.
  assert (Hgen : forall m, length (hashvalues
                   (foldl (fun m t => update m (encode t)) m toks))
                 = length (hashvalues m)).
  { induction toks as [|t toks IH]; intros m; cbn [foldl]; [done|].
    by rewrite IH, update_length. }
  rewrite Hgen. unfold MinHash_new. cbn [hashvalues]. apply length_replicate.
Qed.

Lemma equal_slots_same (m : MinHash) : equal_slots m m = length (hashvalues m).
Proof.
  unfold equal_slots. induction (hashvalues m) as [|x l IH]; [done|].
  cbn. by rewrite Z.eqb_refl, IH.
Qed.

(** X14. In the index as modelled from the specification, with at
    least one band: starting from the empty index of [build_lsh], once the
    signature of a text has been inserted under a key, a query with the
    signature of any text that has the same tokens returns that key,
    whatever was inserted before and after; and the empty index answers
    every query with nothing. *)
Theorem lsh_finds_what_was_inserted (before after : list (list N * MinHash))
    (key text1 text2 : list N) :
  (0 < bands)%nat -> tokens text1 = tokens text2 ->
  key ∈ lsh_query
          (lsh_insert_all
             (lsh_insert (lsh_insert_all build_lsh before) key (text_signature text1))
             after)
          (text_signature text2) /\
  lsh_query build_lsh (text_signature text2) = [].
Proof.
  intros Hb Htok. split; [|done].
  assert (Hsig : text_signature text1 = text_signature text2).
  { unfold text_signature, text_signature_with. by rewrite Htok. }
  unfold lsh_query.
  destruct (lsh_insert_all_fields
              (lsh_insert (lsh_insert_all build_lsh before) key (text_signature text1))
              after) as (-> & -> & ->).
  cbn [lsh_insert threshold lsh_num_perm inserted].
  destruct (lsh_insert_all_fields build_lsh before) as (-> & -> & ->).
  cbn [build_lsh build_lsh_with threshold lsh_num_perm inserted app].
  apply (list_elem_of_fmap_2 fst _ (key, text_signature text1)).
  apply list_elem_of_In, filter_In. split.
  - apply list_elem_of_In. rewrite !elem_of_app. left. right. left.
  - cbn [snd]. rewrite Hsig, shares_band_refl by done.
    unfold jaccard. rewrite equal_slots_same, text_signature_length. reflexivity.
Qed.

End IndexFacts.

Lemma lsh_finds_what_was_inserted_witness :
  py "k1" ∈ lsh_query (B := demo_banding)
    (lsh_insert_all
       (lsh_insert (lsh_insert_all build_lsh []) (py "k1")
          (text_signature (U := latin1) (HF := demo_hash) demo_story))
       [(py "k2", text_signature (U := latin1) (HF := demo_hash) demo_story_porto)])
    (text_signature (U := latin1) (HF := demo_hash)
       (py "SEQUESTRO, tiroteio, fraude: roubo em Lisboa; furto (joias)")) /\
  lsh_query (B := demo_banding) build_lsh
    (text_signature (U := latin1) (HF := demo_hash)
       (py "SEQUESTRO, tiroteio, fraude: roubo em Lisboa; furto (joias)")) = [].
Proof.
  apply (lsh_finds_what_was_inserted (U := latin1) (HF := demo_hash) (B := demo_banding)
           [] [(py "k2", text_signature (U := latin1) (HF := demo_hash) demo_story_porto)]
           (py "k1") demo_story
           (py "SEQUESTRO, tiroteio, fraude: roubo em Lisboa; furto (joias)")).
  - vm_compute. lia.
  - vm_compute. reflexivity.
Defined.

(** ** The run: rows queued, rows saved *)

Section QueueFacts.
Context {W : Type} {U : Unicode} {P : PyLib} {HF : HashFamily} {B : Banding}
        {C : Collaborators W}.

Lemma lang_of_codes (text : list N) (w w' : W) (l : list N) :
  lang_of text w = (Val l, w') -> l = py "pt" \/ l = py "en".
Proof.
  unfold lang_of, try_except, bind, ret.
  destruct (detect (take 2000 text) w) as [[code|e] w1].
  - destruct (startswith code (py "pt")); intros [= <- _]; [by left|by right].
  - intros [= <- _]. by right.
Qed.

Lemma ext_val {A} (c : M W A) (st st' : State W) (a : A) :
  ext c st = (Val a, st') -> exists w', c (world st) = (Val a, w').
Proof.
  unfold ext. destruct (c (world st)) as [o w'] eqn:Hc. intros [= -> _]. by exists w'.
Qed.

Lemma crime_score_le_1 (text lang : list N) (s : Q) :
  crime_score text lang = Val s -> (s <= 1)%Q.
Proof.
  unfold crime_score. destruct (CRIME_KEYWORDS !! lang); [|done].
  intros [= <-]. apply score_of_range. unfold len. lia.
Qed.

Lemma item_steps_outcome (nlp : gmap (list N) (list N -> M W (list Ent))) (it : Item)
    (st : State W) :
  same_saved st (snd (item_steps nlp it st)) \/
  (fst (item_steps nlp it st) = Val tt /\
   db (snd (item_steps nlp it st)) = db st /\
   exists e, to_save (snd (item_steps nlp it st)) = to_save st ++ [e] /\ row_of_item it e).
Proof.
  unfold item_steps, bind.
  pose proof (quiet_ext (fetch_clean_text (item_link it)) st) as Q1.
  destruct (ext (fetch_clean_text (item_link it)) st) as [[text|e1] s1];
    cbn [snd] in Q1; [|by left].
  pose proof (quiet_ext (lang_of text) s1) as Q2.
  destruct (ext (lang_of text) s1) as [[lang|e2] s2] eqn:E2; cbn [snd] in Q2;
    [|left; by eapply same_saved_trans].
  apply ext_val in E2 as [w2 Hlang]. apply lang_of_codes in Hlang.
  assert (Q02 : same_saved st s2) by (by eapply same_saved_trans).
  unfold lift_outcome.
  destruct (crime_score text lang) as [s|e3] eqn:Es; [|by left].
  destruct (negb (Qle_bool (6 # 10) s)) eqn:Hgate; [by left|].
  apply negb_false_iff, Qle_bool_iff in Hgate.
  unfold lsh_query_now.
  destruct (truthy_list (lsh_query (lsh s2) (text_signature text))); [by left|].
  destruct (str_encode (item_link it)) as [link_bytes|e4]; [|by left].
  set (s3 := snd (remember_signature (sha1_hexdigest link_bytes)
                    (text_signature text) s2)).
  assert (Q03 : same_saved st s3).
  { eapply same_saved_trans; [exact Q02|]. apply quiet_remember_signature. }
  change (remember_signature (sha1_hexdigest link_bytes)
            (text_signature text) s2) with (Val tt, s3).
  cbv iota.
  pose proof (quiet_ext (extract_places text nlp lang) s3) as Q4.
  destruct (ext (extract_places text nlp lang) s3) as [[places|e5] s4]; cbn [snd] in Q4;
    [|left; by eapply same_saved_trans].
  assert (Q04 : same_saved st s4) by (by eapply same_saved_trans).
  pose proof (quiet_geocode_places places s4) as Q5.
  unfold geocode_places in *. rewrite geocode_loop_rate_all in *.
  destruct (rate_all places s4) as [[gs|e6] s5]; cbn [snd] in Q5;
    [|left; by eapply same_saved_trans].
  assert (Q05 : same_saved st s5) by (by eapply same_saved_trans).
  cbn [app]. destruct (resolved_places_facts places gs) as [Hnz _].
  destruct (resolved_places places gs) as [|[[lat lon] place] geos']; [by left|].
  apply Forall_cons in Hnz as [[Hlat Hlon] _]. cbn [fst snd] in Hlat, Hlon.
  right. unfold ext, dt_utc, to_save_append.
  destruct (datetime_now_utc (world s5)) as [now w6]. cbn.
  destruct Q05 as [Hsave Hdb]. split; [done|]. split; [done|].
  eexists. split; [by rewrite Hsave|].
  unfold row_of_item. cbn. repeat split; try done.
  by eapply crime_score_le_1.
Qed.

Lemma process_item_outcome (nlp : gmap (list N) (list N -> M W (list Ent))) (it : Item)
    (st : State W) :
  db (snd (process_item nlp it st)) = db st /\
  (to_save (snd (process_item nlp it st)) = to_save st \/
   exists e, to_save (snd (process_item nlp it st)) = to_save st ++ [e] /\
             row_of_item it e).
Proof.
  rewrite process_item_state.
  destruct (item_steps_outcome nlp it st) as [[Hs Hd]|(_ & Hd & e & Hs & Hrow)].
  - split; [done|by left].
  - split; [done|]. right. by exists e.
Qed.

Lemma loop_outcome (nlp : gmap (list N) (list N -> M W (list Ent))) (items : list Item)
    (st : State W) :
  db (snd (for_each items (process_item nlp) st)) = db st /\
  exists new,
    to_save (snd (for_each items (process_item nlp) st)) = to_save st ++ new /\
    (length new <= length items)%nat /\
    Forall (fun e => exists it, it ∈ items /\ row_of_item it e) new /\
    omap ev_link new `sublist_of` map item_link items.
Proof.
  revert st. induction items as [|it items IH]; intros st; cbn [for_each].
  - cbn. split; [done|]. exists []. rewrite app_nil_r. repeat split; try done.
  - unfold bind. destruct (process_item_outcome nlp it st) as [Hd Hs].
    destruct (process_item nlp it st) as [[[]|e] s1]; cbn [snd] in Hd, Hs.
    + destruct (IH s1) as (Hd' & new & Hs' & Hlen & Hrows & Hsub).
      split; [congruence|].
      assert (Hlift : Forall (fun e => exists it0, it0 ∈ it :: items /\ row_of_item it0 e) new).
      { eapply Forall_impl; [exact Hrows|]. intros e (it0 & ? & ?).
        exists it0. split; [by right|done]. }
      destruct Hs as [Hs|(e & Hs & Hrow)].
      * exists new. rewrite Hs', Hs. repeat split; try done.
        -- cbn [length]. lia.
        -- cbn [map]. by apply sublist_cons.
      * exists (e :: new). rewrite Hs', Hs, <- app_assoc. repeat split; try done.
        -- cbn [length]. lia.
        -- constructor; [|done]. exists it. split; [left|done].
        -- cbn [omap list_omap map]. destruct Hrow as [-> _]. cbn.
           by apply sublist_skip.
    + cbn [snd]. split; [done|].
      destruct Hs as [Hs|(e0 & Hs & Hrow)].
      * exists []. rewrite app_nil_r. repeat split; try done.
        -- cbn. lia.
        -- apply sublist_nil_l.
      * exists [e0]. repeat split; try done.
        -- cbn. lia.
        -- constructor; [|done]. exists it. split; [left|done].
        -- cbn [omap list_omap map]. destruct Hrow as [-> _]. cbn.
           apply sublist_skip, sublist_nil_l.
Qed.

(** X15. Processing one item never touches the database and queues at
    most one row; a queued row has the item's link, title and publication
    date, language "pt" or "en", a score between 0.6 and 1, and a latitude
    and longitude that are not zero. Over the loop, also when it is cut
    short, the rows queued are such rows for the items given, at most one
    per item and in the order of the items, and the database is still
    untouched. *)
Theorem queued_rows (nlp : gmap (list N) (list N -> M W (list Ent)))
    (it : Item) (items : list Item) (st : State W) :
  (db (snd (process_item nlp it st)) = db st /\
   (to_save (snd (process_item nlp it st)) = to_save st \/
    exists e, to_save (snd (process_item nlp it st)) = to_save st ++ [e] /\
              row_of_item it e)) /\
  (db (snd (for_each items (process_item nlp) st)) = db st /\
   exists new,
     to_save (snd (for_each items (process_item nlp) st)) = to_save st ++ new /\
     (length new <= length items)%nat /\
     Forall (fun e => exists it', it' ∈ items /\ row_of_item it' e) new /\
     omap ev_link new `sublist_of` map item_link items).
Proof. split; [apply process_item_outcome|apply loop_outcome]. Qed.

End QueueFacts.

Lemma executemany_grows (rows : list Event) (t : list StoredEvent) :
  t `prefix_of` foldl insert_or_ignore t rows /\
  (length (foldl insert_or_ignore t rows) <= length t + length rows)%nat.
Proof.
  revert t. induction rows as [|e rows IH]; intros t; cbn [foldl].
  { split; [done|lia]. }
  destruct (IH (insert_or_ignore t e)) as [Hpre Hlen].
  assert (Hstep : t `prefix_of` insert_or_ignore t e /\
                  (length (insert_or_ignore t e) <= S (length t))%nat).
  { unfold insert_or_ignore. destruct (link_conflict (ev_link e) t).
    - split; [done|lia].
    - split; [by apply prefix_app_r|]. rewrite length_app. cbn. lia. }
  destruct Hstep as [Hpre1 Hlen1]. split; [by etrans|]. cbn [length]. lia.
Qed.

Lemma slice_to_length {A} (n : Z) (l : list A) :
  slice_to n l `prefix_of` l /\ (0 <= n -> Z.of_nat (length (slice_to n l)) <= n).
Proof.
  unfold slice_to. destruct (0 <=? n) eqn:Hn.
  - split; [apply prefix_take|]. intros _. rewrite length_take. lia.
  - split; [apply prefix_take|]. apply Z.leb_gt in Hn. lia.
Qed.

Section StatsFacts.
Context {W : Type} {U : Unicode} {P : PyLib} {HF : HashFamily} {B : Banding}
        {C : Collaborators W}.

Lemma prepare_run_facts (urls : list (list N)) (since : list N) (top_n : Z)
    (st s1 : State W) (p : gmap (list N) (list N -> M W (list Ent)) * list Item) :
  prepare_run urls since top_n st = (Val p, s1) ->
  to_save s1 = [] /\ db s1 = ensure_db (db st) /\
  (0 <= top_n -> Z.of_nat (length (snd p)) <= top_n).
Proof.
  unfold prepare_run, bind, on_db, start_run, ret. cbn [fst snd].
  set (s0 := mkState (world st) (ensure_db (db st)) (geocoder_calls st)
                     (geocoder_requests st) (lsh st) (sig_index st) (to_save st)).
  pose proof (quiet_ext load_pipelines s0) as Q1.
  destruct (ext load_pipelines s0) as [[nlp|e] sa]; cbn [snd] in Q1; [|done].
  pose proof (quiet_ext (fetch_rss_items urls since) sa) as Q2.
  destruct (ext (fetch_rss_items urls since) sa) as [[fetched|e] sb]; cbn [snd] in Q2;
    [|done].
  intros [= <- <-]. cbn. split; [done|]. split.
  - destruct Q1 as [_ Hd1], Q2 as [_ Hd2]. by rewrite Hd2, Hd1.
  - apply slice_to_length.
Qed.

Lemma finish_run_facts (s2 st' : State W) (stats : Stats) :
  finish_run s2 = (Val stats, st') ->
  to_save st' = to_save s2 /\
  stats_inserted stats = Z.of_nat (length (to_save s2)) /\
  stats_heatmap_file stats = py "heatmap.html" /\
  exists t1,
    db s2 = Some t1 /\
    db st' = Some (foldl insert_or_ignore t1 (to_save s2)) /\
    stats_points stats
    = Z.of_nat (length (group_count (foldl insert_or_ignore t1 (to_save s2)))).
Proof.
  unfold finish_run, bind.
  destruct (db s2) as [t1|] eqn:Hdb.
  - assert (Hsave :
      (if truthy_list (to_save s2) then on_db (save_events (to_save s2)) else ret tt) s2
      = (Val tt, mkState (world s2) (Some (foldl insert_or_ignore t1 (to_save s2)))
                         (geocoder_calls s2) (geocoder_requests s2) (lsh s2)
                         (sig_index s2) (to_save s2))).
    { destruct (truthy_list (to_save s2)) eqn:Htr.
      - unfold on_db. rewrite Hdb. done.
      - assert (Hnil : to_save s2 = []) by (by destruct (to_save s2)).
        unfold ret. rewrite Hnil at 1. cbn [foldl]. rewrite <- Hdb. by destruct s2. }
    rewrite Hsave. unfold on_db at 1. cbn [db aggregate world geocoder_calls geocoder_requests lsh sig_index to_save].
    unfold ext, build_heatmap, bind, ret. cbn [world].
    destruct (folium_save _ (py "heatmap.html") (world s2)) as [[[]|e] w']; [|done].
    intros [= <- <-]. cbn. repeat split. by exists t1.
  - assert (Hfail : forall rows, exists e s,
      (let* _ := if truthy_list rows then on_db (save_events rows) else ret tt in
       let* pts := on_db aggregate in
       let* out := ext (build_heatmap pts (py "heatmap.html")) in
       ret (mkStats (Z.of_nat (length rows)) (Z.of_nat (length pts)) out)) s2
      = (Raise e, s)).
    { intros rows. unfold bind. destruct rows as [|r rows]; cbn [truthy_list].
      - unfold ret, on_db. rewrite Hdb. cbn. by eauto.
      - unfold on_db. rewrite Hdb. cbn. by eauto. }
    destruct (Hfail (to_save s2)) as (e & s & Hf). unfold bind in Hf. rewrite Hf. done.
Qed.

(** X16. When [run_pipeline] returns, the file it names is
    "heatmap.html"; [inserted] is the number of rows that the run queued,
    which is at most [top_n] when that is not negative; the table then
    exists and holds the old table as a prefix followed by at most one new
    row per queued row; every queued row's link is stored in it; and
    [points] is the number of groups that the table aggregates to. *)
Theorem run_pipeline_stats (urls : list (list N)) (since : list N) (top_n : Z)
    (st st' : State W) (stats : Stats) :
  run_pipeline urls since top_n st = (Val stats, st') ->
  stats_heatmap_file stats = py "heatmap.html" /\
  stats_inserted stats = Z.of_nat (length (to_save st')) /\
  (0 <= top_n -> stats_inserted stats <= top_n) /\
  exists t,
    db st' = Some t /\
    default [] (db st) `prefix_of` t /\
    Z.of_nat (length t) <= Z.of_nat (length (default [] (db st))) + stats_inserted stats /\
    Forall (fun e => exists l, ev_link e = Some l /\ l ∈ links t) (to_save st') /\
    stats_points stats = Z.of_nat (length (group_count t)).
Proof.
  unfold run_pipeline, bind.
  destruct (prepare_run urls since top_n st) as [[p|e] s1] eqn:Hprep; [|done].
  destruct (prepare_run_facts _ _ _ _ _ _ Hprep) as (Hq1 & Hd1 & Htop).
  destruct (loop_outcome (fst p) (snd p) s1) as (Hd2 & new & Hq2 & Hlen & Hrows & _).
  destruct (for_each (snd p) (process_item (fst p)) s1) as [[[]|e] s2]; [|done].
  cbn [snd] in Hd2, Hq2. rewrite Hq1 in Hq2. cbn [app] in Hq2.
  intros Hfin.
  destruct (finish_run_facts _ _ _ Hfin) as (Hq3 & Hins & Hfile & t1 & Hdb2 & Hdb3 & Hpts).
  rewrite Hq3, Hq2 in *. split; [done|]. split; [done|]. split; [intros Hn; lia|].
  exists (foldl insert_or_ignore t1 new). split; [done|].
  assert (Ht1 : t1 = default [] (db st)).
  { rewrite Hd2, Hd1 in Hdb2. destruct (db st); cbn in *; congruence. }
  destruct (executemany_grows new t1) as [Hpre Hgrow]. rewrite <- Ht1.
  split; [done|]. split; [lia|]. split; [|done].
  apply Forall_forall. intros e He. rewrite Forall_forall in Hrows.
  destruct (Hrows e He) as (it & _ & Hl & _). exists (item_link it). split; [done|].
  by eapply link_stored_after_executemany.
Qed.

End StatsFacts.

Lemma run_pipeline_stats_witness :
  stats_heatmap_file (mkStats 2 2 (py "heatmap.html")) = py "heatmap.html" /\
  stats_inserted (mkStats 2 2 (py "heatmap.html")) = Z.of_nat (length (to_save (snd demo_run))) /\
  (0 <= 300 -> stats_inserted (mkStats 2 2 (py "heatmap.html")) <= 300) /\
  exists t,
    db (snd demo_run) = Some t /\
    default [] (db (demo_state 1000 None)) `prefix_of` t /\
    Z.of_nat (length t) <= Z.of_nat (length (default [] (db (demo_state 1000 None))))
                           + stats_inserted (mkStats 2 2 (py "heatmap.html")) /\
    Forall (fun e => exists l, ev_link e = Some l /\ l ∈ links t) (to_save (snd demo_run)) /\
    stats_points (mkStats 2 2 (py "heatmap.html")) = Z.of_nat (length (group_count t)).
Proof.
  apply (run_pipeline_stats (U := latin1) (P := demo_pylib) (HF := demo_hash)
           (B := demo_banding) (C := demo_news) [py "feed://n"]
           (py "2024-01-01T00:00:00+00:00") 300
           (demo_state 1000 None) (snd demo_run) (mkStats 2 2 (py "heatmap.html"))).
  vm_compute. reflexivity.
Defined.

(** ** Loading the language models *)

Section ModelFacts.
Context {W : Type} {C : Collaborators W}.

Lemma try_load_outcome (name : list N) (w w' : W)
    (o : outcome (list N -> M W (list Ent))) :
  try_except (spacy_load name) (spacy_load (py "xx_ent_wiki_sm")) w = (o, w') ->
  (exists model, o = Val model /\
     (spacy_load name w = (Val model, w') \/
      exists e w1, spacy_load name w = (Raise e, w1) /\
                   spacy_load (py "xx_ent_wiki_sm") w1 = (Val model, w'))) \/
  (exists e e0 w1, o = Raise e /\ spacy_load name w = (Raise e0, w1) /\
                   spacy_load (py "xx_ent_wiki_sm") w1 = (Raise e, w')).
Proof.
  unfold try_except. destruct (spacy_load name w) as [[model|e0] w1] eqn:Hfirst.
  - intros [= <- <-]. left. exists model. split; [done|by left].
  - destruct (spacy_load (py "xx_ent_wiki_sm") w1) as [[model|e] w2] eqn:Hsecond.
    + intros [= <- <-]. left. exists model. split; [done|]. right. by exists e0, w1.
    + intros [= <- <-]. right. by exists e, e0, w1.
Qed.

(** X17. [load_pipelines] fails only with the exception that loading
    the multilingual fallback model raised, after the model of a language
    failed to load. When it returns, the dictionary has exactly the keys
    "en" and "pt", and the entry for English is the English model when
    that one loaded, otherwise the fallback model. *)
Theorem load_pipelines_fallback (w : W) :
  (forall e w',
     load_pipelines w = (Raise e, w') ->
     exists w0 w1 name e0 w2,
       spacy_load (py "xx_ent_wiki_sm") w0 = (Raise e, w1) /\
       spacy_load name w2 = (Raise e0, w0) /\
       (name = py "en_core_web_lg" \/ name = py "pt_core_news_lg")) /\
  (forall nlp w',
     load_pipelines w = (Val nlp, w') ->
     dom nlp = {[py "en"; py "pt"]} /\
     exists en,
       nlp !! py "en" = Some en /\
       ((exists w1, spacy_load (py "en_core_web_lg") w = (Val en, w1)) \/
        (exists e w1 w2, spacy_load (py "en_core_web_lg") w = (Raise e, w1) /\
                         spacy_load (py "xx_ent_wiki_sm") w1 = (Val en, w2)))).
Proof.
  unfold load_pipelines, bind, ret. split.
  - intros e w'.
    destruct (try_except (spacy_load (py "en_core_web_lg"))
                (spacy_load (py "xx_ent_wiki_sm")) w) as [o1 w1] eqn:H1.
    destruct (try_load_outcome _ _ _ _ H1)
      as [(en & -> & _)|(e1 & e0 & wa & -> & Hfirst & Hsecond)].
    + destruct (try_except (spacy_load (py "pt_core_news_lg"))
                  (spacy_load (py "xx_ent_wiki_sm")) w1) as [o2 w2] eqn:H2.
      destruct (try_load_outcome _ _ _ _ H2)
        as [(pt & -> & _)|(e2 & e0 & wa & -> & Hfirst & Hsecond)]; [done|].
      intros [= <- <-]. exists wa, w2, (py "pt_core_news_lg"), e0, w1.
      split; [done|]. split; [done|by right].
    + intros [= <- <-]. exists wa, w1, (py "en_core_web_lg"), e0, w.
      split; [done|]. split; [done|by left].
  - intros nlp w'.
    destruct (try_except (spacy_load (py "en_core_web_lg"))
                (spacy_load (py "xx_ent_wiki_sm")) w) as [o1 w1] eqn:H1.
    destruct (try_load_outcome _ _ _ _ H1)
      as [(en & -> & Hen)|(e1 & e0 & wa & -> & _)]; [|done].
    destruct (try_except (spacy_load (py "pt_core_news_lg"))
                (spacy_load (py "xx_ent_wiki_sm")) w1) as [[pt|e2] w2]; [|done].
    intros [= <- <-]. split.
    + rewrite !dom_insert_L, dom_empty_L. set_solver.
    + exists en. split.
      * rewrite lookup_insert_ne by done. by rewrite lookup_insert_eq.
      * destruct Hen as [Hen|(e & wa & Hfail & Hfall)]; [left; by exists w1|].
        right. by exists e, wa, w1.
Qed.

End ModelFacts.

Lemma load_pipelines_fallback_witness :
  dom demo_nlp = {[py "en"; py "pt"]} /\
  exists en,
    demo_nlp !! py "en" = Some en /\
    ((exists w1, spacy_load (Collaborators := demo_news) (py "en_core_web_lg") 0 = (Val en, w1)) \/
     (exists e w1 w2,
        spacy_load (Collaborators := demo_news) (py "en_core_web_lg") 0 = (Raise e, w1) /\
        spacy_load (Collaborators := demo_news) (py "xx_ent_wiki_sm") w1 = (Val en, w2))).
Proof.
  apply (load_pipelines_fallback (C := demo_news) 0 ) with (w' := 0). reflexivity.
Defined.

(** ** The run: the index and [sig_index] *)

Section IndexStepFacts.
Context {W : Type} {U : Unicode} {P : PyLib} {HF : HashFamily} {B : Banding}
        {C : Collaborators W}.

Lemma index_of_ext {A} (c : M W A) (st : State W) :
  index_of (snd (ext c st)) = index_of st.
Proof. unfold ext. by destruct (c (world st)). Qed.

Lemma index_of_rate (n : list N) (st : State W) :
  index_of (snd (rate n st)) = index_of st.
Proof.
  destruct (rate_frame n st) as (_ & _ & Hl & Hs & _). unfold index_of. by rewrite Hl, Hs.
Qed.

Lemma index_of_geocode_loop (names : list (list N)) (out : list (Q * Q * list N))
    (st : State W) :
  index_of (snd (geocode_loop names out st)) = index_of st.
Proof.
  revert out st. induction names as [|n names IH]; intros out st; cbn [geocode_loop].
  - done.
  - unfold bind. pose proof (index_of_rate n st) as Hr.
    destruct (rate n st) as [[g|e] s1]; cbn [snd] in Hr; [|done].
    by rewrite IH.
Qed.

Lemma item_steps_index (nlp : gmap (list N) (list N -> M W (list Ent))) (it : Item)
    (st : State W) :
  index_of (snd (item_steps nlp it st)) = index_of st \/
  exists sig,
    index_of (snd (item_steps nlp it st))
    = (lsh_insert (lsh st) (sha1_hexdigest (encode (item_link it))) sig,
       <[sha1_hexdigest (encode (item_link it)) := sig]> (sig_index st)).
Proof.
  unfold item_steps, bind.
  pose proof (index_of_ext (fetch_clean_text (item_link it)) st) as I1.
  destruct (ext (fetch_clean_text (item_link it)) st) as [[text|e1] s1];
    cbn [snd] in I1; [|by left].
  pose proof (index_of_ext (lang_of text) s1) as I2.
  destruct (ext (lang_of text) s1) as [[lang|e2] s2]; cbn [snd] in I2;
    [|left; cbn [snd]; congruence].
  assert (I02 : index_of s2 = index_of st) by congruence.
  unfold lift_outcome.
  destruct (crime_score text lang) as [s|e3]; [|left; exact I02].
  destruct (negb (Qle_bool (6 # 10) s)); [left; exact I02|].
  unfold lsh_query_now.
  destruct (truthy_list (lsh_query (lsh s2) (text_signature text))); [left; exact I02|].
  destruct (str_encode (item_link it)) as [link_bytes|e4] eqn:Henc; [|left; exact I02].
  apply str_encode_val in Henc as ->.
  right. exists (text_signature text).
  set (key := sha1_hexdigest (encode (item_link it))).
  set (s3 := snd (remember_signature key (text_signature text) s2)).
  assert (I3 : index_of s3 = (lsh_insert (lsh st) key (text_signature text),
                              <[key := text_signature text]> (sig_index st))).
  { injection I02 as Hl Hs. unfold s3, index_of. cbn. by rewrite Hl, Hs. }
  change (remember_signature key (text_signature text) s2) with (Val tt, s3).
  cbv iota.
  pose proof (index_of_ext (extract_places text nlp lang) s3) as I4.
  destruct (ext (extract_places text nlp lang) s3) as [[places|e5] s4]; cbn [snd] in I4;
    [|cbn [snd]; congruence].
  pose proof (index_of_geocode_loop places [] s4) as I5. unfold geocode_places.
  destruct (geocode_loop places [] s4) as [[geos|e6] s5]; cbn [snd] in I5;
    [|cbn [snd]; congruence].
  destruct geos as [|[[lat lon] place] geos']; [cbn; congruence|].
  unfold ext, dt_utc, to_save_append.
  destruct (datetime_now_utc (world s5)) as [now w6]. cbn.
  unfold index_of in *. cbn in *. congruence.
Qed.

Lemma index_in_step_insert (st st' : State W) (key : list N) (sig : MinHash) :
  index_in_step st ->
  index_of st' = (lsh_insert (lsh st) key sig, <[key := sig]> (sig_index st)) ->
  index_in_step st'.
Proof.
  intros [H1 H2] [= Hl Hs]. unfold index_in_step. rewrite Hl, Hs. cbn [lsh_insert inserted].
  split.
  - intros k m Hk. rewrite elem_of_app. destruct (decide (k = key)) as [->|Hne].
    + rewrite lookup_insert_eq in Hk. injection Hk as <-. right. left.
    + rewrite lookup_insert_ne in Hk by done. left. by apply H1.
  - intros k m Hk. apply elem_of_app in Hk as [Hk|Hk].
    + destruct (decide (k = key)) as [->|Hne].
      * rewrite lookup_insert_eq. by eexists.
      * rewrite lookup_insert_ne by done. by eapply H2.
    + apply list_elem_of_singleton in Hk as [= -> ->].
      rewrite lookup_insert_eq. by eexists.
Qed.

Lemma loop_index (nlp : gmap (list N) (list N -> M W (list Ent))) (items : list Item)
    (st : State W) :
  index_in_step st ->
  let st' := snd (for_each items (process_item nlp) st) in
  index_in_step st' /\
  threshold (lsh st') = threshold (lsh st) /\
  inserted (lsh st) `prefix_of` inserted (lsh st') /\
  (forall k m, (k, m) ∈ inserted (lsh st') ->
     (k, m) ∈ inserted (lsh st) \/
     exists it, it ∈ items /\ k = sha1_hexdigest (encode (item_link it))).
Proof.
  revert st. induction items as [|it items IH]; intros st Hok; cbn zeta; cbn [for_each].
  - cbn. repeat split; try done; try apply Hok. intros k m Hk. by left.
  - unfold bind. pose proof (process_item_state nlp it st) as Hst.
    assert (Hstep : index_in_step (snd (process_item nlp it st)) /\
              threshold (lsh (snd (process_item nlp it st))) = threshold (lsh st) /\
              inserted (lsh st) `prefix_of` inserted (lsh (snd (process_item nlp it st))) /\
              (forall k m, (k, m) ∈ inserted (lsh (snd (process_item nlp it st))) ->
                 (k, m) ∈ inserted (lsh st) \/
                 k = sha1_hexdigest (encode (item_link it)))).
    { rewrite Hst. destruct (item_steps_index nlp it st) as [Hsame|[sig Hins]].
      - injection Hsame as Hl Hs. unfold index_in_step. rewrite Hl, Hs.
        repeat split; try done; try apply Hok. intros k m Hk. by left.
      - split; [by eapply index_in_step_insert|].
        injection Hins as Hl Hs. rewrite Hl. cbn [lsh_insert threshold inserted].
        split; [done|]. split; [by apply prefix_app_r|].
        intros k m Hk. apply elem_of_app in Hk as [Hk|Hk]; [by left|].
        apply list_elem_of_singleton in Hk as [= -> ->]. by right. }
    destruct Hstep as (Hok1 & Hth1 & Hpre1 & Hkeys1).
    destruct (process_item nlp it st) as [[[]|e] s1]; cbn [snd] in *.
    + destruct (IH s1 Hok1) as (Hok2 & Hth2 & Hpre2 & Hkeys2). cbn zeta in *.
      split; [done|]. split; [congruence|]. split; [by etrans|].
      intros k m Hk. destruct (Hkeys2 k m Hk) as [Hk1|(it' & Hin & ->)].
      * destruct (Hkeys1 k m Hk1) as [?| ->]; [by left|].
        right. exists it. split; [left|done].
      * right. exists it'. split; [by right|done].
    + split; [done|]. split; [done|]. split; [done|].
      intros k m Hk. destruct (Hkeys1 k m Hk) as [?| ->]; [by left|].
      right. exists it. split; [left|done].
Qed.

(** X18. The run keeps its two records of signatures in step. Starting
    from the empty index and the empty [sig_index] of line 165, after the
    loop over any items: every signature in [sig_index] is in the index
    under the same key, every key of the index is a key of [sig_index],
    the threshold is still that of [build_lsh], and every key is the
    SHA-1 digest of the link of one of the items. *)
Theorem index_and_sig_index (nlp : gmap (list N) (list N -> M W (list Ent)))
    (items : list Item) (st : State W) :
  let st' := snd (for_each items (process_item nlp) (snd (start_run st))) in
  index_in_step st' /\
  threshold (lsh st') = threshold build_lsh /\
  (forall k m, (k, m) ∈ inserted (lsh st') ->
     exists it, it ∈ items /\ k = sha1_hexdigest (encode (item_link it))) /\
  (forall k, is_Some (sig_index st' !! k) ->
     exists it, it ∈ items /\ k = sha1_hexdigest (encode (item_link it))).
Proof.
  assert (H0 : index_in_step (snd (start_run st))).
  { unfold index_in_step, start_run. cbn. split.
    - intros k m Hk. by rewrite lookup_empty in Hk.
    - intros k m Hk. by apply elem_of_nil in Hk. }
  destruct (loop_index nlp items _ H0) as (Hok & Hth & _ & Hkeys). cbn zeta in *.
  assert (Hk' : forall k m,
            (k, m) ∈ inserted (lsh (snd (for_each items (process_item nlp)
                                           (snd (start_run st))))) ->
            exists it, it ∈ items /\ k = sha1_hexdigest (encode (item_link it))).
  { intros k m Hk. destruct (Hkeys k m Hk) as [Hnil|Hit]; [|done].
    by apply elem_of_nil in Hnil. }
  split; [done|]. split; [done|]. split; [done|].
  intros k [m Hm]. apply (Hk' k m). by apply Hok.
Qed.

End IndexStepFacts.

Lemma index_and_sig_index_witness :
  exists it, it ∈ [demo_item_quito] /\
             py "http://n/8" = sha1_hexdigest (PyLib := demo_pylib) (encode (item_link it)).
Proof.
  pose proof (index_and_sig_index (U := latin1) (P := demo_pylib) (HF := demo_hash)
                (B := demo_banding) (C := demo_news) demo_nlp [demo_item_quito]
                (demo_state 0 (Some []))) as H.
  cbv zeta in H. destruct H as (_ & _ & _ & H). apply H.
  apply (bool_decide_unpack _). vm_compute. exact I.
Defined.

(** ** Reading the feeds: failures *)

Section FeedFailureFacts.
Context {W : Type} {U : Unicode} {P : PyLib} {HF : HashFamily} {B : Banding}
        {C : Collaborators W}.

Lemma feeds_loop_app (since : datetime) (pre rest : list (list N)) (out out1 : list Item)
    (w w1 : W) :
  feeds_loop since pre out w = (Val out1, w1) ->
  feeds_loop since (pre ++ rest) out w = feeds_loop since rest out1 w1.
Proof.
  revert out w. induction pre as [|u pre IH]; intros out w; cbn [feeds_loop app].
  - by intros [= -> ->].
  - unfold bind. destruct (feedparser_parse u w) as [[f|e] wa]; [|done].
    destruct (entries_loop since f out wa) as [[out'|e] wb]; [|done].
    apply IH.
Qed.

(** X19. A feed that cannot be parsed ends the whole run: only the item
    loop has a [try]. When the models load, the cutoff parses, the feeds
    before [u] are read and parsing [u] raises [e], then
    [fetch_rss_items] raises [e] and returns none of the items already
    collected, and [run_pipeline] raises [e] too. At that point the table
    has been created if it was missing, and nothing else has happened:
    the later feeds are not read, no page is fetched, no row is queued or
    saved and no map is written (the outside world is left as the failing
    call left it). *)
Theorem feed_failure_aborts_run (pre post : list (list N)) (u since_iso : list N)
    (cutoff : datetime) (top_n : Z) (out1 : list Item)
    (nlp : gmap (list N) (list N -> M W (list Ent)))
    (st : State W) (w w1 w2 : W) (e : exn) :
  load_pipelines (world st) = (Val nlp, w) ->
  fromisoformat (replace_Z since_iso) = Val cutoff ->
  feeds_loop cutoff pre [] w = (Val out1, w1) ->
  feedparser_parse u w1 = (Raise e, w2) ->
  fetch_rss_items (pre ++ u :: post) since_iso w = (Raise e, w2) /\
  run_pipeline (pre ++ u :: post) since_iso top_n st
  = (Raise e, mkState w2 (ensure_db (db st)) (geocoder_calls st) (geocoder_requests st)
                      (lsh st) (sig_index st) (to_save st)).
Proof.
  intros Hload Hcut Hpre Hu.
  assert (Hfetch : fetch_rss_items (pre ++ u :: post) since_iso w = (Raise e, w2)).
  { unfold fetch_rss_items, bind, lift_outcome. rewrite Hcut.
    rewrite (feeds_loop_app _ _ _ _ _ _ _ Hpre). cbn [feeds_loop]. unfold bind.
    by rewrite Hu. }
  split; [done|].
  unfold run_pipeline, prepare_run, bind, on_db, ext. cbn [fst snd world db
    geocoder_calls geocoder_requests lsh sig_index to_save].
  rewrite Hload. cbn [world db geocoder_calls geocoder_requests lsh sig_index to_save].
  by rewrite Hfetch.
Qed.

End FeedFailureFacts.

Lemma feed_failure_aborts_run_witness :
  run_pipeline (U := latin1) (P := demo_pylib) (HF := demo_hash) (B := demo_banding)
    (C := demo_feed_down) [py "feed://n"; py "feed://down"; py "feed://n"]
    (py "2024-01-01T00:00:00+00:00") 300 (demo_state 1000 None)
  = (Raise (Exception "URLError"), demo_state 1001 (Some [])).
Proof.
  refine (proj2 (feed_failure_aborts_run (U := latin1) (P := demo_pylib)
            (HF := demo_hash) (B := demo_banding) (C := demo_feed_down)
            [py "feed://n"] [py "feed://n"] (py "feed://down")
            (py "2024-01-01T00:00:00+00:00")
            _ 300 _ _ (demo_state 1000 None) _ _ _ _ _ _ _ _)).
  - reflexivity.
  - reflexivity.
  - reflexivity.
  - reflexivity.
Defined.

(** ** The run: requests to the geocoder *)

Section GeocoderBudget.
Context {W : Type} {U : Unicode} {P : PyLib} {HF : HashFamily} {B : Banding}
        {C : Collaborators W}.

Lemma extract_places_length (text lang : list N)
    (nlp : gmap (list N) (list N -> M W (list Ent))) (w w' : W) (places : list (list N)) :
  extract_places text nlp lang w = (Val places, w') -> (length places <= 5)%nat.
Proof.
  unfold extract_places. destruct (nlp !! lang) as [pipeline|]; [|done].
  unfold bind, ret. destruct (pipeline text w) as [[ents|e] w1]; [|done].
  intros [= <- _]. rewrite length_take. lia.
Qed.

Lemma traced_same (st st' : State W) :
  geocoder_calls st' = geocoder_calls st ->
  geocoder_requests st' = geocoder_requests st ->
  traced st st' [] [].
Proof. intros Hc Hr. unfold traced. rewrite Hc, Hr, !app_nil_r. cbn. split; [done|]. split; [done|lia]. Qed.

Lemma traced_trans (s1 s2 s3 : State W) (a1 r1 a2 r2 : list (list N)) :
  traced s1 s2 a1 r1 -> traced s2 s3 a2 r2 -> traced s1 s3 (a1 ++ a2) (r1 ++ r2).
Proof.
  intros (Hc1 & Hr1 & Hl1) (Hc2 & Hr2 & Hl2). unfold traced.
  rewrite Hc2, Hc1, Hr2, Hr1, <- !app_assoc, !length_app. split; [done|]. split; [done|lia].
Qed.

Lemma geocode_loop_calls (names : list (list N)) (out : list (Q * Q * list N))
    (st : State W) :
  exists asked requests,
    traced st (snd (geocode_loop names out st)) asked requests /\
    (length asked <= length names)%nat /\
    lsh (snd (geocode_loop names out st)) = lsh st.
Proof.
  revert out st. induction names as [|n names IH]; intros out st; cbn [geocode_loop].
  - exists (@nil (list N)), (@nil (list N)). split; [by apply traced_same|]. split; [cbn; lia|done].
  - unfold bind.
    destruct (rate_frame n st) as (Hc & _ & Hl & _ & _ & k & Hk & Hr).
    assert (Hstep : traced st (snd (rate n st)) [n] (replicate k n)).
    { unfold traced. rewrite length_replicate. cbn [length]. split; [done|]. split; [done|lia]. }
    destruct (rate n st) as [[g|e] s1]; cbn [snd] in *.
    + match goal with
      | |- context [geocode_loop names ?o s1] =>
        destruct (IH o s1) as (asked & requests & Ht & Hlen & Hl1)
      end.
      exists ([n] ++ asked), (replicate k n ++ requests).
      split; [by eapply traced_trans|]. split; [cbn; lia|congruence].
    + exists [n], (replicate k n). split; [done|]. split; [cbn; lia|done].
Qed.

Lemma item_steps_calls (nlp : gmap (list N) (list N -> M W (list Ent))) (it : Item)
    (st : State W) :
  (lsh (snd (item_steps nlp it st)) = lsh st /\
   traced st (snd (item_steps nlp it st)) [] []) \/
  exists sig asked requests,
    lsh (snd (item_steps nlp it st))
    = lsh_insert (lsh st) (sha1_hexdigest (encode (item_link it))) sig /\
    traced st (snd (item_steps nlp it st)) asked requests /\
    (length asked <= 5)%nat.
Proof.
  unfold item_steps, bind.
  destruct (ext_frame (fetch_clean_text (item_link it)) st) as (_ & C1 & R1 & L1 & _).
  destruct (ext (fetch_clean_text (item_link it)) st) as [[text|e1] s1];
    cbn [snd] in C1, R1, L1; [|left; split; [done|by apply traced_same]].
  destruct (ext_frame (lang_of text) s1) as (_ & C2 & R2 & L2 & _).
  destruct (ext (lang_of text) s1) as [[lang|e2] s2]; cbn [snd] in C2, R2, L2;
    [|left; cbn [snd]; split; [congruence|apply traced_same; congruence]].
  assert (H02 : lsh s2 = lsh st /\ traced st s2 [] []).
  { split; [congruence|apply traced_same; congruence]. }
  unfold lift_outcome.
  destruct (crime_score text lang) as [s|e3]; [|left; exact H02].
  destruct (negb (Qle_bool (6 # 10) s)); [left; exact H02|].
  unfold lsh_query_now.
  destruct (truthy_list (lsh_query (lsh s2) (text_signature text))); [left; exact H02|].
  destruct (str_encode (item_link it)) as [link_bytes|e4] eqn:Henc; [|left; exact H02].
  apply str_encode_val in Henc as ->.
  right. exists (text_signature text).
  set (key := sha1_hexdigest (encode (item_link it))).
  set (s3 := snd (remember_signature key (text_signature text) s2)).
  assert (L3 : lsh s3 = lsh_insert (lsh st) key (text_signature text)).
  { unfold s3. cbn. by rewrite L2, L1. }
  assert (T3 : traced st s3 [] []).
  { apply traced_same; unfold s3; cbn; congruence. }
  change (remember_signature key (text_signature text) s2) with (Val tt, s3).
  cbv iota.
  destruct (ext_frame (extract_places text nlp lang) s3) as (_ & C4 & R4 & L4 & _).
  destruct (ext (extract_places text nlp lang) s3) as [[places|e5] s4] eqn:Hplaces;
    cbn [snd] in C4, R4, L4.
  2:{ exists (@nil (list N)), (@nil (list N)). cbn [snd length]. split; [congruence|].
      split; [|lia]. eapply (traced_trans _ _ _ [] [] [] []); [exact T3|].
      by apply traced_same. }
  assert (T4 : traced st s4 [] []).
  { eapply (traced_trans _ _ _ [] [] [] []); [exact T3|]. by apply traced_same. }
  assert (Hfive : (length places <= 5)%nat).
  { destruct (ext_val _ _ _ _ Hplaces) as [w' Hw]. by eapply extract_places_length. }
  destruct (geocode_loop_calls places [] s4) as (asked & requests & T5 & Hlen & L5).
  unfold geocode_places.
  assert (T05 : traced st (snd (geocode_loop places [] s4)) asked requests).
  { by apply (traced_trans _ _ _ [] [] _ _ T4). }
  destruct (geocode_loop places [] s4) as [[geos|e6] s5]; cbn [snd] in T05, L5.
  2:{ exists asked, requests. cbn [snd]. split; [congruence|]. split; [done|lia]. }
  exists asked, requests.
  destruct geos as [|[[lat lon] place] geos'].
  - unfold ret. cbn [snd]. split; [congruence|]. split; [done|lia].
  - unfold ext, dt_utc, to_save_append.
    destruct (datetime_now_utc (world s5)) as [now w6]. cbn.
    split; [congruence|]. split; [exact T05|lia].
Qed.

Lemma loop_calls (nlp : gmap (list N) (list N -> M W (list Ent))) (items : list Item)
    (st : State W) :
  exists asked requests,
    traced st (snd (for_each items (process_item nlp) st)) asked requests /\
    (length asked <= 5 * length items)%nat /\
    (length (inserted (lsh st))
     <= length (inserted (lsh (snd (for_each items (process_item nlp) st))))
     <= length (inserted (lsh st)) + length items)%nat /\
    (length (inserted (lsh (snd (for_each items (process_item nlp) st))))
     = length (inserted (lsh st)) -> asked = [] /\ requests = []).
Proof.
  revert st. induction items as [|it items IH]; intros st; cbn [for_each].
  - exists (@nil (list N)), (@nil (list N)). cbn. split; [by apply traced_same|]. split; [lia|]. split; [lia|done].
  - unfold bind. pose proof (process_item_state nlp it st) as Hst.
    pose proof (item_steps_calls nlp it st) as Hstep. rewrite <- Hst in Hstep.
    assert (H1 : exists a1 r1,
              traced st (snd (process_item nlp it st)) a1 r1 /\
              (length a1 <= 5)%nat /\
              (length (inserted (lsh st))
               <= length (inserted (lsh (snd (process_item nlp it st))))
               <= length (inserted (lsh st)) + 1)%nat /\
              (length (inserted (lsh (snd (process_item nlp it st))))
               = length (inserted (lsh st)) -> a1 = [] /\ r1 = [])).
    { destruct Hstep as [[Hl Ht]|(sig & a1 & r1 & Hl & Ht & Hlen)].
      - exists (@nil (list N)), (@nil (list N)). rewrite Hl. split; [done|]. split; [cbn; lia|]. split; [lia|done].
      - exists a1, r1. rewrite Hl. cbn [lsh_insert inserted]. rewrite !length_app.
        cbn [length]. split; [done|]. split; [done|]. split; lia. }
    destruct H1 as (a1 & r1 & Ht1 & Hl1 & Hm1 & He1). cbn [length].
    destruct (process_item nlp it st) as [[[]|e] s1]; cbn [snd] in *.
    + destruct (IH s1) as (a2 & r2 & Ht2 & Hl2 & Hm2 & He2).
      exists (a1 ++ a2), (r1 ++ r2). split; [by eapply traced_trans|].
      rewrite length_app. split; [lia|]. split; [lia|].
      intros Heq. destruct He1 as [-> ->]; [lia|]. destruct He2 as [-> ->]; [lia|]. done.
    + exists a1, r1. split; [done|]. split; [lia|]. split; [lia|done].
Qed.

(** X20. Requests to the geocoder during the loop. An item hands at most
    five names to the rate limiter, which makes at least one and at most
    three requests for each name: a loop over [n] items hands over at
    most [5 n] names and makes at most [15 n] requests, and nothing
    recorded before is lost. The index grows by at most one signature per
    item, and names are only handed over for items whose signature was
    put into the index: if the index has not grown, no request was
    made. *)
Theorem geocoder_budget (nlp : gmap (list N) (list N -> M W (list Ent)))
    (items : list Item) (st : State W) :
  let st' := snd (for_each items (process_item nlp) st) in
  exists asked requests,
    geocoder_calls st' = geocoder_calls st ++ asked /\
    geocoder_requests st' = geocoder_requests st ++ requests /\
    (length asked <= 5 * length items)%nat /\
    (length asked <= length requests <= 3 * length asked)%nat /\
    (length requests <= 15 * length items)%nat /\
    (length (inserted (lsh st')) <= length (inserted (lsh st)) + length items)%nat /\
    (length (inserted (lsh st')) = length (inserted (lsh st)) ->
     asked = [] /\ requests = []).
Proof.
  cbn zeta.
  destruct (loop_calls nlp items st) as (asked & requests & (Hc & Hr & Hlen) & H5 & Hm & He).
  exists asked, requests. split; [done|]. split; [done|]. split; [done|].
  split; [done|]. split; [lia|]. split; [lia|done].
Qed.

End GeocoderBudget.

Lemma geocoder_budget_witness :
  exists asked requests : list (list N),
    geocoder_requests
      (snd (for_each [demo_item_missing]
              (process_item (U := latin1) (P := demo_pylib) (HF := demo_hash)
                 (B := demo_banding) (C := demo_news) demo_nlp)
              (demo_state 0 (Some []))))
    = geocoder_requests (demo_state 0 (Some [])) ++ requests /\
    asked = [] /\ requests = [].
Proof.
  destruct (geocoder_budget (U := latin1) (P := demo_pylib) (HF := demo_hash)
              (B := demo_banding) (C := demo_news) demo_nlp [demo_item_missing]
              (demo_state 0 (Some []))) as (asked & requests & _ & Hr & _ & _ & _ & _ & H).
  exists asked, requests. split; [exact Hr|]. apply H. vm_compute. reflexivity.
Defined.

(** A geocoder that is out of service: three requests for the name, then
    no answer, and the item is dropped without an exception. *)
Example rate_retries_then_gives_up :
  let out_of_service : Collaborators Z := {|
    feedparser_parse := feedparser_parse (Collaborators := demo_news);
    datetime_now_utc := datetime_now_utc (Collaborators := demo_news);
    requests_get_text := requests_get_text (Collaborators := demo_news);
    readable_text := readable_text (Collaborators := demo_news);
    spacy_load := spacy_load (Collaborators := demo_news);
    detect := detect (Collaborators := demo_news);
    geocode := fun n => raise (Exception "GeocoderUnavailable");
    folium_save := folium_save (Collaborators := demo_news);
    time_sleep := time_sleep (Collaborators := demo_news)
  |} in
  let r := rate (C := out_of_service) (py "Lisboa") (demo_state 0 None) in
  fst r = Val None /\
  geocoder_calls (snd r) = [py "Lisboa"] /\
  geocoder_requests (snd r) = [py "Lisboa"; py "Lisboa"; py "Lisboa"] /\
  world (snd r) = 10000000.
Proof. vm_compute. repeat split; reflexivity. Qed.
